(** * Workout tracker: data model, mutations and derivations

    A shallow embedding of the mutation layer ([hooks/useWorkoutData.ts]),
    the storage helpers ([utils/storage.ts]), the statistics module
    ([utils/stats.ts]) and the lists two views derive
    ([components/WorkoutDetail.tsx], [components/Workout.tsx]), with the
    properties stated for them.

    Conventions.
    - A TypeScript [string] is a [string]; comparison is by character code.
    - The payload type of JavaScript numbers is the section variable
      [number]: the mutations and derivations only move numbers around,
      except [getExerciseMaxWeight], which is given the comparison.
    - [setData(prev => f prev)] is the pure function [f] on snapshots.
    - Values that come from the environment ([generateId()], [new Date()])
      are explicit arguments. *)

From Stdlib Require Import List String Ascii ZArith Bool Arith Lia.
From Stdlib Require Import Sorting.Sorted Sorting.Permutation.
From Stdlib Require Import Structures.OrderedTypeEx.
From Stdlib Require Import Numbers.DecimalString.
Import ListNotations.

Open Scope string_scope.
Open Scope list_scope.

Set Implicit Arguments.

(** ** Strings *)

(** [s.split('T')[0]]: the text before the first ['T'] (all of [s] when
    there is none; the empty string splits to one empty piece). *)
Fixpoint split_head (sep : ascii) (s : string) : string :=
  match s with
  | EmptyString => EmptyString
  | String c rest =>
      if Ascii.eqb c sep then EmptyString else String c (split_head sep rest)
  end.

Definition datePart (s : string) : string := split_head "T"%char s.

(** The order [arr.sort()] puts strings in. *)
Definition str_le (a b : string) : Prop := String.leb a b = true.
Definition str_lt (a b : string) : Prop := String.ltb a b = true.

(** [arr.includes(x)] on an array of strings. *)
Definition includes (l : list string) (x : string) : bool :=
  existsb (String.eqb x) l.

(** Truthiness of an optional string ([undefined] and [""] are falsy). *)
Definition truthy_string (o : option string) : bool :=
  match o with
  | Some s => negb (String.eqb s "")
  | None => false
  end.

(** Truthiness of an optional boolean. *)
Definition truthy_bool (o : option bool) : bool :=
  match o with
  | Some b => b
  | None => false
  end.

(** ** Dates (the part of ECMAScript [Date] the code relies on)

    A [Date] object is its time value: milliseconds since the epoch, or
    [None] for an Invalid Date (time value [NaN]). *)

Definition Date : Type := option Z.

Definition msPerDay : Z := 86400000.
Definition maxTimeValue : Z := 8640000000000000.

Definition TimeClip (t : Z) : Date :=
  if (Z.abs t <=? maxTimeValue)%Z then Some t else None.

(** Year, month (1-12) and day of month of the day numbered [z] from the
    epoch, in the proleptic Gregorian calendar. *)
Definition civil_from_days (z : Z) : Z * Z * Z :=
  let z := (z + 719468)%Z in
  let era := (z / 146097)%Z in
  let doe := (z - era * 146097)%Z in
  let yoe := ((doe - doe / 1460 + doe / 36524 - doe / 146096) / 365)%Z in
  let doy := (doe - (365 * yoe + yoe / 4 - yoe / 100))%Z in
  let mp := ((5 * doy + 2) / 153)%Z in
  let d := (doy - (153 * mp + 2) / 5 + 1)%Z in
  let m := (if mp <? 10 then mp + 3 else mp - 9)%Z in
  let y := (yoe + era * 400 + (if m <=? 2 then 1 else 0))%Z in
  (y, m, d).

Definition digit_char (d : Z) : ascii := ascii_of_nat (48 + Z.to_nat d).

(** The last [width] decimal digits of [n], zero padded. *)
Fixpoint pad_digits (width : nat) (n : Z) : string :=
  match width with
  | O => ""
  | S w => pad_digits w (n / 10) ++ String (digit_char (n mod 10)) ""
  end.

Definition year_string (y : Z) : string :=
  if ((0 <=? y) && (y <=? 9999))%Z then pad_digits 4 y
  else (if (y <? 0)%Z then "-" else "+") ++ pad_digits 6 (Z.abs y).

(** The date part of [toISOString]: [YYYY-MM-DD] for the day numbered
    [day] from the epoch. *)
Definition date_string (day : Z) : string :=
  let '(y, m, d) := civil_from_days day in
  year_string y ++ "-" ++ pad_digits 2 m ++ "-" ++ pad_digits 2 d.

(** [date.toISOString()] for a valid time value:
    [YYYY-MM-DDTHH:mm:ss.sssZ], in UTC. *)
Definition toISOString (t : Z) : string :=
  let day := (t / msPerDay)%Z in
  let tod := (t mod msPerDay)%Z in
  let '(y, m, d) := civil_from_days day in
  year_string y ++ "-" ++ pad_digits 2 m ++ "-" ++ pad_digits 2 d ++ "T"
    ++ pad_digits 2 (tod / 3600000) ++ ":"
    ++ pad_digits 2 (tod / 60000 mod 60) ++ ":"
    ++ pad_digits 2 (tod / 1000 mod 60) ++ "."
    ++ pad_digits 3 (tod mod 1000) ++ "Z".

Section Model.

Variable number : Type.

(** ** Data model ([types/index.ts]) *)

Record WSet : Type := mkSet {
  reps : number;
  weight : number
}.

Record ExerciseSession : Type := mkExerciseSession {
  es_id : string;
  es_date : string;
  es_sets : list WSet
}.

Record Exercise : Type := mkExercise {
  ex_id : string;
  ex_name : string;
  ex_category : string;
  ex_sessions : list ExerciseSession
}.

Record WorkoutSession : Type := mkWorkoutSession {
  ws_id : string;
  startTime : string;
  endTime : option string;
  exerciseIds : list string;
  isDwarfWorkout : option bool
}.

Record WorkoutData : Type := mkWorkoutData {
  exercises : list Exercise;
  workoutSessions : list WorkoutSession
}.

(** [{ ...exercise, sessions }] *)
Definition with_sessions (e : Exercise) (ss : list ExerciseSession) : Exercise :=
  mkExercise (ex_id e) (ex_name e) (ex_category e) ss.

(** [{ ...session, sets }] *)
Definition with_sets (s : ExerciseSession) (sets : list WSet) : ExerciseSession :=
  mkExerciseSession (es_id s) (es_date s) sets.

(** ** Mutations ([hooks/useWorkoutData.ts]) *)

Definition deleteWorkoutSession (sessionId : string) (prev : WorkoutData)
  : WorkoutData :=
  match find (fun s => String.eqb (ws_id s) sessionId) (workoutSessions prev) with
  | None => prev
  | Some sessionToDelete =>
      let sessionDate := datePart (startTime sessionToDelete) in
      let exerciseIdsInSession := exerciseIds sessionToDelete in
      let updatedExercises :=
        map (fun exercise =>
               if negb (includes exerciseIdsInSession (ex_id exercise))
               then exercise
               else with_sessions exercise
                      (filter (fun es =>
                                 negb (String.eqb (datePart (es_date es)) sessionDate))
                              (ex_sessions exercise)))
            (exercises prev) in
      mkWorkoutData updatedExercises
        (filter (fun s => negb (String.eqb (ws_id s) sessionId))
                (workoutSessions prev))
  end.

(** [arr.findIndex(p)], with [None] for [-1]. *)
Fixpoint findIndex (A : Type) (p : A -> bool) (l : list A) : option nat :=
  match l with
  | [] => None
  | x :: rest =>
      if p x then Some 0
      else match findIndex p rest with
           | Some i => Some (S i)
           | None => None
           end
  end.

(** [copy[i] = x] on a copy of the array, for [i] in range. *)
Fixpoint array_set (A : Type) (l : list A) (i : nat) (x : A) : list A :=
  match l, i with
  | [], _ => []
  | _ :: rest, 0 => x :: rest
  | y :: rest, S j => y :: array_set rest j x
  end.

(** [arr.filter((_, i) => p i)], the index counted from [i]. *)
Fixpoint filter_index (A : Type) (p : nat -> bool) (i : nat) (l : list A)
  : list A :=
  match l with
  | [] => []
  | x :: rest =>
      if p i then x :: filter_index p (S i) rest
      else filter_index p (S i) rest
  end.

(** The update [addSetToExercise] passes to [setData]; [dateStr] and its
    date part are computed before, [newId] is the value [generateId()]
    returns if a session has to be created. *)
Definition addSetToExercise_update (exerciseId : string) (set : WSet)
    (dateStr : string) (newId : string) (prev : WorkoutData) : WorkoutData :=
  let datePart_ := datePart dateStr in
  let exercises_ :=
    map (fun exercise =>
           if negb (String.eqb (ex_id exercise) exerciseId) then exercise
           else
             match findIndex
                     (fun s => String.eqb (datePart (es_date s)) datePart_)
                     (ex_sessions exercise) with
             | Some existingSessionIndex =>
                 match nth_error (ex_sessions exercise) existingSessionIndex with
                 | Some existing =>
                     with_sessions exercise
                       (array_set (ex_sessions exercise) existingSessionIndex
                          (with_sets existing (es_sets existing ++ [set])))
                 | None => exercise
                 end
             | None =>
                 let newSession := mkExerciseSession newId dateStr [set] in
                 with_sessions exercise (ex_sessions exercise ++ [newSession])
             end)
        (exercises prev) in
  mkWorkoutData exercises_ (workoutSessions prev).

(** [addSetToExercise(exerciseId, set, date?)]: [date] is [None] when the
    argument is omitted, [now] is the time value of [new Date()]. The
    result is [None] when [toISOString] throws on an Invalid Date. *)
Definition addSetToExercise (exerciseId : string) (set : WSet)
    (date : option Date) (now : Z) (newId : string) (prev : WorkoutData)
  : option WorkoutData :=
  let targetDate :=
    match date with
    | Some d => d
    | None => TimeClip now
    end in
  match targetDate with
  | None => None
  | Some t =>
      let dateStr := toISOString t in
      Some (addSetToExercise_update exerciseId set dateStr newId prev)
  end.

(** The callback [deleteSet] maps over the sessions of the exercise. *)
Definition deleteSet_session (sessionId : string) (setIndex : Z)
    (session : ExerciseSession) : ExerciseSession :=
  if negb (String.eqb (es_id session) sessionId) then session
  else
    let newSets :=
      filter_index (fun i => negb (Z.eqb (Z.of_nat i) setIndex))
                   0 (es_sets session) in
    with_sets session newSets.

(** [setIndex] is a number; only an integer equals an array index. *)
Definition deleteSet (exerciseId sessionId : string) (setIndex : Z)
    (prev : WorkoutData) : WorkoutData :=
  mkWorkoutData
    (map (fun exercise =>
            if negb (String.eqb (ex_id exercise) exerciseId) then exercise
            else
              with_sessions exercise
                (filter (fun session => Nat.ltb 0 (List.length (es_sets session)))
                   (map (deleteSet_session sessionId setIndex)
                        (ex_sessions exercise))))
         (exercises prev))
    (workoutSessions prev).

(** [addExercise(name, category)]; [newId] is the value [generateId()]
    returns. *)
Definition addExercise (name category : string) (newId : string)
    (prev : WorkoutData) : WorkoutData :=
  let newExercise := mkExercise newId name category [] in
  mkWorkoutData (exercises prev ++ [newExercise]) (workoutSessions prev).

Definition deleteExercise (exerciseId : string) (prev : WorkoutData)
  : WorkoutData :=
  mkWorkoutData
    (filter (fun e => negb (String.eqb (ex_id e) exerciseId)) (exercises prev))
    (workoutSessions prev).

(** [{ ...session, endTime }] *)
Definition with_endTime (s : WorkoutSession) (t : string) : WorkoutSession :=
  mkWorkoutSession (ws_id s) (startTime s) (Some t) (exerciseIds s)
    (isDwarfWorkout s).

(** [{ ...session, exerciseIds }] *)
Definition with_exerciseIds (s : WorkoutSession) (ids : list string)
  : WorkoutSession :=
  mkWorkoutSession (ws_id s) (startTime s) (endTime s) ids (isDwarfWorkout s).

(** [startWorkoutSession()]; [now] is the time value of [new Date()] (the
    current time is never an Invalid Date), [newId] the value of
    [generateId()]. *)
Definition startWorkoutSession (now : Z) (newId : string)
    (prev : WorkoutData) : WorkoutData :=
  let newSession := mkWorkoutSession newId (toISOString now) None [] None in
  mkWorkoutData (exercises prev) (workoutSessions prev ++ [newSession]).

Definition endWorkoutSession (sessionId : string) (now : Z)
    (prev : WorkoutData) : WorkoutData :=
  mkWorkoutData (exercises prev)
    (map (fun session =>
            if String.eqb (ws_id session) sessionId
            then with_endTime session (toISOString now)
            else session)
         (workoutSessions prev)).

Definition addExerciseToWorkoutSession (sessionId exerciseId : string)
    (prev : WorkoutData) : WorkoutData :=
  mkWorkoutData (exercises prev)
    (map (fun session =>
            if String.eqb (ws_id session) sessionId
               && negb (includes (exerciseIds session) exerciseId)
            then with_exerciseIds session (exerciseIds session ++ [exerciseId])
            else session)
         (workoutSessions prev)).

(** ** Storage helpers ([utils/storage.ts]) *)

(** A [Set<string>] as the list of its elements in insertion order. *)
Definition set_add (s : list string) (x : string) : list string :=
  if includes s x then s else s ++ [x].

Definition cleanOrphanedSessions (data : WorkoutData) : WorkoutData :=
  let validWorkoutDates :=
    fold_left (fun dates session =>
                 if truthy_string (endTime session)
                 then set_add dates (datePart (startTime session))
                 else dates)
              (workoutSessions data) [] in
  if Nat.eqb (List.length (workoutSessions data)) 0 then data
  else
    let cleanedExercises :=
      map (fun exercise =>
             with_sessions exercise
               (filter (fun session =>
                          let sessionDate := datePart (es_date session) in
                          includes validWorkoutDates sessionDate)
                       (ex_sessions exercise)))
          (exercises data) in
    mkWorkoutData cleanedExercises (workoutSessions data).

Definition removeSessionsFromDate (data : WorkoutData) (dateStr : string)
  : WorkoutData :=
  let targetDate := datePart dateStr in
  let cleanedExercises :=
    map (fun exercise =>
           with_sessions exercise
             (filter (fun session =>
                        let sessionDate := datePart (es_date session) in
                        negb (String.eqb sessionDate targetDate))
                     (ex_sessions exercise)))
        (exercises data) in
  mkWorkoutData cleanedExercises (workoutSessions data).

(** The mutation of [hooks/useWorkoutData.ts] that calls it. *)
Definition deleteSessionsFromDate (dateStr : string) (prev : WorkoutData)
  : WorkoutData :=
  removeSessionsFromDate prev dateStr.

(** ** Derivations ([utils/stats.ts]) *)

(** [arr.sort()] on strings: ascending by character code. *)
Fixpoint sort_insert (x : string) (l : list string) : list string :=
  match l with
  | [] => [x]
  | y :: rest => if String.leb x y then x :: l else y :: sort_insert x rest
  end.

Definition array_sort (l : list string) : list string :=
  fold_right sort_insert [] l.

Definition getUniqueWorkoutDates (data : WorkoutData) : list string :=
  let dates0 : list string := [] in
  let dates1 :=
    fold_left (fun dates exercise =>
                 fold_left (fun dates' session =>
                              set_add dates' (datePart (es_date session)))
                           (ex_sessions exercise) dates)
              (exercises data) dates0 in
  let dates2 :=
    fold_left (fun dates session =>
                 if truthy_bool (isDwarfWorkout session)
                    && truthy_string (endTime session)
                 then set_add dates (datePart (startTime session))
                 else dates)
              (workoutSessions data) dates1 in
  array_sort dates2.

Definition getTotalWorkouts (data : WorkoutData) : nat :=
  List.length (getUniqueWorkoutDates data).

Definition getLastWorkoutDate (data : WorkoutData) : option string :=
  let dates := getUniqueWorkoutDates data in
  if Nat.eqb (List.length dates) 0 then None
  else nth_error dates (List.length dates - 1).

Definition getMuscleGroupOrder (exerciseId category sessionDate : string)
    (workoutSessions_ : list WorkoutSession) (allExercises : list Exercise)
  : option nat :=
  let datePart_ := datePart sessionDate in
  let fallback :=
    let sameCategoryExercises :=
      filter (fun ex =>
                String.eqb (ex_category ex) category
                && existsb (fun s =>
                              String.eqb (datePart (es_date s)) datePart_
                              && Nat.ltb 0 (List.length (es_sets s)))
                           (ex_sessions ex))
             allExercises in
    match findIndex (fun ex => String.eqb (ex_id ex) exerciseId)
                    sameCategoryExercises with
    | None => None
    | Some index => Some (index + 1)
    end in
  match find (fun ws =>
                String.eqb (datePart (startTime ws)) datePart_
                && includes (exerciseIds ws) exerciseId)
             workoutSessions_ with
  | Some workoutSession =>
      let sameCategory :=
        filter (fun id =>
                  match find (fun e => String.eqb (ex_id e) id) allExercises with
                  | Some ex => String.eqb (ex_category ex) category
                  | None => false
                  end)
               (exerciseIds workoutSession) in
      match findIndex (String.eqb exerciseId) sameCategory with
      | Some index => Some (index + 1)
      | None => fallback
      end
  | None => fallback
  end.

Definition getCategories (data : WorkoutData) : list string :=
  let categories :=
    fold_left (fun cats exercise => set_add cats (ex_category exercise))
              (exercises data) [] in
  array_sort categories.

Definition getExercisesByCategory (data : WorkoutData) (category : string)
  : list Exercise :=
  filter (fun e => String.eqb (ex_category e) category) (exercises data).

(** [find(...) || null]: a session object is truthy, so the result is the
    session found, or [None] for [null]. *)
Definition getActiveWorkoutSession (data : WorkoutData)
  : option WorkoutSession :=
  find (fun s => negb (truthy_string (endTime s))) (workoutSessions data).

(** [getExerciseMaxWeight] is the one derivation that computes on
    numbers: it needs the number [0] and the comparison [a > b]. *)
Section Weights.

Variable number_zero : number.
Variable number_gt : number -> number -> bool.

Definition getExerciseMaxWeight (exercise : Exercise) : number :=
  fold_left (fun max session =>
               fold_left (fun max' set =>
                            if number_gt (weight set) max' then weight set
                            else max')
                         (es_sets session) max)
            (ex_sessions exercise) number_zero.

End Weights.

(** ** Views ([components/WorkoutDetail.tsx], [components/Workout.tsx]) *)

(** [arr.filter(item => item !== null)] on an array of items or [null]. *)
Fixpoint filter_not_null (A : Type) (l : list (option A)) : list A :=
  match l with
  | [] => []
  | None :: rest => filter_not_null rest
  | Some x :: rest => x :: filter_not_null rest
  end.

(** The rows of the detail view of a workout: [{ exercise, session }]. *)
Definition exercisesWithSessions (workoutSession : WorkoutSession)
    (exercises_ : list Exercise) : list (Exercise * ExerciseSession) :=
  let sessionDateStr := datePart (startTime workoutSession) in
  filter_not_null
    (map (fun id =>
            match find (fun e => String.eqb (ex_id e) id) exercises_ with
            | None => None
            | Some exercise =>
                match find (fun s =>
                              String.eqb (datePart (es_date s)) sessionDateStr)
                           (ex_sessions exercise) with
                | None => None
                | Some session =>
                    if Nat.eqb (List.length (es_sets session)) 0 then None
                    else Some (exercise, session)
                end
            end)
         (exerciseIds workoutSession)).

(** The exercises a past-workout card lists: [find] gives [undefined]
    for an id with no exercise, which the filter drops. *)
Definition exercisesWithSets (session : WorkoutSession) (data : WorkoutData)
  : list Exercise :=
  let sessionDateStr := datePart (startTime session) in
  filter_not_null
    (filter (fun exercise =>
               match exercise with
               | None => false
               | Some exercise =>
                   match find (fun s =>
                                 String.eqb (datePart (es_date s)) sessionDateStr)
                              (ex_sessions exercise) with
                   | None => false
                   | Some sessionData =>
                       Nat.ltb 0 (List.length (es_sets sessionData))
                   end
               end)
            (map (fun id => find (fun e => String.eqb (ex_id e) id)
                                 (exercises data))
                 (exerciseIds session))).

(** *** Weeks and the streak

    [localTZA t isUTC] is the host's offset of local time from UTC in
    milliseconds, the operation LocalTZA of the language standard: at
    the UTC time [t] when [isUTC] is [true], at the local time [t]
    otherwise. It changes with [t] where daylight saving does.
    [Date_parse] is [new Date(str)], whose accepted formats beyond the ISO
    ones are left to the host. *)

Section Clock.

Variable localTZA : Z -> bool -> Z.
Variable Date_parse : string -> Date.

(** The standard's LocalTime, UTC and Day. *)
Definition LocalTime (t : Z) : Z := (t + localTZA t true)%Z.
Definition UTC (t : Z) : Z := (t - localTZA t false)%Z.
Definition Day (t : Z) : Z := (t / msPerDay)%Z.

(** [d.setHours(0, 0, 0, 0)]: the first millisecond of the local day of
    [d], taken back to UTC. *)
Definition setHours0 (d : Date) : Date :=
  match d with
  | None => None
  | Some t => TimeClip (UTC (Day (LocalTime t) * msPerDay))
  end.

(** [d.getDay()]: local day of the week, Sunday = 0 ([None] for NaN). *)
Definition getDay (d : Date) : option Z :=
  match d with
  | None => None
  | Some t => Some ((Day (LocalTime t) + 4) mod 7)%Z
  end.

(** [d.setDate(d.getDate() + k)]: the local time moved by [k] calendar
    days, with the same time of day, taken back to UTC. *)
Definition addDays (d : Date) (k : Z) : Date :=
  match d with
  | None => None
  | Some t => TimeClip (UTC (LocalTime t + k * msPerDay))
  end.

Definition getWeekStart (date : Date) : Date :=
  let d := setHours0 date in
  match getDay d with
  | None => None
  | Some day =>
      let diff := (if day =? 0 then -6 else 1 - day)%Z in
      addDays d diff
  end.

(** [None] when [toISOString] throws a [RangeError] (Invalid Date). *)
Definition getWeekKey (date : Date) : option string :=
  match getWeekStart date with
  | None => None
  | Some t => Some (datePart (toISOString t))
  end.

(** The set built by the first loop of [getCurrentStreak]. *)
Fixpoint weeksWithWorkouts_from (dates : list string) (acc : list string)
  : option (list string) :=
  match dates with
  | [] => Some acc
  | dateStr :: rest =>
      match getWeekKey (Date_parse dateStr) with
      | None => None
      | Some k => weeksWithWorkouts_from rest (set_add acc k)
      end
  end.

(** The [for (let i = 0; i < 52; i++)] loop, with [n = 52 - i] iterations
    left. *)
Fixpoint streak_loop (weeksWithWorkouts : list string) (n i : nat)
    (checkDate : Date) (streak : nat) : option nat :=
  match n with
  | O => Some streak
  | S n' =>
      match getWeekKey checkDate with
      | None => None
      | Some weekKey =>
          if includes weeksWithWorkouts weekKey
          then streak_loop weeksWithWorkouts n' (S i)
                 (addDays checkDate (-7)) (S streak)
          else if Nat.eqb i 0
          then streak_loop weeksWithWorkouts n' (S i)
                 (addDays checkDate (-7)) streak
          else Some streak
      end
  end.

(** [checkDate] when iteration [j] of the loop starts. *)
Definition checkDate_at (today : Date) (j : nat) : Date :=
  Nat.iter j (fun c => addDays c (-7)) today.

(** [now] is the time value of [new Date()]; the result is [None] when
    the call throws. *)
Definition getCurrentStreak (now : Z) (data : WorkoutData) : option nat :=
  let dates := getUniqueWorkoutDates data in
  if Nat.eqb (List.length dates) 0 then Some 0
  else
    match weeksWithWorkouts_from dates [] with
    | None => None
    | Some weeksWithWorkouts =>
        let today := TimeClip now in
        streak_loop weeksWithWorkouts 52 0 today 0
    end.

(** The week [getWorkoutsThisWeek] counts from:
    [setDate(now.getDate() - now.getDay())], then
    [setHours(0, 0, 0, 0)]. *)
Definition startOfWeek (now : Z) : Date :=
  let now_ := TimeClip now in
  match getDay now_ with
  | None => None
  | Some day => setHours0 (addDays now_ (- day))
  end.

(** [a >= b] on [Date] objects compares the time values; with a [NaN]
    it is false. *)
Definition date_ge (a b : Date) : bool :=
  match a, b with
  | Some x, Some y => (y <=? x)%Z
  | _, _ => false
  end.

Definition getWorkoutsThisWeek (now : Z) (data : WorkoutData) : nat :=
  let startOfWeek_ := startOfWeek now in
  let dates := getUniqueWorkoutDates data in
  List.length
    (filter (fun dateStr => date_ge (Date_parse dateStr) startOfWeek_) dates).

(** *** Per-exercise history *)

(** [new Date(b.date).getTime() - new Date(a.date).getTime()], [None]
    for [NaN]. *)
Definition compare_newest_first (a b : ExerciseSession) : option Z :=
  match Date_parse (es_date b), Date_parse (es_date a) with
  | Some tb, Some ta => Some (tb - ta)%Z
  | _, _ => None
  end.

(** [arr.sort(cmp)] is stable and treats a [NaN] comparison as [0]. It
    is modelled as the stable insertion sort; when the comparator is not
    an ordering (which takes an Invalid Date) the host is free to return
    another permutation. *)
Definition comes_first (a b : ExerciseSession) : bool :=
  match compare_newest_first a b with
  | Some v => (v <=? 0)%Z
  | None => true
  end.

Fixpoint sort_insert_by (x : ExerciseSession) (l : list ExerciseSession)
  : list ExerciseSession :=
  match l with
  | [] => [x]
  | y :: rest =>
      if comes_first x y then x :: l else y :: sort_insert_by x rest
  end.

Definition sort_newest_first (l : list ExerciseSession)
  : list ExerciseSession :=
  fold_right sort_insert_by [] l.

(** [getExerciseLastSession(exercise)]: [sort] works in place on
    [exercise.sessions], so the call returns its result together with the
    state the exercise object is left in. *)
Definition getExerciseLastSession (exercise : Exercise)
  : option ExerciseSession * Exercise :=
  if Nat.eqb (List.length (ex_sessions exercise)) 0 then (None, exercise)
  else
    let sorted := sort_newest_first (ex_sessions exercise) in
    (nth_error sorted 0, with_sessions exercise sorted).

(** [filter] allocates a new array, which is the one sorted. *)
Definition getExercisePreviousSession (now : Z) (exercise : Exercise)
  : option ExerciseSession * Exercise :=
  let todayDateStr := datePart (toISOString now) in
  let sorted :=
    sort_newest_first
      (filter (fun s => negb (String.eqb (datePart (es_date s)) todayDateStr))
              (ex_sessions exercise)) in
  (nth_error sorted 0, exercise).

(** [count] is a non-negative integer. *)
Definition getExercisePreviousSessions (now : Z) (exercise : Exercise)
    (count : nat) : list ExerciseSession * Exercise :=
  let todayDateStr := datePart (toISOString now) in
  (firstn count
     (sort_newest_first
        (filter (fun s => negb (String.eqb (datePart (es_date s)) todayDateStr))
                (ex_sessions exercise))),
   exercise).

(** The snapshot after [getExerciseLastSession(data.exercises[i])]: the
    exercise object is the one the snapshot holds. *)
Definition snapshot_after_getExerciseLastSession (data : WorkoutData)
    (i : nat) : WorkoutData :=
  match nth_error (exercises data) i with
  | None => data
  | Some exercise =>
      mkWorkoutData
        (array_set (exercises data) i (snd (getExerciseLastSession exercise)))
        (workoutSessions data)
  end.

End Clock.

(** ** JSON values and import/export ([utils/storage.ts])

    [exportData] and [importData] call the built-in [JSON.stringify] and
    [JSON.parse]; both are written out here after the language standard
    (SerializeJSONProperty with a gap of two spaces, and the JSON
    grammar), the conversion between numbers and their decimal text being
    left to the host.

    A [JSValue] is what [JSON.parse] returns, before any TypeScript type
    is asserted of it. An object is the list of its properties in
    insertion order (the reordering JavaScript applies to array-index
    keys is not modelled; no field name of the data model is one). Texts
    are sequences of character codes below 256: a [\u] escape above that
    range is outside the model and the text is rejected. *)

Section Json.

(** [Number::toString], the numeric value of a JSON number lexeme,
    finiteness and truthiness of a number: the host's. *)
Variable Number_toString : number -> string.
Variable Number_ofString : string -> number.
Variable number_isFinite : number -> bool.
Variable number_truthy : number -> bool.

#[warnings="-register-all"]
Inductive JSValue : Type :=
| JNull
| JBool (b : bool)
| JNumber (n : number)
| JString (s : string)
| JArray (items : list JSValue)
| JObject (fields : list (string * JSValue)).

(** *** JSON.stringify(value, null, 2) *)

Definition hex_digit (n : nat) : ascii :=
  if (n <? 10)%nat then ascii_of_nat (48 + n) else ascii_of_nat (87 + n).

Definition quote_char (c : ascii) : list ascii :=
  let n := nat_of_ascii c in
  if (n =? 34)%nat then ["\"; "034"]%char
  else if (n =? 92)%nat then ["\"; "\"]%char
  else if (n =? 8)%nat then ["\"; "b"]%char
  else if (n =? 9)%nat then ["\"; "t"]%char
  else if (n =? 10)%nat then ["\"; "n"]%char
  else if (n =? 12)%nat then ["\"; "f"]%char
  else if (n =? 13)%nat then ["\"; "r"]%char
  else if (n <? 32)%nat
       then ["\"; "u"; "0"; "0"]%char ++ [hex_digit (n / 16); hex_digit (n mod 16)]
  else [c].

Definition QuoteJSONString (s : string) : list ascii :=
  "034"%char :: flat_map quote_char (list_ascii_of_string s) ++ ["034"%char].

Definition gap : list ascii := [" "; " "]%char.

(** [parts.join(sep)] followed by [close]. *)
Fixpoint join_parts (sep close : list ascii) (parts : list (list ascii))
  : list ascii :=
  match parts with
  | [] => close
  | [p] => p ++ close
  | p :: rest => p ++ sep ++ join_parts sep close rest
  end.

Fixpoint SerializeJSONProperty (indent : list ascii) (v : JSValue)
  : list ascii :=
  match v with
  | JNull => list_ascii_of_string "null"
  | JBool true => list_ascii_of_string "true"
  | JBool false => list_ascii_of_string "false"
  | JNumber n =>
      if number_isFinite n then list_ascii_of_string (Number_toString n)
      else list_ascii_of_string "null"
  | JString s => QuoteJSONString s
  | JArray [] => list_ascii_of_string "[]"
  | JArray items =>
      let stepback := indent in
      let indent := indent ++ gap in
      let separator := ","%char :: "010"%char :: indent in
      "["%char :: "010"%char :: indent
        ++ join_parts separator ("010"%char :: stepback ++ ["]"%char])
             (map (SerializeJSONProperty indent) items)
  | JObject [] => list_ascii_of_string "{}"
  | JObject fields =>
      let stepback := indent in
      let indent := indent ++ gap in
      let separator := ","%char :: "010"%char :: indent in
      "{"%char :: "010"%char :: indent
        ++ join_parts separator ("010"%char :: stepback ++ ["}"%char])
             (map (fun kv =>
                     match kv with
                     | (k, x) =>
                         QuoteJSONString k ++ [":"; " "]%char
                           ++ SerializeJSONProperty indent x
                     end)
                  fields)
  end.

Definition JSON_stringify (v : JSValue) : string :=
  string_of_list_ascii (SerializeJSONProperty [] v).

(** *** JSON.parse(text) *)

Definition is_ws (c : ascii) : bool :=
  let n := nat_of_ascii c in
  (n =? 32)%nat || (n =? 9)%nat || (n =? 10)%nat || (n =? 13)%nat.

Fixpoint skip_ws (s : list ascii) : list ascii :=
  match s with
  | c :: rest => if is_ws c then skip_ws rest else s
  | [] => []
  end.

Definition hex_value (c : ascii) : option nat :=
  let n := nat_of_ascii c in
  if (48 <=? n)%nat && (n <=? 57)%nat then Some (n - 48)
  else if (97 <=? n)%nat && (n <=? 102)%nat then Some (n - 87)
  else if (65 <=? n)%nat && (n <=? 70)%nat then Some (n - 55)
  else None.

(** The characters of a string literal after its opening quote, up to
    the closing one; [acc] holds the characters read, last first. *)
Fixpoint parse_string_body (s : list ascii) (acc : list ascii)
  : option (string * list ascii) :=
  match s with
  | [] => None
  | c :: rest =>
      if Ascii.eqb c "034" then Some (string_of_list_ascii (rev acc), rest)
      else if Ascii.eqb c "\" then
        match rest with
        | [] => None
        | e :: rest' =>
            if Ascii.eqb e "034" then parse_string_body rest' ("034"%char :: acc)
            else if Ascii.eqb e "\" then parse_string_body rest' ("\"%char :: acc)
            else if Ascii.eqb e "/" then parse_string_body rest' ("/"%char :: acc)
            else if Ascii.eqb e "b" then parse_string_body rest' ("008"%char :: acc)
            else if Ascii.eqb e "f" then parse_string_body rest' ("012"%char :: acc)
            else if Ascii.eqb e "n" then parse_string_body rest' ("010"%char :: acc)
            else if Ascii.eqb e "r" then parse_string_body rest' ("013"%char :: acc)
            else if Ascii.eqb e "t" then parse_string_body rest' ("009"%char :: acc)
            else if Ascii.eqb e "u" then
              match rest' with
              | h1 :: h2 :: h3 :: h4 :: rest'' =>
                  match hex_value h1, hex_value h2, hex_value h3, hex_value h4 with
                  | Some a, Some b, Some c', Some d =>
                      let code := (4096 * a + 256 * b + 16 * c' + d)%nat in
                      if (code <? 256)%nat
                      then parse_string_body rest'' (ascii_of_nat code :: acc)
                      else None
                  | _, _, _, _ => None
                  end
              | _ => None
              end
            else None
        end
      else if (nat_of_ascii c <? 32)%nat then None
      else parse_string_body rest (c :: acc)
  end.

Definition is_digit (c : ascii) : bool :=
  let n := nat_of_ascii c in (48 <=? n)%nat && (n <=? 57)%nat.

Definition is_number_char (c : ascii) : bool :=
  is_digit c || Ascii.eqb c "-" || Ascii.eqb c "+" || Ascii.eqb c "."
  || Ascii.eqb c "e" || Ascii.eqb c "E".

(** The longest run of characters a number lexeme can be made of. *)
Fixpoint take_number (s : list ascii) : list ascii * list ascii :=
  match s with
  | c :: rest =>
      if is_number_char c
      then let (run, rest') := take_number rest in (c :: run, rest')
      else ([], s)
  | [] => ([], [])
  end.

(** The JSON number grammar: an optional minus sign; then a single zero
    or a non-zero digit followed by digits; then optionally a dot and at
    least one digit; then optionally an exponent mark, an optional sign
    and at least one digit. *)
Inductive number_state : Type :=
| NStart | NMinus | NZero | NInt | NDot | NFrac | NExp | NExpSign | NExpDigits.

Definition number_step (st : number_state) (c : ascii) : option number_state :=
  match st with
  | NStart =>
      if Ascii.eqb c "-" then Some NMinus
      else if Ascii.eqb c "0" then Some NZero
      else if is_digit c then Some NInt else None
  | NMinus =>
      if Ascii.eqb c "0" then Some NZero
      else if is_digit c then Some NInt else None
  | NZero =>
      if Ascii.eqb c "." then Some NDot
      else if Ascii.eqb c "e" || Ascii.eqb c "E" then Some NExp else None
  | NInt =>
      if is_digit c then Some NInt
      else if Ascii.eqb c "." then Some NDot
      else if Ascii.eqb c "e" || Ascii.eqb c "E" then Some NExp else None
  | NDot => if is_digit c then Some NFrac else None
  | NFrac =>
      if is_digit c then Some NFrac
      else if Ascii.eqb c "e" || Ascii.eqb c "E" then Some NExp else None
  | NExp =>
      if Ascii.eqb c "+" || Ascii.eqb c "-" then Some NExpSign
      else if is_digit c then Some NExpDigits else None
  | NExpSign => if is_digit c then Some NExpDigits else None
  | NExpDigits => if is_digit c then Some NExpDigits else None
  end.

Definition number_final (st : number_state) : bool :=
  match st with
  | NZero | NInt | NFrac | NExpDigits => true
  | _ => false
  end.

Fixpoint number_run (st : number_state) (s : list ascii) : bool :=
  match s with
  | [] => number_final st
  | c :: rest =>
      match number_step st c with
      | Some st' => number_run st' rest
      | None => false
      end
  end.

Definition is_json_number (s : list ascii) : bool := number_run NStart s.

Definition parse_number (s : list ascii) : option (JSValue * list ascii) :=
  let (run, rest) := take_number s in
  if is_json_number run
  then Some (JNumber (Number_ofString (string_of_list_ascii run)), rest)
  else None.

(** Defining a property: a repeated key keeps its place and takes the
    new value. *)
Fixpoint define_property (fields : list (string * JSValue)) (k : string)
    (v : JSValue) : list (string * JSValue) :=
  match fields with
  | [] => [(k, v)]
  | (k', v') :: rest =>
      if String.eqb k' k then (k', v) :: rest
      else (k', v') :: define_property rest k v
  end.

(** [s] without the prefix [lit], if it starts with it. *)
Fixpoint expect (lit s : list ascii) : option (list ascii) :=
  match lit, s with
  | [], _ => Some s
  | l :: lit', c :: rest => if Ascii.eqb c l then expect lit' rest else None
  | _ :: _, [] => None
  end.

(** A text is followed by something that cannot extend a number. *)
Definition no_number_start (rest : list ascii) : Prop :=
  match rest with
  | [] => True
  | c :: _ => is_number_char c = false
  end.

(** Recursive descent; [fuel] bounds the nesting of calls. *)
Fixpoint parse_value (fuel : nat) (s : list ascii)
  : option (JSValue * list ascii) :=
  match fuel with
  | O => None
  | S fuel' =>
      match skip_ws s with
      | [] => None
      | c :: rest =>
          if Ascii.eqb c "n" then
            match expect ["u"; "l"; "l"]%char rest with
            | Some rest' => Some (JNull, rest')
            | None => None
            end
          else if Ascii.eqb c "t" then
            match expect ["r"; "u"; "e"]%char rest with
            | Some rest' => Some (JBool true, rest')
            | None => None
            end
          else if Ascii.eqb c "f" then
            match expect ["a"; "l"; "s"; "e"]%char rest with
            | Some rest' => Some (JBool false, rest')
            | None => None
            end
          else if Ascii.eqb c "034" then
            match parse_string_body rest [] with
            | Some (str, rest') => Some (JString str, rest')
            | None => None
            end
          else if Ascii.eqb c "[" then
            match skip_ws rest with
            | c' :: rest' =>
                if Ascii.eqb c' "]" then Some (JArray [], rest')
                else parse_elements fuel' rest []
            | [] => None
            end
          else if Ascii.eqb c "{" then
            match skip_ws rest with
            | c' :: rest' =>
                if Ascii.eqb c' "}" then Some (JObject [], rest')
                else parse_members fuel' rest []
            | [] => None
            end
          else if Ascii.eqb c "-" || is_digit c then parse_number (c :: rest)
          else None
      end
  end

with parse_elements (fuel : nat) (s : list ascii) (acc : list JSValue)
  : option (JSValue * list ascii) :=
  match fuel with
  | O => None
  | S fuel' =>
      match parse_value fuel' s with
      | None => None
      | Some (v, rest) =>
          match skip_ws rest with
          | (c :: rest') =>
              if Ascii.eqb c "," then parse_elements fuel' rest' (acc ++ [v])
              else if Ascii.eqb c "]" then Some (JArray (acc ++ [v]), rest')
              else None
          | [] => None
          end
      end
  end

with parse_members (fuel : nat) (s : list ascii)
       (acc : list (string * JSValue)) : option (JSValue * list ascii) :=
  match fuel with
  | O => None
  | S fuel' =>
      match skip_ws s with
      | c :: rest =>
          if Ascii.eqb c "034" then
            match parse_string_body rest [] with
            | None => None
            | Some (k, rest1) =>
                match skip_ws rest1 with
                | c1 :: rest2 =>
                    if Ascii.eqb c1 ":" then
                      match parse_value fuel' rest2 with
                      | None => None
                      | Some (v, rest3) =>
                          match skip_ws rest3 with
                          | c3 :: rest4 =>
                              if Ascii.eqb c3 ","
                              then parse_members fuel' rest4
                                     (define_property acc k v)
                              else if Ascii.eqb c3 "}"
                              then Some (JObject (define_property acc k v), rest4)
                              else None
                          | [] => None
                          end
                      end
                    else None
                | [] => None
                end
            end
          else None
      | [] => None
      end
  end.

(** [None] stands for the [SyntaxError] thrown. *)
Definition JSON_parse (text : string) : option JSValue :=
  let s := list_ascii_of_string text in
  match parse_value (S (List.length s)) s with
  | Some (v, rest) =>
      match skip_ws rest with
      | [] => Some v
      | _ :: _ => None
      end
  | None => None
  end.

(** *** Reading a parsed value *)

(** [v[k]] for a property name that no built-in prototype defines:
    [None] is [undefined]. On [null] the access throws, which the callers
    below guard against or report. *)
Definition get_property (v : JSValue) (k : string) : option JSValue :=
  match v with
  | JObject fields =>
      match find (fun kv => String.eqb (fst kv) k) fields with
      | Some kv => Some (snd kv)
      | None => None
      end
  | _ => None
  end.

Definition js_truthy (v : JSValue) : bool :=
  match v with
  | JNull => false
  | JBool b => b
  | JNumber n => number_truthy n
  | JString s => negb (String.eqb s "")
  | JArray _ => true
  | JObject _ => true
  end.

(** [Array.isArray(x)], [x] possibly [undefined]. *)
Definition isArray (x : option JSValue) : bool :=
  match x with
  | Some (JArray _) => true
  | _ => false
  end.

(** The JSON text [exportData] hands to the clipboard or to the
    download; [data] is the snapshot as a JavaScript value. *)
Definition exportData (data : JSValue) : string := JSON_stringify data.

(** [importData(json)]: [None] is [null]. The cast [data as WorkoutData]
    does nothing at run time. *)
Definition importData (json : string) : option JSValue :=
  match JSON_parse json with
  | None => None
  | Some data =>
      if js_truthy data && isArray (get_property data "exercises")
      then Some data
      else None
  end.

(** *** JSON.stringify(value), loadData and saveData *)

(** Without the third argument the gap is empty: nothing is put between
    the tokens. *)
Fixpoint SerializeJSONProperty_compact (v : JSValue) : list ascii :=
  match v with
  | JNull => list_ascii_of_string "null"
  | JBool true => list_ascii_of_string "true"
  | JBool false => list_ascii_of_string "false"
  | JNumber n =>
      if number_isFinite n then list_ascii_of_string (Number_toString n)
      else list_ascii_of_string "null"
  | JString s => QuoteJSONString s
  | JArray [] => list_ascii_of_string "[]"
  | JArray items =>
      "["%char
        :: join_parts [","%char] ["]"%char]
             (map SerializeJSONProperty_compact items)
  | JObject [] => list_ascii_of_string "{}"
  | JObject fields =>
      "{"%char
        :: join_parts [","%char] ["}"%char]
             (map (fun kv =>
                     match kv with
                     | (k, x) =>
                         QuoteJSONString k ++ [":"%char]
                           ++ SerializeJSONProperty_compact x
                     end)
                  fields)
  end.

Definition JSON_stringify_compact (v : JSValue) : string :=
  string_of_list_ascii (SerializeJSONProperty_compact v).

(** [localStorage] is reduced to the item kept under the key of the
    application: [None] when there is none ([getItem] returns [null]).
    [setItem] throws when the quota is exceeded, which [saveData]
    catches: [writable] tells whether the write goes through. *)
Definition saveData (writable : bool) (data : JSValue)
    (storage : option string) : option string :=
  if writable then Some (JSON_stringify_compact data) else storage.

(** [loadData()] returns the snapshot together with the storage it
    leaves. [bootstrapData] is the value the module [data/bootstrap]
    exports. What [JSON.parse] returns is returned as it is. *)
Definition loadData (bootstrapData : JSValue) (writable : bool)
    (storage : option string) : JSValue * option string :=
  let first_load :=
    (bootstrapData, saveData writable bootstrapData storage) in
  match storage with
  | Some stored =>
      if negb (String.eqb stored "") then
        match JSON_parse stored with
        | Some data => (data, storage)
        | None => first_load
        end
      else first_load
  | None => first_load
  end.

(** *** Snapshots as JavaScript values *)

(** The value a snapshot of the data model is at run time; an optional
    field that is not set is left out. *)
Definition Set_toJS (st : WSet) : JSValue :=
  JObject [("reps", JNumber (reps st)); ("weight", JNumber (weight st))].

Definition ExerciseSession_toJS (es : ExerciseSession) : JSValue :=
  JObject [("id", JString (es_id es)); ("date", JString (es_date es));
           ("sets", JArray (map Set_toJS (es_sets es)))].

Definition Exercise_toJS (e : Exercise) : JSValue :=
  JObject [("id", JString (ex_id e)); ("name", JString (ex_name e));
           ("category", JString (ex_category e));
           ("sessions", JArray (map ExerciseSession_toJS (ex_sessions e)))].

Definition optional_field (k : string) (o : option JSValue)
  : list (string * JSValue) :=
  match o with
  | Some v => [(k, v)]
  | None => []
  end.

Definition WorkoutSession_toJS (ws : WorkoutSession) : JSValue :=
  JObject ([("id", JString (ws_id ws)); ("startTime", JString (startTime ws))]
             ++ optional_field "endTime" (option_map JString (endTime ws))
             ++ [("exerciseIds", JArray (map JString (exerciseIds ws)))]
             ++ optional_field "isDwarfWorkout"
                  (option_map JBool (isDwarfWorkout ws))).

Definition WorkoutData_toJS (data : WorkoutData) : JSValue :=
  JObject [("exercises", JArray (map Exercise_toJS (exercises data)));
           ("workoutSessions",
            JArray (map WorkoutSession_toJS (workoutSessions data)))].

(** Reading a value back at the declared types: [None] when the value
    does not have the shape of the type. *)
Fixpoint map_option (A B : Type) (f : A -> option B) (l : list A)
  : option (list B) :=
  match l with
  | [] => Some []
  | x :: rest =>
      match f x, map_option f rest with
      | Some y, Some ys => Some (y :: ys)
      | _, _ => None
      end
  end.

Definition as_string (v : JSValue) : option string :=
  match v with
  | JString str => Some str
  | _ => None
  end.

Definition Set_ofJS (v : JSValue) : option WSet :=
  match get_property v "reps", get_property v "weight" with
  | Some (JNumber r), Some (JNumber w) => Some (mkSet r w)
  | _, _ => None
  end.

Definition ExerciseSession_ofJS (v : JSValue) : option ExerciseSession :=
  match get_property v "id", get_property v "date", get_property v "sets" with
  | Some (JString i), Some (JString d), Some (JArray sets) =>
      match map_option Set_ofJS sets with
      | Some l => Some (mkExerciseSession i d l)
      | None => None
      end
  | _, _, _ => None
  end.

Definition Exercise_ofJS (v : JSValue) : option Exercise :=
  match get_property v "id", get_property v "name",
        get_property v "category", get_property v "sessions" with
  | Some (JString i), Some (JString n), Some (JString c), Some (JArray l) =>
      match map_option ExerciseSession_ofJS l with
      | Some sessions => Some (mkExercise i n c sessions)
      | None => None
      end
  | _, _, _, _ => None
  end.

Definition WorkoutSession_ofJS (v : JSValue) : option WorkoutSession :=
  match get_property v "id", get_property v "startTime",
        get_property v "exerciseIds" with
  | Some (JString i), Some (JString st), Some (JArray ids) =>
      match map_option as_string ids with
      | Some l =>
          match get_property v "endTime", get_property v "isDwarfWorkout" with
          | None, None => Some (mkWorkoutSession i st None l None)
          | Some (JString e), None =>
              Some (mkWorkoutSession i st (Some e) l None)
          | None, Some (JBool b) =>
              Some (mkWorkoutSession i st None l (Some b))
          | Some (JString e), Some (JBool b) =>
              Some (mkWorkoutSession i st (Some e) l (Some b))
          | _, _ => None
          end
      | None => None
      end
  | _, _, _ => None
  end.

Definition WorkoutData_ofJS (v : JSValue) : option WorkoutData :=
  match get_property v "exercises", get_property v "workoutSessions" with
  | Some (JArray exs), Some (JArray wss) =>
      match map_option Exercise_ofJS exs, map_option WorkoutSession_ofJS wss with
      | Some l1, Some l2 => Some (mkWorkoutData l1 l2)
      | _, _ => None
      end
  | _, _ => None
  end.

(** The values [JSON.stringify] and [JSON.parse] carry faithfully: every
    number is finite, is written as a JSON number and reads back as
    itself (as any finite number other than the negative zero does), and
    no object has two properties of the same name. *)
Fixpoint json_faithful (v : JSValue) : Prop :=
  match v with
  | JNull | JBool _ | JString _ => True
  | JNumber n =>
      number_isFinite n = true /\
      is_json_number (list_ascii_of_string (Number_toString n)) = true /\
      Number_ofString (Number_toString n) = n
  | JArray items =>
      (fix all (l : list JSValue) : Prop :=
         match l with
         | [] => True
         | x :: rest => json_faithful x /\ all rest
         end) items
  | JObject fields =>
      NoDup (map fst fields) /\
      (fix all (l : list (string * JSValue)) : Prop :=
         match l with
         | [] => True
         | kv :: rest => json_faithful (snd kv) /\ all rest
         end) fields
  end.

Definition number_faithful (n : number) : Prop := json_faithful (JNumber n).

(** A snapshot all of whose numbers are carried faithfully. *)
Definition snapshot_faithful (data : WorkoutData) : Prop :=
  forall e s st,
    In e (exercises data) -> In s (ex_sessions e) -> In st (es_sets s) ->
    number_faithful (reps st) /\ number_faithful (weight st).

(** *** [getUniqueWorkoutDates] on an arbitrary value

    The same statements run on a value as [JSON.parse] returns it;
    [None] is a [TypeError]. *)

(** [v.k]: throws on [null], yields [undefined] for a missing property. *)
Definition js_get (v : JSValue) (k : string) : option (option JSValue) :=
  match v with
  | JNull => None
  | _ => Some (get_property v k)
  end.

(** The values [for (const x of v)] visits: arrays and strings are
    iterable, nothing else that [JSON.parse] returns is. *)
Definition js_iterate (v : option JSValue) : option (list JSValue) :=
  match v with
  | Some (JArray items) => Some items
  | Some (JString str) =>
      Some (map (fun c => JString (String c "")) (list_ascii_of_string str))
  | _ => None
  end.

(** [v.split('T')[0]]: only a string has a [split] method. *)
Definition js_split_head (v : option JSValue) : option string :=
  match v with
  | Some (JString str) => Some (datePart str)
  | _ => None
  end.

Definition js_truthy_opt (v : option JSValue) : bool :=
  match v with
  | Some x => js_truthy x
  | None => false
  end.

Fixpoint fold_throwing (A B : Type) (f : A -> B -> option A) (l : list B)
    (acc : A) : option A :=
  match l with
  | [] => Some acc
  | x :: rest =>
      match f acc x with
      | Some acc' => fold_throwing f rest acc'
      | None => None
      end
  end.

Definition getUniqueWorkoutDates_js (data : JSValue)
  : option (list string) :=
  match js_get data "exercises" with
  | None => None
  | Some exercises_ =>
  match js_iterate exercises_ with
  | None => None
  | Some exs =>
  match fold_throwing
          (fun dates exercise =>
             match js_get exercise "sessions" with
             | None => None
             | Some sessions_ =>
                 match js_iterate sessions_ with
                 | None => None
                 | Some sessions =>
                     fold_throwing
                       (fun dates' session =>
                          match js_get session "date" with
                          | None => None
                          | Some date =>
                              match js_split_head date with
                              | None => None
                              | Some d => Some (set_add dates' d)
                              end
                          end)
                       sessions dates
                 end
             end)
          exs [] with
  | None => None
  | Some dates1 =>
  match js_get data "workoutSessions" with
  | None => None
  | Some workoutSessions_ =>
  match js_iterate workoutSessions_ with
  | None => None
  | Some wss =>
  match fold_throwing
          (fun dates session =>
             match js_get session "isDwarfWorkout" with
             | None => None
             | Some dwarf =>
                 if js_truthy_opt dwarf then
                   match js_get session "endTime" with
                   | None => None
                   | Some et =>
                       if js_truthy_opt et then
                         match js_get session "startTime" with
                         | None => None
                         | Some st =>
                             match js_split_head st with
                             | None => None
                             | Some d => Some (set_add dates d)
                             end
                         end
                       else Some dates
                   end
                 else Some dates
             end)
          wss dates1 with
  | None => None
  | Some dates2 => Some (array_sort dates2)
  end end end end end end.

(** [arr.find(s => !s.endTime)]: [Some None] is [undefined], [None] a
    [TypeError] (the element is [null]). *)
Fixpoint find_active_js (l : list JSValue) : option (option JSValue) :=
  match l with
  | [] => Some None
  | session :: rest =>
      match js_get session "endTime" with
      | None => None
      | Some et =>
          if negb (js_truthy_opt et) then Some (Some session)
          else find_active_js rest
      end
  end.

(** [data.workoutSessions.find(s => !s.endTime) || null]: only an array
    has a [find] method; an element found that is falsy gives [null] as
    well. [Some None] is [null]. *)
Definition getActiveWorkoutSession_js (data : JSValue)
  : option (option JSValue) :=
  match js_get data "workoutSessions" with
  | Some (Some (JArray wss)) =>
      match find_active_js wss with
      | Some (Some session) =>
          if js_truthy session then Some (Some session) else Some None
      | found => found
      end
  | _ => None
  end.

End Json.

End Model.

Arguments JNull {number}.
Arguments JBool {number} b.
Arguments JString {number} s.


(** * A host date parser

    [new Date(str)] for the two ISO forms the application produces: the
    date-only form [YYYY-MM-DD] (UTC midnight) and the form written by
    [toISOString]. Any other text is an Invalid Date here. *)

Definition digit_value (c : ascii) : option Z :=
  let n := nat_of_ascii c in
  if (48 <=? n)%nat && (n <=? 57)%nat then Some (Z.of_nat (n - 48)) else None.

Fixpoint digits_value (l : list ascii) (acc : Z) : option Z :=
  match l with
  | [] => Some acc
  | c :: rest =>
      match digit_value c with
      | Some d => digits_value rest (10 * acc + d)%Z
      | None => None
      end
  end.

Definition days_from_civil (y m d : Z) : Z :=
  let y' := (if m <=? 2 then y - 1 else y)%Z in
  let era := (y' / 400)%Z in
  let yoe := (y' - era * 400)%Z in
  let mp := (if m <=? 2 then m + 9 else m - 3)%Z in
  let doy := ((153 * mp + 2) / 5 + d - 1)%Z in
  let doe := (yoe * 365 + yoe / 4 - yoe / 100 + doy)%Z in
  (era * 146097 + doe - 719468)%Z.

Definition is_leap_year (y : Z) : bool :=
  ((y mod 4 =? 0) && (negb (y mod 100 =? 0) || (y mod 400 =? 0)))%Z.

Definition days_in_month (y m : Z) : Z :=
  (if m =? 2 then (if is_leap_year y then 29 else 28)
   else if (m =? 4) || (m =? 6) || (m =? 9) || (m =? 11) then 30
   else 31)%Z.

Definition make_time (y m d h mi sec ms : Z) : Date :=
  if ((1 <=? m) && (m <=? 12) && (1 <=? d) && (d <=? days_in_month y m)
      && (h <=? 23) && (mi <=? 59) && (sec <=? 59))%Z
  then TimeClip (days_from_civil y m d * msPerDay
                 + h * 3600000 + mi * 60000 + sec * 1000 + ms)%Z
  else None.

Definition Date_parse_iso (str : string) : Date :=
  match list_ascii_of_string str with
  | [y1; y2; y3; y4; "-"; m1; m2; "-"; d1; d2]%char =>
      match digits_value [y1; y2; y3; y4] 0, digits_value [m1; m2] 0,
            digits_value [d1; d2] 0 with
      | Some y, Some m, Some d => make_time y m d 0 0 0 0
      | _, _, _ => None
      end
  | [y1; y2; y3; y4; "-"; m1; m2; "-"; d1; d2; "T"; h1; h2; ":"; i1; i2; ":";
     s1; s2; "."; f1; f2; f3; "Z"]%char =>
      match digits_value [y1; y2; y3; y4] 0, digits_value [m1; m2] 0,
            digits_value [d1; d2] 0, digits_value [h1; h2] 0,
            digits_value [i1; i2] 0, digits_value [s1; s2] 0,
            digits_value [f1; f2; f3] 0 with
      | Some y, Some m, Some d, Some h, Some mi, Some sec, Some ms =>
          make_time y m d h mi sec ms
      | _, _, _, _, _, _, _ => None
      end
  | _ => None
  end.

(** * Sample snapshots

    Concrete snapshots (numbers taken in [Z]) on which the statements
    below are exercised. *)

Definition bench_monday : ExerciseSession Z :=
  mkExerciseSession "s1" "2024-01-15T10:00:00.000Z" [mkSet 10%Z 60%Z; mkSet 8%Z 65%Z].
Definition bench_earlier : ExerciseSession Z :=
  mkExerciseSession "s2" "2024-01-08T09:00:00.000Z" [mkSet 5%Z 70%Z].
Definition press_monday : ExerciseSession Z :=
  mkExerciseSession "s3" "2024-01-15T10:20:00.000Z" [mkSet 8%Z 40%Z].
Definition row_monday : ExerciseSession Z :=
  mkExerciseSession "s4" "2024-01-15T18:00:00.000Z" [mkSet 10%Z 50%Z].

Definition bench : Exercise Z :=
  mkExercise "A" "Bench press" "Push" [bench_earlier; bench_monday].
Definition press : Exercise Z :=
  mkExercise "B" "Overhead press" "Push" [press_monday].
Definition row : Exercise Z :=
  mkExercise "C" "Barbell row" "Pull" [row_monday].

Definition push_workout : WorkoutSession :=
  mkWorkoutSession "w1" "2024-01-15T09:55:00.000Z"
    (Some "2024-01-15T10:45:00.000Z") ["A"; "B"] None.
Definition earlier_workout : WorkoutSession :=
  mkWorkoutSession "w0" "2024-01-08T08:50:00.000Z"
    (Some "2024-01-08T09:30:00.000Z") ["A"] None.

Definition sample_data : WorkoutData Z :=
  mkWorkoutData [bench; press; row] [earlier_workout; push_workout].

(** An exercise holding a session with one set next to a session with
    none. *)
Definition lone_set_session : ExerciseSession Z :=
  mkExerciseSession "s5" "2024-01-16T10:00:00.000Z" [mkSet 5%Z 80%Z].
Definition empty_session : ExerciseSession Z :=
  mkExerciseSession "s6" "2024-01-17T10:00:00.000Z" [].
Definition deadlift : Exercise Z :=
  mkExercise "D" "Deadlift" "Pull" [lone_set_session; empty_session].
Definition stale_data : WorkoutData Z := mkWorkoutData [deadlift] [].

(** An exercise with two one-set sessions, of different days, that carry
    the same id. *)
Definition twin_first : ExerciseSession Z :=
  mkExerciseSession "s7" "2024-01-18T10:00:00.000Z" [mkSet 5%Z 90%Z].
Definition twin_second : ExerciseSession Z :=
  mkExerciseSession "s7" "2024-01-19T10:00:00.000Z" [mkSet 5%Z 95%Z].
Definition squat : Exercise Z :=
  mkExercise "E" "Squat" "Legs" [twin_first; twin_second].
Definition twin_data : WorkoutData Z := mkWorkoutData [squat] [].

(** Two workouts on the same day, the first with the overhead press
    only, the second with all three exercises. *)
Definition morning_workout : WorkoutSession :=
  mkWorkoutSession "w2" "2024-01-15T07:00:00.000Z"
    (Some "2024-01-15T07:20:00.000Z") ["B"] None.
Definition full_workout : WorkoutSession :=
  mkWorkoutSession "w3" "2024-01-15T17:00:00.000Z"
    (Some "2024-01-15T18:30:00.000Z") ["A"; "B"; "C"] None.

(** An earlier workout of that day with the barbell row only. *)
Definition row_workout : WorkoutSession :=
  mkWorkoutSession "w4" "2024-01-15T06:00:00.000Z"
    (Some "2024-01-15T06:30:00.000Z") ["C"] None.

(** Sessions for the streak: [now_sample] is Wednesday 2024-01-17,
    10:00 UTC. *)
Definition now_sample : Z := 1705485600000.

Definition session_on (id date : string) : ExerciseSession Z :=
  mkExerciseSession id date [mkSet 5%Z 100%Z].

Definition three_week_data : WorkoutData Z :=
  mkWorkoutData
    [mkExercise "A" "Bench press" "Push"
       [session_on "t1" "2023-12-12T18:00:00.000Z";
        session_on "t2" "2024-01-02T18:00:00.000Z";
        session_on "t3" "2024-01-10T18:00:00.000Z";
        session_on "t4" "2024-01-15T18:00:00.000Z"]]
    [].

Definition gap_week_data : WorkoutData Z :=
  mkWorkoutData
    [mkExercise "A" "Bench press" "Push"
       [session_on "g1" "2023-12-27T18:00:00.000Z";
        session_on "g2" "2024-01-10T18:00:00.000Z"]]
    [].

(** A session whose date is not a date. *)
Definition undated_data : WorkoutData Z :=
  mkWorkoutData
    [mkExercise "A" "Bench press" "Push" [session_on "u1" "yesterday"]]
    [].

(** A host on UTC. *)
Definition utc_host : Z -> bool -> Z := fun _ _ => 0%Z.

(** The key of the week [j] weeks before the one of [now_sample], for a
    host on UTC. *)
Definition sample_week (j : nat) : string :=
  match getWeekKey utc_host (checkDate_at utc_host (TimeClip now_sample) j) with
  | Some k => k
  | None => ""
  end.

(** Numbers as integers, written in decimal. *)
Definition Z_toString (z : Z) : string := NilZero.string_of_int (Z.to_int z).
Definition Z_ofString (str : string) : Z :=
  match NilZero.int_of_string str with
  | Some i => Z.of_int i
  | None => 0%Z
  end.
Definition Z_isFinite (z : Z) : bool := true.
Definition Z_truthy (z : Z) : bool := negb (z =? 0)%Z.

(** * [ordinal] ([utils/stats.ts]) on integers

    [ordinal(n)] gets a rank, an integer. The definition is the code's
    for the integers a number holds exactly, those below [2^53] in
    absolute value: there [%] is the remainder with the sign of the
    dividend and [n + suffix] writes every digit of [n]. (Beyond, the
    number the code is given is a rounded one, printed in exponent form
    from [10^21] on.) [s[i]] is [undefined] unless [i] is an index of
    [s]; [a || b] is [a] unless [a] is falsy. *)
Definition safe_integer (n : Z) : Prop := (Z.abs n < 2 ^ 53)%Z.

Definition array_at (A : Type) (l : list A) (i : Z) : option A :=
  if (i <? 0)%Z then None else nth_error l (Z.to_nat i).

Definition or_else (a : option string) (b : string) : string :=
  match a with
  | Some x => if String.eqb x "" then b else x
  | None => b
  end.

Definition ordinal (n : Z) : string :=
  let s := ["th"; "st"; "nd"; "rd"] in
  let v := Z.rem n 100 in
  Z_toString n
    ++ or_else (array_at s (Z.rem (v - 20) 10))
               (or_else (array_at s v) (hd "" s)).

(** The text of an object with an empty [exercises] array and nothing
    else. *)
Definition quote_mark : string := String "034"%char "".
Definition incomplete_text : string :=
  "{" ++ quote_mark ++ "exercises" ++ quote_mark ++ ":[]}".

(** * Properties *)

Section Properties.

Variable number : Type.

Local Abbreviation Data := (WorkoutData number).

(** ** Lists and strings *)

Lemma includes_In (l : list string) (x : string) :
  includes l x = true <-> In x l.
Proof.
  unfold includes. rewrite existsb_exists. split.
  - intros [y [Hy Heq]]. apply String.eqb_eq in Heq. now subst.
  - intros H. exists x. split; [assumption | apply String.eqb_refl].
Qed.

Lemma includes_not_In (l : list string) (x : string) :
  includes l x = false <-> ~ In x l.
Proof.
  rewrite <- includes_In. destruct (includes l x); split; intros; congruence.
Qed.

Lemma find_by_key (A : Type) (key : A -> string) (l : list A) (x : A) :
  In x l -> NoDup (map key l) ->
  find (fun y => String.eqb (key y) (key x)) l = Some x.
Proof.
  induction l as [|w rest IH]; intros Hin Hnd; [contradiction|].
  simpl in *. inversion Hnd as [|? ? Hnotin Hnd']; subst.
  destruct Hin as [->|Hin].
  - now rewrite String.eqb_refl.
  - destruct (String.eqb (key w) (key x)) eqn:E.
    + apply String.eqb_eq in E. exfalso. apply Hnotin. rewrite E.
      now apply in_map.
    + now apply IH.
Qed.

Lemma find_unique_id (ws : list WorkoutSession) (S : WorkoutSession) :
  In S ws -> NoDup (map ws_id ws) ->
  find (fun s => String.eqb (ws_id s) (ws_id S)) ws = Some S.
Proof. apply find_by_key. Qed.

Lemma find_first (A : Type) (p : A -> bool) (l1 l2 : list A) (x : A) :
  (forall y, In y l1 -> p y = false) -> p x = true ->
  find p (l1 ++ x :: l2) = Some x.
Proof.
  induction l1 as [|y r IH]; intros Hl1 Hx; simpl.
  - now rewrite Hx.
  - rewrite (Hl1 y (or_introl eq_refl)). apply IH; trivial.
    intros z Hz. apply Hl1. now right.
Qed.

Lemma find_all_false (A : Type) (p : A -> bool) (l : list A) :
  (forall y, In y l -> p y = false) -> find p l = None.
Proof.
  induction l as [|y r IH]; intros H; simpl; trivial.
  rewrite (H y (or_introl eq_refl)). apply IH.
  intros z Hz. apply H. now right.
Qed.

(** ** deleteWorkoutSession *)

(** C1. Deleting a session [S] of a snapshot removes [S]. When the
    workout sessions have distinct ids, as the data model requires, every
    other workout session is kept, an exercise listed in [S.exerciseIds]
    loses exactly its sessions dated on the start date of [S], and an
    exercise not listed there is returned as it was, whatever its
    sessions on that date. *)
Theorem deleteWorkoutSession_cascade :
  forall (data : Data) (S : WorkoutSession),
    In S (workoutSessions data) ->
    let data' := deleteWorkoutSession (ws_id S) data in
    ~ In S (workoutSessions data') /\
    List.length (exercises data') = List.length (exercises data) /\
    (NoDup (map ws_id (workoutSessions data)) ->
     (forall ws, In ws (workoutSessions data') <->
                 In ws (workoutSessions data) /\ ws <> S) /\
     forall i e,
       nth_error (exercises data) i = Some e ->
       exists e',
         nth_error (exercises data') i = Some e' /\
         ex_id e' = ex_id e /\ ex_name e' = ex_name e /\
         ex_category e' = ex_category e /\
         (In (ex_id e) (exerciseIds S) ->
          ex_sessions e' =
            filter (fun es => negb (String.eqb (datePart (es_date es))
                                                (datePart (startTime S))))
                   (ex_sessions e) /\
          forall es, In es (ex_sessions e') <->
                     In es (ex_sessions e) /\
                     datePart (es_date es) <> datePart (startTime S)) /\
         (~ In (ex_id e) (exerciseIds S) -> e' = e)).
Proof.
  intros data S Hin data'. subst data'.
  assert (Hgone : ~ In S (workoutSessions (deleteWorkoutSession (ws_id S) data))
                  /\ List.length (exercises (deleteWorkoutSession (ws_id S) data))
                     = List.length (exercises data)).
  { unfold deleteWorkoutSession.
    destruct (find (fun s => String.eqb (ws_id s) (ws_id S))
                   (workoutSessions data)) as [S'|] eqn:F.
    - simpl. split; [|apply length_map].
      rewrite filter_In. intros [_ H]. now rewrite String.eqb_refl in H.
    - pose proof (List.find_none _ _ F S Hin) as H. cbv beta in H.
      now rewrite String.eqb_refl in H. }
  destruct Hgone as [Hgone Hlen].
  split; [exact Hgone|]. split; [exact Hlen|].
  intros Hnd. clear Hgone Hlen.
  unfold deleteWorkoutSession. rewrite (find_unique_id _ _ Hin Hnd). simpl.
  split.
  - intros ws. rewrite filter_In. split; intros [H1 H2]; split; trivial.
    + intros ->. now rewrite String.eqb_refl in H2.
    + destruct (String.eqb (ws_id ws) (ws_id S)) eqn:E; trivial.
      exfalso. apply H2.
      pose proof (find_unique_id _ _ H1 Hnd) as F1.
      pose proof (find_unique_id _ _ Hin Hnd) as F2.
      apply String.eqb_eq in E. rewrite E in F1. congruence.
  - intros i e Hi. rewrite nth_error_map, Hi. simpl.
    destruct (includes (exerciseIds S) (ex_id e)) eqn:E; simpl.
    + eexists. split; [reflexivity|]. simpl.
      split; [reflexivity|]. split; [reflexivity|]. split; [reflexivity|].
      split.
      * intros _. split; [reflexivity|]. intros es. rewrite filter_In.
        split; intros [H1 H2]; split; trivial.
        -- intros Heq. rewrite Heq, String.eqb_refl in H2. discriminate.
        -- apply String.eqb_neq in H2. now rewrite H2.
      * intros Hn. apply includes_In in E. contradiction.
    + exists e. apply includes_not_In in E.
      split; [reflexivity|]. split; [reflexivity|]. split; [reflexivity|].
      split; [reflexivity|]. split; [intros H; contradiction | reflexivity].
Qed.

(** ** deleteSet *)

Lemma filter_index_remove (A : Type) (l : list A) (k j : nat) :
  filter_index (fun i => negb (Z.eqb (Z.of_nat i) (Z.of_nat (j + k)))) j l =
  firstn k l ++ skipn (S k) l.
Proof.
  revert k j. induction l as [|x rest IH]; intros k j.
  - now destruct k.
  - simpl filter_index. destruct k as [|k].
    + rewrite Nat.add_0_r, Z.eqb_refl. simpl.
      clear IH. revert j.
      assert (G : forall m j, j < m ->
                 filter_index (fun i => negb (Z.eqb (Z.of_nat i) (Z.of_nat j)))
                              m rest = rest).
      { induction rest as [|y r IHr]; intros m j Hlt; simpl; trivial.
        replace (Z.eqb (Z.of_nat m) (Z.of_nat j)) with false
          by (symmetry; apply Z.eqb_neq; lia).
        simpl. f_equal. apply IHr. lia. }
      intros j. apply G. lia.
    + replace (Z.eqb (Z.of_nat j) (Z.of_nat (j + S k))) with false
        by (symmetry; apply Z.eqb_neq; lia).
      simpl. f_equal. replace (j + S k) with (S j + k) by lia. apply IH.
Qed.

Lemma length_remove_at (A : Type) (l : list A) (k : nat) :
  k < List.length l ->
  List.length (firstn k l ++ skipn (S k) l) = List.length l - 1.
Proof.
  intros H. rewrite length_app, length_firstn, length_skipn. lia.
Qed.

Lemma deleteSet_keeps_others (sessionId : string) (setIndex : Z)
    (l : list (ExerciseSession number)) :
  (forall s, In s l -> es_id s <> sessionId /\ es_sets s <> []) ->
  filter (fun session => Nat.ltb 0 (List.length (es_sets session)))
         (map (deleteSet_session sessionId setIndex) l) = l.
Proof.
  induction l as [|s rest IH]; intros H; simpl; trivial.
  destruct (H s (or_introl eq_refl)) as [Hid Hne].
  apply String.eqb_neq in Hid.
  assert (Hs : deleteSet_session sessionId setIndex s = s)
    by (unfold deleteSet_session; now rewrite Hid).
  rewrite Hs. destruct (es_sets s) eqn:E; [congruence|]. simpl.
  f_equal. apply IH. intros s' Hs'. apply H. now right.
Qed.

(** C2 (as amended). [deleteSet] edits the session with the given id
    and then drops every session of that exercise left with no set. A
    session with [n >= 2] sets stays, with the set at the index removed
    and the others in order. When the other sessions of the exercise
    carry other ids and are not empty, deleting the only set of a session
    removes exactly that session (one session fewer, the rest as they
    were), and deleting one of several sets changes that session only. *)
Theorem deleteSet_prunes_empty_sessions :
  forall (data : Data) (exerciseId sessionId : string) (k i : nat)
         (e : Exercise number) (S : ExerciseSession number)
         (l1 l2 : list (ExerciseSession number)),
    nth_error (exercises data) i = Some e ->
    ex_id e = exerciseId ->
    ex_sessions e = l1 ++ S :: l2 ->
    es_id S = sessionId ->
    k < List.length (es_sets S) ->
    let S' := with_sets S (firstn k (es_sets S) ++ skipn (Datatypes.S k) (es_sets S)) in
    exists e',
      nth_error (exercises (deleteSet exerciseId sessionId (Z.of_nat k) data)) i
        = Some e' /\
      ex_id e' = ex_id e /\ ex_name e' = ex_name e /\
      ex_category e' = ex_category e /\
      (2 <= List.length (es_sets S) ->
       In S' (ex_sessions e') /\
       List.length (es_sets S') = List.length (es_sets S) - 1) /\
      ((forall s, In s (l1 ++ l2) -> es_id s <> sessionId /\ es_sets s <> []) ->
       (List.length (es_sets S) = 1 ->
        ex_sessions e' = l1 ++ l2 /\
        List.length (ex_sessions e') + 1 = List.length (ex_sessions e)) /\
       (2 <= List.length (es_sets S) ->
        ex_sessions e' = l1 ++ S' :: l2)).
Proof.
  intros data exerciseId sessionId k i e S l1 l2 Hi Hid Hsplit HS Hk S'.
  unfold deleteSet. simpl. rewrite nth_error_map, Hi. simpl.
  apply String.eqb_eq in Hid. rewrite Hid. simpl.
  eexists. split; [reflexivity|]. simpl.
  split; [reflexivity|]. split; [reflexivity|]. split; [reflexivity|].
  assert (HS' : deleteSet_session sessionId (Z.of_nat k) S = S').
  { unfold deleteSet_session. apply String.eqb_eq in HS. rewrite HS. simpl.
    subst S'. f_equal. apply (filter_index_remove (es_sets S) k 0). }
  assert (Hlen : List.length (es_sets S') = List.length (es_sets S) - 1).
  { subst S'. simpl. now apply length_remove_at. }
  rewrite Hsplit, map_app, filter_app. simpl. rewrite HS'.
  split.
  - intros Hn. split; [|exact Hlen].
    apply in_or_app. right.
    replace (Nat.ltb 0 (List.length (es_sets S'))) with true
      by (symmetry; apply Nat.ltb_lt; lia).
    now left.
  - intros Hothers.
    rewrite (@deleteSet_keeps_others sessionId (Z.of_nat k) l1)
      by (intros s Hs; apply Hothers, in_or_app; now left).
    rewrite (@deleteSet_keeps_others sessionId (Z.of_nat k) l2)
      by (intros s Hs; apply Hothers, in_or_app; now right).
    split; intros Hn.
    + replace (Nat.ltb 0 (List.length (es_sets S'))) with false
        by (symmetry; apply Nat.ltb_ge; lia).
      split; [reflexivity|]. rewrite !length_app. simpl. lia.
    + replace (Nat.ltb 0 (List.length (es_sets S'))) with true
        by (symmetry; apply Nat.ltb_lt; lia).
      reflexivity.
Qed.

(** ** addSetToExercise *)

(** The session test of [addSetToExercise]: dated on the day [D]. *)
Local Abbreviation on_day D :=
  (fun s : ExerciseSession number => String.eqb (datePart (es_date s)) D).

Lemma findIndex_first (A : Type) (p : A -> bool) (l1 l2 : list A) (x : A) :
  (forall y, In y l1 -> p y = false) -> p x = true ->
  findIndex p (l1 ++ x :: l2) = Some (List.length l1).
Proof.
  induction l1 as [|y r IH]; intros Hl1 Hx; simpl.
  - now rewrite Hx.
  - rewrite (Hl1 y (or_introl eq_refl)), IH; trivial.
    intros z Hz. apply Hl1. now right.
Qed.

Lemma findIndex_none (A : Type) (p : A -> bool) (l : list A) :
  (forall y, In y l -> p y = false) -> findIndex p l = None.
Proof.
  induction l as [|y r IH]; intros H; simpl; trivial.
  rewrite (H y (or_introl eq_refl)), IH; trivial.
  intros z Hz. apply H. now right.
Qed.

Lemma array_set_middle (A : Type) (l1 l2 : list A) (x y : A) :
  array_set (l1 ++ x :: l2) (List.length l1) y = l1 ++ y :: l2.
Proof.
  induction l1 as [|z r IH]; simpl; trivial. now rewrite IH.
Qed.

Lemma filter_none (A : Type) (p : A -> bool) (l : list A) :
  (forall y, In y l -> p y = false) -> filter p l = [].
Proof.
  induction l as [|y r IH]; intros H; simpl; trivial.
  rewrite (H y (or_introl eq_refl)). apply IH.
  intros z Hz. apply H. now right.
Qed.

Lemma filter_nil_none (A : Type) (p : A -> bool) (l : list A) :
  filter p l = [] -> forall y, In y l -> p y = false.
Proof.
  intros H y Hy. destruct (p y) eqn:E; trivial.
  assert (Hin : In y (filter p l)) by (apply filter_In; now split).
  rewrite H in Hin. contradiction.
Qed.

Lemma filter_all (A : Type) (p : A -> bool) (l : list A) :
  (forall y, In y l -> p y = true) -> filter p l = l.
Proof.
  induction l as [|y r IH]; intros H; simpl; trivial.
  rewrite (H y (or_introl eq_refl)). f_equal. apply IH.
  intros z Hz. apply H. now right.
Qed.

Lemma filter_one_split (A : Type) (p : A -> bool) (l : list A) (x : A) :
  filter p l = [x] ->
  exists l1 l2, l = l1 ++ x :: l2 /\ p x = true /\
                (forall y, In y l1 -> p y = false) /\
                (forall y, In y l2 -> p y = false).
Proof.
  induction l as [|y r IH]; simpl; intros H; [discriminate|].
  destruct (p y) eqn:E.
  - injection H as -> Hr. exists [], r. repeat split; trivial.
    + intros z [].
    + now apply filter_nil_none.
  - destruct (IH H) as [l1 [l2 [-> [Hx [H1 H2]]]]].
    exists (y :: l1), l2. repeat split; trivial.
    intros z [<-|Hz]; auto.
Qed.

Lemma addSetToExercise_creates :
  forall (data : Data) exerciseId set dateStr newId i e,
    nth_error (exercises data) i = Some e ->
    ex_id e = exerciseId ->
    (forall s, In s (ex_sessions e) -> on_day (datePart dateStr) s = false) ->
    nth_error (exercises (addSetToExercise_update exerciseId set dateStr newId data)) i
    = Some (with_sessions e
              (ex_sessions e ++ [mkExerciseSession newId dateStr [set]])).
Proof.
  intros data exerciseId set dateStr newId i e Hi Hid Hnone.
  unfold addSetToExercise_update. simpl. rewrite nth_error_map, Hi. simpl.
  apply String.eqb_eq in Hid. rewrite Hid. simpl.
  now rewrite (findIndex_none _ _ Hnone).
Qed.

Lemma addSetToExercise_appends :
  forall (data : Data) exerciseId set dateStr newId i e l1 s0 l2,
    nth_error (exercises data) i = Some e ->
    ex_id e = exerciseId ->
    ex_sessions e = l1 ++ s0 :: l2 ->
    (forall s, In s l1 -> on_day (datePart dateStr) s = false) ->
    on_day (datePart dateStr) s0 = true ->
    nth_error (exercises (addSetToExercise_update exerciseId set dateStr newId data)) i
    = Some (with_sessions e
              (l1 ++ with_sets s0 (es_sets s0 ++ [set]) :: l2)).
Proof.
  intros data exerciseId set dateStr newId i e l1 s0 l2 Hi Hid Hs Hl1 Hs0.
  unfold addSetToExercise_update. simpl. rewrite nth_error_map, Hi. simpl.
  apply String.eqb_eq in Hid. rewrite Hid. simpl.
  rewrite Hs, (findIndex_first _ _ l2 _ Hl1 Hs0).
  rewrite nth_error_app2, Nat.sub_diag by lia. simpl.
  now rewrite array_set_middle.
Qed.

(** Two updates on the same day. *)
Lemma addSetToExercise_update_same_day :
  forall (data : Data) exerciseId set1 set2 dateStr1 dateStr2 id1 id2 i e,
    nth_error (exercises data) i = Some e ->
    ex_id e = exerciseId ->
    datePart dateStr1 = datePart dateStr2 ->
    List.length (filter (on_day (datePart dateStr1)) (ex_sessions e)) <= 1 ->
    let D := datePart dateStr1 in
    let data1 := addSetToExercise_update exerciseId set1 dateStr1 id1 data in
    let data2 := addSetToExercise_update exerciseId set2 dateStr2 id2 data1 in
    exists e2 sess,
      nth_error (exercises data2) i = Some e2 /\
      ex_id e2 = ex_id e /\ ex_name e2 = ex_name e /\
      ex_category e2 = ex_category e /\
      filter (on_day D) (ex_sessions e2) = [sess] /\
      filter (fun s => negb (on_day D s)) (ex_sessions e2) =
        filter (fun s => negb (on_day D s)) (ex_sessions e) /\
      ((filter (on_day D) (ex_sessions e) = [] /\
        sess = mkExerciseSession id1 dateStr1 [set1; set2] /\
        nth_error (exercises data1) i =
          Some (with_sessions e
                  (ex_sessions e ++ [mkExerciseSession id1 dateStr1 [set1]])) /\
        ex_sessions e2 = ex_sessions e ++ [sess])
       \/
       (exists s0 l1 l2,
          filter (on_day D) (ex_sessions e) = [s0] /\
          sess = with_sets s0 (es_sets s0 ++ [set1; set2]) /\
          ex_sessions e = l1 ++ s0 :: l2 /\
          ex_sessions e2 = l1 ++ sess :: l2)).
Proof.
  intros data exerciseId set1 set2 dateStr1 dateStr2 id1 id2 i e
         Hi Hid Hday Hle D data1 data2.
  destruct (filter (on_day D) (ex_sessions e)) as [|s0 [|s1 more]] eqn:HF;
    [| |subst D; rewrite HF in Hle; simpl in Hle; lia].
  - (* the day has no session yet *)
    pose proof (filter_nil_none _ _ HF) as Hnone.
    pose proof (@addSetToExercise_creates data exerciseId set1 dateStr1 id1 i e
                  Hi Hid Hnone) as H1.
    fold data1 in H1.
    assert (Hnew : on_day (datePart dateStr2)
                     (mkExerciseSession id1 dateStr1 [set1]) = true).
    { simpl. rewrite Hday. apply String.eqb_refl. }
    assert (Hnone2 : forall s, In s (ex_sessions e) ->
                               on_day (datePart dateStr2) s = false).
    { intros s Hs. rewrite <- Hday. now apply Hnone. }
    pose proof (@addSetToExercise_appends data1 exerciseId set2 dateStr2 id2 i
                  (with_sessions e
                     (ex_sessions e ++ [mkExerciseSession id1 dateStr1 [set1]]))
                  (ex_sessions e) (mkExerciseSession id1 dateStr1 [set1]) []
                  H1 Hid eq_refl Hnone2 Hnew) as H2.
    fold data2 in H2. simpl in H2.
    eexists. exists (mkExerciseSession id1 dateStr1 [set1; set2]).
    split; [exact H2|]. simpl.
    split; [reflexivity|]. split; [reflexivity|]. split; [reflexivity|].
    rewrite !filter_app. simpl.
    replace (String.eqb (datePart dateStr1) D) with true
      by (symmetry; apply String.eqb_refl).
    simpl. rewrite (filter_none _ _ Hnone). simpl.
    split; [reflexivity|]. split; [now rewrite app_nil_r|].
    left. repeat split; trivial.
  - (* the day has its session *)
    destruct (filter_one_split _ _ HF) as [l1 [l2 [Hs [Hs0 [Hl1 Hl2]]]]].
    pose proof (@addSetToExercise_appends data exerciseId set1 dateStr1 id1 i e
                  l1 s0 l2 Hi Hid Hs Hl1 Hs0) as H1.
    fold data1 in H1.
    assert (Hs0' : on_day (datePart dateStr2)
                     (with_sets s0 (es_sets s0 ++ [set1])) = true).
    { simpl. rewrite <- Hday. exact Hs0. }
    assert (Hl1' : forall s, In s l1 -> on_day (datePart dateStr2) s = false).
    { intros s Hin. rewrite <- Hday. now apply Hl1. }
    pose proof (@addSetToExercise_appends data1 exerciseId set2 dateStr2 id2 i
                  (with_sessions e
                     (l1 ++ with_sets s0 (es_sets s0 ++ [set1]) :: l2))
                  l1 (with_sets s0 (es_sets s0 ++ [set1])) l2
                  H1 Hid eq_refl Hl1' Hs0') as H2.
    fold data2 in H2. simpl in H2. rewrite <- app_assoc in H2. simpl in H2.
    eexists. exists (with_sets s0 (es_sets s0 ++ [set1; set2])).
    split; [exact H2|]. simpl.
    split; [reflexivity|]. split; [reflexivity|]. split; [reflexivity|].
    rewrite Hs, !filter_app. simpl.
    fold D in Hs0, Hl1, Hl2. simpl in Hs0. rewrite Hs0. simpl.
    rewrite (filter_none _ _ Hl1), (filter_none _ _ Hl2).
    split; [reflexivity|]. split; [reflexivity|].
    right. exists s0, l1, l2. repeat split; trivial.
Qed.

(** [toISOString] writes the UTC day first, with no letter T before the
    one that ends it. *)
Lemma split_head_app_left (sep : ascii) (p q : string) :
  split_head sep p = p ->
  split_head sep (p ++ q)%string = (p ++ split_head sep q)%string.
Proof.
  induction p as [|c p' IH]; simpl; intros Hp; trivial.
  destruct (Ascii.eqb c sep); [discriminate|].
  injection Hp as Hp. now rewrite IH.
Qed.

Lemma split_head_app_clean (sep : ascii) (p q : string) :
  split_head sep p = p -> split_head sep q = q ->
  split_head sep (p ++ q)%string = (p ++ q)%string.
Proof.
  intros Hp Hq. now rewrite (@split_head_app_left sep p q Hp), Hq.
Qed.

Lemma pad_digits_clean (w : nat) (n : Z) :
  datePart (pad_digits w n) = pad_digits w n.
Proof.
  revert n. induction w as [|w IH]; intros n; simpl; trivial.
  apply split_head_app_clean; [apply IH|].
  assert (Hd : (0 <= n mod 10 < 10)%Z) by (apply Z.mod_pos_bound; lia).
  unfold digit_char.
  assert (Hc : exists k, (k < 10)%nat /\ Z.to_nat (n mod 10) = k).
  { exists (Z.to_nat (n mod 10)). split; [lia|reflexivity]. }
  destruct Hc as [k [Hk ->]].
  do 10 (destruct k as [|k]; [reflexivity|]). lia.
Qed.

Lemma year_string_clean (y : Z) : datePart (year_string y) = year_string y.
Proof.
  unfold year_string.
  destruct ((0 <=? y)%Z && (y <=? 9999)%Z)%bool; [apply pad_digits_clean|].
  destruct (y <? 0)%Z;
    (apply (split_head_app_clean "T"%char);
     [reflexivity|apply pad_digits_clean]).
Qed.

Lemma datePart_toISOString (t : Z) :
  datePart (toISOString t) = date_string (t / msPerDay).
Proof.
  unfold toISOString, date_string.
  destruct (civil_from_days (t / msPerDay)) as [[y m] d].
  set (tail := (pad_digits 2 (t mod msPerDay / 3600000) ++ _)%string).
  unfold datePart.
  rewrite (@split_head_app_left "T"%char _ _ (year_string_clean y)).
  rewrite (@split_head_app_left "T"%char "-" _ eq_refl).
  rewrite (@split_head_app_left "T"%char _ _ (pad_digits_clean 2 m)).
  rewrite (@split_head_app_left "T"%char "-" _ eq_refl).
  rewrite (@split_head_app_left "T"%char _ _ (pad_digits_clean 2 d)).
  change (split_head "T" ("T" ++ tail)%string) with EmptyString.
  repeat f_equal.
Qed.

(** C3. On a snapshot in which the exercise has at most one session on
    the day [D], two calls of [addSetToExercise] for that exercise whose
    dates (given, or the current time when omitted) have the date part
    [D] succeed and leave the exercise with exactly one session on [D];
    that session holds the sets it had before followed by the two new
    sets in call order, and it is created by the first call, at the end
    of the sequence, when the day had none. Sessions of other days are as
    they were. Two dates of the same UTC day have the same date part. *)
Theorem addSetToExercise_same_day :
  forall (data : Data) exerciseId set1 set2 (date1 date2 : option Date)
         (now1 now2 t1 t2 : Z) id1 id2 i e,
    nth_error (exercises data) i = Some e ->
    ex_id e = exerciseId ->
    match date1 with Some d => d | None => TimeClip now1 end = Some t1 ->
    match date2 with Some d => d | None => TimeClip now2 end = Some t2 ->
    datePart (toISOString t1) = datePart (toISOString t2) ->
    List.length (filter (on_day (datePart (toISOString t1))) (ex_sessions e))
      <= 1 ->
    let D := datePart (toISOString t1) in
    exists data1 data2 e2 sess,
      addSetToExercise exerciseId set1 date1 now1 id1 data = Some data1 /\
      addSetToExercise exerciseId set2 date2 now2 id2 data1 = Some data2 /\
      nth_error (exercises data2) i = Some e2 /\
      ex_id e2 = ex_id e /\ ex_name e2 = ex_name e /\
      ex_category e2 = ex_category e /\
      filter (on_day D) (ex_sessions e2) = [sess] /\
      filter (fun s => negb (on_day D s)) (ex_sessions e2) =
        filter (fun s => negb (on_day D s)) (ex_sessions e) /\
      ((filter (on_day D) (ex_sessions e) = [] /\
        sess = mkExerciseSession id1 (toISOString t1) [set1; set2] /\
        nth_error (exercises data1) i =
          Some (with_sessions e
                  (ex_sessions e
                     ++ [mkExerciseSession id1 (toISOString t1) [set1]])) /\
        ex_sessions e2 = ex_sessions e ++ [sess])
       \/
       (exists s0 l1 l2,
          filter (on_day D) (ex_sessions e) = [s0] /\
          sess = with_sets s0 (es_sets s0 ++ [set1; set2]) /\
          ex_sessions e = l1 ++ s0 :: l2 /\
          ex_sessions e2 = l1 ++ sess :: l2)) /\
      ((t1 / msPerDay = t2 / msPerDay)%Z ->
       datePart (toISOString t1) = datePart (toISOString t2)).
Proof.
  intros data exerciseId set1 set2 date1 date2 now1 now2 t1 t2 id1 id2 i e
         Hi Hid Hd1 Hd2 Hday Hle D.
  unfold addSetToExercise. rewrite Hd1, Hd2.
  destruct (@addSetToExercise_update_same_day data exerciseId set1 set2
              (toISOString t1) (toISOString t2) id1 id2 i e Hi Hid Hday Hle)
    as [e2 [sess H]].
  eexists. eexists. exists e2, sess.
  split; [reflexivity|]. split; [reflexivity|].
  destruct H as [H1 [H2 [H3 [H4 [H5 [H6 H7]]]]]].
  repeat (split; [assumption|]).
  intros Hsame. now rewrite !datePart_toISOString, Hsame.
Qed.

(** ** uniqueWorkoutDates and lastWorkoutDate *)

Lemma str_le_cases (a b : string) :
  str_le a b <-> String_as_OT.lt a b \/ a = b.
Proof.
  unfold str_le, String.leb.
  destruct (String.compare a b) eqn:E.
  - apply String_as_OT.cmp_eq in E. tauto.
  - apply String_as_OT.cmp_lt in E. tauto.
  - split; [discriminate|]. intros [H| ->].
    + apply String_as_OT.cmp_lt in H. unfold String_as_OT.cmp in H. congruence.
    + assert (H : String.compare b b = Eq) by now apply String_as_OT.cmp_eq.
      congruence.
Qed.

Lemma str_le_trans (a b c : string) : str_le a b -> str_le b c -> str_le a c.
Proof.
  rewrite !str_le_cases. intros [H1| ->] [H2| ->]; auto.
  left. eapply String_as_OT.lt_trans; eassumption.
Qed.

Lemma str_le_total (a b : string) : str_le a b \/ str_le b a.
Proof. apply String.leb_total. Qed.

Lemma str_lt_le_neq (a b : string) : str_lt a b <-> str_le a b /\ a <> b.
Proof.
  unfold str_lt, str_le, String.ltb, String.leb.
  destruct (String.compare a b) eqn:E.
  - apply String_as_OT.cmp_eq in E. split; [discriminate|tauto].
  - split; trivial. intros _. split; trivial. intros ->.
    assert (H : String.compare b b = Eq) by now apply String_as_OT.cmp_eq.
    congruence.
  - split; [discriminate|]. intros [H _]. discriminate.
Qed.

Lemma set_add_In (s : list string) (x y : string) :
  In y (set_add s x) <-> In y s \/ y = x.
Proof.
  unfold set_add. destruct (includes s x) eqn:E.
  - apply includes_In in E. split; [tauto|]. intros [H| ->]; trivial.
  - rewrite in_app_iff. simpl. intuition auto.
Qed.

Lemma set_add_NoDup (s : list string) (x : string) :
  NoDup s -> NoDup (set_add s x).
Proof.
  intros H. unfold set_add. destruct (includes s x) eqn:E; trivial.
  apply includes_not_In in E.
  apply NoDup_app; trivial.
  - repeat constructor. intros [].
  - intros y Hy [<-|[]]. contradiction.
Qed.

(** Folding conditional [add]s over an array. *)
Lemma fold_set_add (A : Type) (keep : A -> bool) (key : A -> string)
      (l : list A) (acc : list string) :
  let r := fold_left (fun dates a => if keep a then set_add dates (key a)
                                     else dates) l acc in
  (NoDup acc -> NoDup r) /\
  (forall d, In d r <->
             In d acc \/ exists a, In a l /\ keep a = true /\ key a = d).
Proof.
  revert acc. induction l as [|a rest IH]; intros acc; simpl.
  - split; trivial. intros d. split; [tauto|].
    intros [H|[a [[] _]]]. exact H.
  - specialize (IH (if keep a then set_add acc (key a) else acc)).
    destruct IH as [IHn IHi]. split.
    + intros H. apply IHn. destruct (keep a); trivial.
      now apply set_add_NoDup.
    + intros d. rewrite IHi. destruct (keep a) eqn:K.
      * rewrite set_add_In. split.
        -- intros [[H| ->]|[b [Hb [Kb Eb]]]]; auto.
           ++ right. exists a. auto.
           ++ right. exists b. auto.
        -- intros [H|[b [[<-|Hb] [Kb Eb]]]]; auto.
           right. exists b. auto.
      * split.
        -- intros [H|[b [Hb [Kb Eb]]]]; auto. right. exists b. auto.
        -- intros [H|[b [[<-|Hb] [Kb Eb]]]]; auto; [congruence|].
           right. exists b. auto.
Qed.

Lemma sort_insert_In (x y : string) (l : list string) :
  In y (sort_insert x l) <-> y = x \/ In y l.
Proof.
  induction l as [|z rest IH]; simpl.
  - split; intros [H|H]; auto.
  - destruct (String.leb x z); simpl; rewrite ?IH; split; intuition auto.
Qed.

Lemma sort_insert_NoDup (x : string) (l : list string) :
  ~ In x l -> NoDup l -> NoDup (sort_insert x l).
Proof.
  induction l as [|z rest IH]; simpl; intros Hn Hd.
  - repeat constructor. intros [].
  - inversion Hd as [|? ? Hz Hrest]; subst.
    destruct (String.leb x z).
    + constructor; trivial.
    + constructor.
      * rewrite sort_insert_In. intros [->|H]; auto.
      * apply IH; auto.
Qed.

Lemma sort_insert_sorted (x : string) (l : list string) :
  StronglySorted str_le l -> StronglySorted str_le (sort_insert x l).
Proof.
  induction l as [|z rest IH]; simpl; intros Hs.
  - repeat constructor.
  - inversion Hs as [|? ? Hrest Hall]; subst.
    destruct (String.leb x z) eqn:E.
    + constructor; trivial. constructor; trivial.
      rewrite Forall_forall in *. intros y Hy.
      eapply str_le_trans; [exact E|]. now apply Hall.
    + constructor; [now apply IH|].
      rewrite Forall_forall in *. intros y Hy.
      apply sort_insert_In in Hy. destruct Hy as [->|Hy]; [|now apply Hall].
      destruct (str_le_total x z) as [H|H]; trivial.
      unfold str_le in H. congruence.
Qed.

Lemma array_sort_In (l : list string) (y : string) :
  In y (array_sort l) <-> In y l.
Proof.
  induction l as [|x rest IH]; simpl; [tauto|].
  rewrite sort_insert_In, IH. intuition auto.
Qed.

Lemma array_sort_NoDup (l : list string) : NoDup l -> NoDup (array_sort l).
Proof.
  induction l as [|x rest IH]; simpl; intros H; trivial.
  inversion H; subst. apply sort_insert_NoDup; auto.
  now rewrite array_sort_In.
Qed.

Lemma array_sort_sorted (l : list string) : StronglySorted str_le (array_sort l).
Proof.
  induction l as [|x rest IH]; simpl; [constructor|].
  now apply sort_insert_sorted.
Qed.

Lemma array_sort_length (l : list string) :
  List.length (array_sort l) = List.length l.
Proof.
  induction l as [|x rest IH]; simpl; trivial. rewrite <- IH.
  generalize (array_sort rest). intros m.
  induction m as [|z r IHm]; simpl; trivial.
  destruct (String.leb x z); simpl; auto.
Qed.

Lemma sorted_strict (l : list string) :
  StronglySorted str_le l -> NoDup l -> StronglySorted str_lt l.
Proof.
  induction 1 as [|x l Hs IH Hall]; intros Hd; constructor;
    inversion Hd; subst; auto.
  rewrite Forall_forall in *. intros y Hy. apply str_lt_le_neq.
  split; auto. intros ->. contradiction.
Qed.

Lemma sorted_last_max (l : list string) (d0 : string) :
  StronglySorted str_le l ->
  forall d, In d l -> str_le d (last l d0).
Proof.
  induction 1 as [|x l Hs IH Hall]; intros d Hd; [contradiction|].
  destruct l as [|y r].
  - destruct Hd as [<-|[]]. simpl. apply str_le_cases. now right.
  - change (last (x :: y :: r) d0) with (last (y :: r) d0).
    destruct Hd as [<-|Hd]; [|now apply IH].
    rewrite Forall_forall in Hall.
    eapply str_le_trans; [apply Hall; now left|]. apply IH. now left.
Qed.

Lemma nth_error_last (A : Type) (l : list A) (d0 : A) :
  l <> [] -> nth_error l (List.length l - 1) = Some (last l d0).
Proof.
  induction l as [|x r IH]; intros H; [congruence|].
  destruct r as [|y r']; trivial.
  change (last (x :: y :: r') d0) with (last (y :: r') d0).
  rewrite <- IH by discriminate. simpl. now rewrite Nat.sub_0_r.
Qed.

(** The first loop of [getUniqueWorkoutDates] visits the sessions of
    all exercises in sequence. *)
Lemma fold_sessions_flat (exs : list (Exercise number)) (acc : list string) :
  fold_left (fun dates exercise =>
               fold_left (fun dates' session =>
                            set_add dates' (datePart (es_date session)))
                         (ex_sessions exercise) dates)
            exs acc =
  fold_left (fun dates session =>
               if (fun _ : ExerciseSession number => true) session
               then set_add dates (datePart (es_date session)) else dates)
            (flat_map (@ex_sessions number) exs) acc.
Proof.
  revert acc. induction exs as [|e rest IH]; intros acc; simpl; trivial.
  now rewrite fold_left_app, IH.
Qed.

(** C5. [getUniqueWorkoutDates] returns a strictly ascending list (hence
    without duplicates) whose elements are exactly the date parts of the
    exercise sessions and of the start times of the workout sessions that
    are Dwarf workouts with an end time; [getLastWorkoutDate] returns
    [null] on the empty list and otherwise its greatest element. *)
Theorem getUniqueWorkoutDates_sorted_union :
  forall (data : Data),
    let dates := getUniqueWorkoutDates data in
    StronglySorted str_lt dates /\
    NoDup dates /\
    (forall d,
        In d dates <->
        (exists e s, In e (exercises data) /\ In s (ex_sessions e) /\
                     datePart (es_date s) = d) \/
        (exists ws t, In ws (workoutSessions data) /\
                      isDwarfWorkout ws = Some true /\
                      endTime ws = Some t /\ t <> "" /\
                      datePart (startTime ws) = d)) /\
    match dates with
    | [] => getLastWorkoutDate data = None
    | _ :: _ =>
        exists m, getLastWorkoutDate data = Some m /\ In m dates /\
                  forall d, In d dates -> str_le d m
    end.
Proof.
  intros data dates.
  assert (Hle : StronglySorted str_le dates) by apply array_sort_sorted.
  unfold dates, getUniqueWorkoutDates in *.
  rewrite fold_sessions_flat in *.
  set (d1 := fold_left _ (flat_map _ _) []) in *.
  set (d2 := fold_left _ (workoutSessions data) d1) in *.
  destruct (fold_set_add (fun _ : ExerciseSession number => true)
              (fun s => datePart (es_date s))
              (flat_map (@ex_sessions number) (exercises data)) [])
    as [Hn1 Hi1].
  fold d1 in Hn1, Hi1.
  destruct (fold_set_add
              (fun ws => truthy_bool (isDwarfWorkout ws)
                         && truthy_string (endTime ws))
              (fun ws => datePart (startTime ws))
              (workoutSessions data) d1) as [Hn2 Hi2].
  fold d2 in Hn2, Hi2.
  assert (Hnd : NoDup (array_sort d2))
    by (apply array_sort_NoDup, Hn2, Hn1; constructor).
  assert (Hmem : forall d,
             In d (array_sort d2) <->
             (exists e s, In e (exercises data) /\ In s (ex_sessions e) /\
                          datePart (es_date s) = d) \/
             (exists ws t, In ws (workoutSessions data) /\
                           isDwarfWorkout ws = Some true /\
                           endTime ws = Some t /\ t <> "" /\
                           datePart (startTime ws) = d)).
  { intros d. rewrite array_sort_In, Hi2, Hi1. split.
    - intros [[[]|[s [Hs [_ Hd]]]]|[ws [Hws [Hk Hd]]]].
      + left. apply in_flat_map in Hs. destruct Hs as [e [He Hs]].
        exists e, s. auto.
      + right. apply andb_true_iff in Hk. destruct Hk as [Hk1 Hk2].
        destruct (isDwarfWorkout ws) as [[|]|] eqn:E1; try discriminate.
        destruct (endTime ws) as [t|] eqn:E2; try discriminate.
        exists ws, t. repeat split; trivial.
        simpl in Hk2. intros ->. discriminate.
    - intros [[e [s [He [Hs Hd]]]]|[ws [t [Hws [H1 [H2 [H3 Hd]]]]]]].
      + left. right. exists s. repeat split; trivial.
        apply in_flat_map. exists e. auto.
      + right. exists ws. repeat split; trivial.
        rewrite H1, H2. simpl. apply String.eqb_neq in H3. now rewrite H3. }
  split; [now apply sorted_strict|]. split; [exact Hnd|]. split; [exact Hmem|].
  unfold getLastWorkoutDate, getUniqueWorkoutDates.
  rewrite fold_sessions_flat. fold d1. fold d2.
  destruct (array_sort d2) as [|x r] eqn:E; trivial.
  exists (last (x :: r) ""). split.
  - change (Nat.eqb (List.length (x :: r)) 0) with false. cbv iota.
    apply nth_error_last. discriminate.
  - split.
    + destruct (@exists_last _ (x :: r)) as [l' [a Ha]]; [discriminate|].
      rewrite Ha, last_last. apply in_or_app. right. now left.
    + now apply sorted_last_max.
Qed.

(** ** cleanOrphanedSessions *)

(** C9. With no workout session at all [cleanOrphanedSessions] returns
    the snapshot it was given. Otherwise it leaves the workout sessions
    as they are and keeps, for every exercise and in their order, exactly
    the exercise sessions dated on the start date of some workout session
    that has an end time. *)
Theorem cleanOrphanedSessions_keeps_completed_dates :
  forall (data : Data),
    (workoutSessions data = [] -> cleanOrphanedSessions data = data) /\
    (workoutSessions data <> [] ->
     workoutSessions (cleanOrphanedSessions data) = workoutSessions data /\
     List.length (exercises (cleanOrphanedSessions data)) =
       List.length (exercises data) /\
     exists keep : ExerciseSession number -> bool,
       (forall s, keep s = true <->
                  exists ws t, In ws (workoutSessions data) /\
                               endTime ws = Some t /\ t <> "" /\
                               datePart (startTime ws) = datePart (es_date s)) /\
       forall i e,
         nth_error (exercises data) i = Some e ->
         exists e',
           nth_error (exercises (cleanOrphanedSessions data)) i = Some e' /\
           ex_id e' = ex_id e /\ ex_name e' = ex_name e /\
           ex_category e' = ex_category e /\
           ex_sessions e' = filter keep (ex_sessions e)).
Proof.
  intros data. unfold cleanOrphanedSessions. split.
  - intros ->. reflexivity.
  - intros Hne.
    destruct (workoutSessions data) as [|w rest] eqn:E; [congruence|].
    change (Nat.eqb (List.length (w :: rest)) 0) with false. cbv iota.
    rewrite <- E. clear Hne.
    set (valid := fold_left _ (workoutSessions data) []).
    destruct (fold_set_add (fun ws => truthy_string (endTime ws))
                (fun ws => datePart (startTime ws))
                (workoutSessions data) []) as [_ Hi].
    fold valid in Hi. simpl.
    split; [reflexivity|]. split; [apply length_map|].
    exists (fun s => includes valid (datePart (es_date s))). split.
    + intros s. rewrite includes_In, Hi. split.
      * intros [[]|[ws [Hws [Hk Hd]]]].
        destruct (endTime ws) as [t|] eqn:Et; [|discriminate].
        exists ws, t. repeat split; trivial.
        simpl in Hk. intros ->. discriminate.
      * intros [ws [t [Hws [Ht [Hnz Hd]]]]]. right. exists ws.
        repeat split; trivial. rewrite Ht. simpl.
        apply String.eqb_neq in Hnz. now rewrite Hnz.
    + intros i e Hi'. rewrite nth_error_map, Hi'. simpl.
      eexists. split; [reflexivity|]. simpl. repeat split.
Qed.

(** ** getMuscleGroupOrder *)

Lemma findIndex_none_inv (A : Type) (p : A -> bool) (l : list A) :
  findIndex p l = None -> forall y, In y l -> p y = false.
Proof.
  induction l as [|z r IH]; simpl; intros H y Hy; [contradiction|].
  destruct (p z) eqn:E; [discriminate|].
  destruct (findIndex p r); [discriminate|].
  destruct Hy as [<-|Hy]; auto.
Qed.

(** When the fallback scan of [getMuscleGroupOrder] finds nothing. *)
Lemma fallback_none (x category d : string) (exs : list (Exercise number)) :
  findIndex (fun ex => String.eqb (ex_id ex) x)
    (filter (fun ex =>
               String.eqb (ex_category ex) category
               && existsb (fun s =>
                             String.eqb (datePart (es_date s)) (datePart d)
                             && Nat.ltb 0 (List.length (es_sets s)))
                          (ex_sessions ex)) exs) = None <->
  (forall e s, In e exs -> ex_id e = x -> ex_category e = category ->
               In s (ex_sessions e) ->
               datePart (es_date s) = datePart d -> es_sets s = []).
Proof.
  split.
  - intros H e s He Hid Hcat Hs Hd.
    destruct (es_sets s) as [|w r] eqn:Es; trivial. exfalso.
    assert (Hf : String.eqb (ex_id e) x = false).
    { apply (findIndex_none_inv _ _ H). apply filter_In. split; trivial.
      apply andb_true_iff. split; [now apply String.eqb_eq|].
      apply existsb_exists. exists s. split; trivial.
      apply andb_true_iff. split; [now apply String.eqb_eq|].
      now rewrite Es. }
    apply String.eqb_neq in Hf. contradiction.
  - intros H. apply findIndex_none. intros e He.
    apply filter_In in He. destruct He as [He Hk].
    apply andb_true_iff in Hk. destruct Hk as [Hcat Hex].
    apply String.eqb_eq in Hcat.
    destruct (String.eqb (ex_id e) x) eqn:Ex; trivial.
    apply String.eqb_eq in Ex.
    apply existsb_exists in Hex. destruct Hex as [s0 [Hs0 Hk]].
    apply andb_true_iff in Hk. destruct Hk as [Hd Hlen].
    apply String.eqb_eq in Hd.
    rewrite (H e s0 He Ex Hcat Hs0 Hd) in Hlen. discriminate.
Qed.

(** C6 (as amended). Let [ws] be a workout session dated on the day of
    [d] with [exerciseIds = [A; B; C]]; let the exercises have distinct
    ids, [A] and [B] be of category "Push" and [C] of category "Pull".
    If no earlier session of that day lists [B], the order of [B] among
    "Push" is 2; if no earlier session of that day lists [C], the order
    of [C] among "Pull" is 1. The result is [null] exactly when both methods
    fail: no workout session of the day lists the exercise, or the
    exercise found under that id is not of the category; and no exercise
    with that id and category has a session with a set on that day. *)
Theorem getMuscleGroupOrder_rank_in_first_session :
  forall (wss : list WorkoutSession) (allExercises : list (Exercise number))
         (d : string),
    (forall (pre post : list WorkoutSession) (ws : WorkoutSession)
            (A B C : string) (eA eB eC : Exercise number),
        wss = pre ++ ws :: post ->
        datePart (startTime ws) = datePart d ->
        exerciseIds ws = [A; B; C] ->
        NoDup (map (@ex_id number) allExercises) ->
        In eA allExercises -> In eB allExercises -> In eC allExercises ->
        ex_id eA = A -> ex_id eB = B -> ex_id eC = C ->
        A <> B ->
        ex_category eA = "Push" -> ex_category eB = "Push" ->
        ex_category eC = "Pull" ->
        ((forall w, In w pre -> datePart (startTime w) = datePart d ->
                    ~ In B (exerciseIds w)) ->
         getMuscleGroupOrder B "Push" d wss allExercises = Some 2) /\
        ((forall w, In w pre -> datePart (startTime w) = datePart d ->
                    ~ In C (exerciseIds w)) ->
         getMuscleGroupOrder C "Pull" d wss allExercises = Some 1)) /\
    (forall x category,
        getMuscleGroupOrder x category d wss allExercises = None <->
        ((forall w, In w wss -> datePart (startTime w) = datePart d ->
                    ~ In x (exerciseIds w)) \/
         (forall ex, find (fun e => String.eqb (ex_id e) x) allExercises
                     = Some ex -> ex_category ex <> category)) /\
        (forall e s, In e allExercises -> ex_id e = x ->
                     ex_category e = category -> In s (ex_sessions e) ->
                     datePart (es_date s) = datePart d -> es_sets s = [])).
Proof.
  intros wss allExercises d. split.
  - intros pre post ws A B C eA eB eC
           Hwss Hdate Hids Hnd HinA HinB HinC HA HB HC HAB HcA HcB HcC.
    pose proof (find_by_key (@ex_id number) allExercises eA HinA Hnd) as FA.
    pose proof (find_by_key (@ex_id number) allExercises eB HinB Hnd) as FB.
    pose proof (find_by_key (@ex_id number) allExercises eC HinC Hnd) as FC.
    rewrite HA in FA. rewrite HB in FB. rewrite HC in FC.
    assert (Hfind : forall x, In x [B; C] ->
              (forall w, In w pre -> datePart (startTime w) = datePart d ->
                         ~ In x (exerciseIds w)) ->
              find (fun w => String.eqb (datePart (startTime w)) (datePart d)
                             && includes (exerciseIds w) x) wss = Some ws).
    { intros x Hx Hpre. rewrite Hwss. apply find_first.
      - intros w Hw.
        destruct (String.eqb (datePart (startTime w)) (datePart d)) eqn:E;
          trivial. simpl.
        apply String.eqb_eq in E.
        apply includes_not_In. exact (Hpre w Hw E).
      - rewrite Hdate, String.eqb_refl. simpl. apply includes_In.
        rewrite Hids. simpl in *. intuition auto. }
    assert (HAB' : String.eqb B A = false)
      by (apply String.eqb_neq; congruence).
    split.
    + intros Hpre. unfold getMuscleGroupOrder.
      rewrite (Hfind B) by (trivial; simpl; auto).
      rewrite Hids. simpl. rewrite FA, FB, FC, HcA, HcB, HcC. simpl.
      now rewrite HAB', String.eqb_refl.
    + intros Hpre. unfold getMuscleGroupOrder.
      rewrite (Hfind C) by (trivial; simpl; auto).
      rewrite Hids. simpl. rewrite FA, FB, FC, HcA, HcB, HcC. simpl.
      now rewrite String.eqb_refl.
  - intros x category. rewrite <- fallback_none.
    unfold getMuscleGroupOrder.
    set (fb := findIndex (fun ex => String.eqb (ex_id ex) x) _).
    set (p := fun w : WorkoutSession =>
                String.eqb (datePart (startTime w)) (datePart d)
                && includes (exerciseIds w) x).
    set (q := fun id : string =>
                match find (fun e : Exercise number => String.eqb (ex_id e) id)
                           allExercises with
                | Some ex => String.eqb (ex_category ex) category
                | None => false
                end).
    assert (Hp : forall w, p w = true <->
                   datePart (startTime w) = datePart d /\
                   In x (exerciseIds w)).
    { intros w. unfold p. now rewrite andb_true_iff, String.eqb_eq, includes_In. }
    destruct (find p wss) as [w|] eqn:Fw.
    + apply find_some in Fw. destruct Fw as [Hw Hpw].
      apply Hp in Hpw. destruct Hpw as [Hdw Hxw].
      destruct (findIndex (String.eqb x) (filter q (exerciseIds w)))
        as [idx|] eqn:Fi.
      * split; [discriminate|]. intros [[Hno|Hcat] _]; exfalso.
        -- exact (Hno w Hw Hdw Hxw).
        -- assert (Hq : q x = false).
           { unfold q.
             destruct (find (fun e : Exercise number => String.eqb (ex_id e) x)
                            allExercises) as [ex|] eqn:Fx; trivial.
             apply String.eqb_neq. now apply Hcat. }
           rewrite findIndex_none in Fi; [discriminate|].
           intros y Hy. apply filter_In in Hy. destruct Hy as [_ Hqy].
           destruct (String.eqb x y) eqn:Exy; trivial.
           apply String.eqb_eq in Exy. subst y. congruence.
      * assert (Hq : q x = false).
        { destruct (q x) eqn:Hq; trivial.
          assert (Hf : String.eqb x x = false).
          { apply (findIndex_none_inv _ _ Fi). apply filter_In. now split. }
          now rewrite String.eqb_refl in Hf. }
        destruct fb as [j|]; split; try discriminate; try reflexivity.
        -- intros [_ H]. discriminate.
        -- intros _. split; trivial. right. intros ex Fx.
           unfold q in Hq. rewrite Fx in Hq. now apply String.eqb_neq.
    + assert (Hnone : forall w, In w wss -> datePart (startTime w) = datePart d ->
                                ~ In x (exerciseIds w)).
      { intros w Hw Hdw Hxw.
        pose proof (List.find_none _ _ Fw w Hw) as Hf.
        assert (Ht : p w = true) by (apply Hp; now split). congruence. }
      destruct fb as [j|]; split; try discriminate; try reflexivity.
      * intros [_ H]. discriminate.
      * intros _. split; trivial. now left.
Qed.

(** ** getCurrentStreak *)

Section Streak.

Variable localTZA : Z -> bool -> Z.
Variable weeks : list string.

Local Abbreviation loop := (streak_loop localTZA weeks).

(** The loop from an iteration [i >= 1] on: it counts the weeks found
    until the first week that is missing or until it runs out of
    iterations. [K j] is the key of the week checked [j] iterations
    later. *)
Lemma streak_loop_counts :
  forall (n i : nat) (d : Date) (s : nat) (K : nat -> string),
    1 <= i ->
    (forall j, j < n ->
               getWeekKey localTZA (checkDate_at localTZA d j) = Some (K j)) ->
    exists c,
      loop n i d s = Some (s + c) /\ c <= n /\
      (forall j, j < c -> In (K j) weeks) /\
      (c < n -> ~ In (K c) weeks).
Proof.
  induction n as [|n IH]; intros i d s K Hi HK.
  - exists 0. cbn [streak_loop]. rewrite Nat.add_0_r.
    repeat split; trivial; lia.
  - cbn [streak_loop]. pose proof (HK 0 (Nat.lt_0_succ n)) as H0.
    change (checkDate_at localTZA d 0) with d in H0. rewrite H0.
    destruct (includes weeks (K 0)) eqn:E.
    + destruct (IH (S i) (addDays localTZA d (-7)) (S s) (fun j => K (S j)))
        as [c [Hc [Hle [Hin Hout]]]]; [lia| |].
      { intros j Hj. rewrite <- (HK (S j)) by lia.
        unfold checkDate_at. now rewrite Nat.iter_succ_r. }
      exists (S c). rewrite Hc. split; [f_equal; lia|]. split; [lia|].
      split.
      * intros [|j] Hj; [now apply includes_In|]. apply Hin. lia.
      * intros Hlt. apply Hout. lia.
    + destruct i as [|i]; [lia|]. cbn [Nat.eqb].
      exists 0. rewrite Nat.add_0_r. split; trivial. split; [lia|].
      split; [intros j Hj; lia|]. intros _. now apply includes_not_In.
Qed.

End Streak.

Lemma streak_loop_step localTZA weeks n i d s :
  streak_loop localTZA weeks (S n) i d s =
  match getWeekKey localTZA d with
  | None => None
  | Some weekKey =>
      if includes weeks weekKey
      then streak_loop localTZA weeks n (S i) (addDays localTZA d (-7)) (S s)
      else if Nat.eqb i 0
           then streak_loop localTZA weeks n (S i) (addDays localTZA d (-7)) s
           else Some s
  end.
Proof. reflexivity. Qed.

Lemma weeksWithWorkouts_from_nil localTZA Date_parse acc weeks :
  weeksWithWorkouts_from localTZA Date_parse [] acc = Some weeks -> weeks = acc.
Proof. simpl. congruence. Qed.

(** C4. When the keys of the 52 weeks walked can be computed ([W j] is
    the key of the week [j] weeks before the current one),
    [getCurrentStreak] returns a number [r <= 52]. If the current week
    has a workout, weeks [0 .. r-1] have one and week [r] has none (or
    [r = 52]); if it has none, it is skipped: weeks [1 .. r] have a
    workout and week [r+1] has none (or is beyond the walk). So weeks
    0, -1, -2 with a workout and week -3 without give 3, and weeks 0 and
    -2 without a workout and week -1 with one give 1. *)
Theorem getCurrentStreak_counts_weeks :
  forall (localTZA : Z -> bool -> Z) (Date_parse : string -> Date) (now : Z)
         (data : Data) (weeks : list string) (W : nat -> string),
    weeksWithWorkouts_from localTZA Date_parse (getUniqueWorkoutDates data) []
      = Some weeks ->
    (forall j, j < 52 ->
               getWeekKey localTZA (checkDate_at localTZA (TimeClip now) j)
               = Some (W j)) ->
    exists r,
      getCurrentStreak localTZA Date_parse now data = Some r /\
      r <= 52 /\
      (In (W 0) weeks ->
       (forall j, j < r -> In (W j) weeks) /\
       (r < 52 -> ~ In (W r) weeks)) /\
      (~ In (W 0) weeks ->
       (forall j, 1 <= j <= r -> In (W j) weeks) /\
       (r + 1 < 52 -> ~ In (W (r + 1)) weeks)) /\
      (In (W 0) weeks -> In (W 1) weeks -> In (W 2) weeks ->
       ~ In (W 3) weeks -> r = 3) /\
      (~ In (W 0) weeks -> In (W 1) weeks -> ~ In (W 2) weeks -> r = 1).
Proof.
  intros localTZA Date_parse now data weeks W Hweeks HW.
  assert (Hchar : exists r,
             getCurrentStreak localTZA Date_parse now data = Some r /\
             r <= 52 /\
             (In (W 0) weeks ->
              (forall j, j < r -> In (W j) weeks) /\
              (r < 52 -> ~ In (W r) weeks)) /\
             (~ In (W 0) weeks ->
              (forall j, 1 <= j <= r -> In (W j) weeks) /\
              (r + 1 < 52 -> ~ In (W (r + 1)) weeks))).
  { unfold getCurrentStreak.
    destruct (getUniqueWorkoutDates data) as [|d0 ds] eqn:Ed.
    - apply weeksWithWorkouts_from_nil in Hweeks. subst weeks.
      cbn [List.length Nat.eqb].
      exists 0. split; [reflexivity|]. split; [lia|].
      split; [intros []|]. intros _. split; [intros j Hj; lia|].
      intros _ [].
    - change (Nat.eqb (List.length (d0 :: ds)) 0) with false. cbv iota.
      rewrite Hweeks.
      cbv zeta. rewrite streak_loop_step. cbn [Nat.eqb].
      pose proof (HW 0 ltac:(lia)) as H0.
      change (checkDate_at localTZA (TimeClip now) 0) with (TimeClip now) in H0.
      rewrite H0.
      assert (HK : forall j, j < 51 ->
                getWeekKey localTZA
                  (checkDate_at localTZA
                     (addDays localTZA (TimeClip now) (-7)) j)
                = Some (W (S j))).
      { intros j Hj. rewrite <- (HW (S j)) by lia.
        unfold checkDate_at. now rewrite Nat.iter_succ_r. }
      destruct (includes weeks (W 0)) eqn:E.
      + destruct (@streak_loop_counts localTZA weeks 51 1
                    (addDays localTZA (TimeClip now) (-7)) 1 (fun j => W (S j))
                    (le_n 1) HK) as [c [Hc [Hle [Hin Hout]]]].
        exists (S c). rewrite Hc. split; [reflexivity|]. split; [lia|].
        apply includes_In in E. split; [|intros Hn; contradiction].
        intros _. split.
        * intros [|j] Hj; trivial. apply Hin. lia.
        * intros Hlt. apply Hout. lia.
      + destruct (@streak_loop_counts localTZA weeks 51 1
                    (addDays localTZA (TimeClip now) (-7)) 0 (fun j => W (S j))
                    (le_n 1) HK) as [c [Hc [Hle [Hin Hout]]]].
        exists c. rewrite Hc. split; [reflexivity|]. split; [lia|].
        apply includes_not_In in E. split; [intros Hn; contradiction|].
        intros _. split.
        * intros [|j] Hj; [lia|]. apply Hin. lia.
        * intros Hlt. replace (c + 1) with (S c) by lia. apply Hout. lia. }
  destruct Hchar as [r [Hr [Hle [Hpres Habs]]]].
  exists r. split; [exact Hr|]. split; [exact Hle|].
  split; [exact Hpres|]. split; [exact Habs|]. split.
  - intros H0 H1 H2 H3. destruct (Hpres H0) as [Hin Hout].
    destruct (Nat.lt_trichotomy r 3) as [Hlt|[Heq|Hgt]]; trivial; exfalso.
    + assert (Hr52 : r < 52) by lia. specialize (Hout Hr52).
      destruct r as [|[|[|r]]]; try lia; contradiction.
    + apply H3, Hin. lia.
  - intros H0 H1 H2. destruct (Habs H0) as [Hin Hout].
    destruct (Nat.lt_trichotomy r 1) as [Hlt|[Heq|Hgt]]; trivial; exfalso.
    + assert (r = 0) by lia. subst r. apply Hout; [lia|exact H1].
    + apply H2, Hin. lia.
Qed.

(** ** JSON texts *)

Section JsonFacts.

Variable Number_toString : number -> string.
Variable Number_ofString : string -> number.
Variable number_isFinite : number -> bool.

Local Abbreviation Value := (JSValue number).
Local Abbreviation serialize := (SerializeJSONProperty Number_toString number_isFinite).
Local Abbreviation faithful := (json_faithful Number_toString Number_ofString number_isFinite).
Local Abbreviation blank := (Forall (fun c => is_ws c = true)).

Lemma JSValue_nested_ind (P : Value -> Prop) :
  P JNull ->
  (forall b, P (JBool b)) ->
  (forall n, P (JNumber n)) ->
  (forall str, P (JString str)) ->
  (forall items, Forall P items -> P (JArray items)) ->
  (forall fields, Forall (fun kv => P (snd kv)) fields -> P (JObject fields)) ->
  forall v, P v.
Proof.
  intros Hnull Hbool Hnum Hstr Harr Hobj.
  fix IH 1. intros [ |b|n|str|items|fields].
  - exact Hnull.
  - apply Hbool.
  - apply Hnum.
  - apply Hstr.
  - apply Harr. induction items as [|x rest IHl]; constructor.
    + apply IH.
    + exact IHl.
  - apply Hobj. induction fields as [|kv rest IHl]; constructor.
    + apply IH.
    + exact IHl.
Qed.

Lemma skip_ws_blank (ws s : list ascii) :
  blank ws -> skip_ws (ws ++ s) = skip_ws s.
Proof.
  induction 1 as [|c r Hc Hr IH]; simpl; trivial. now rewrite Hc.
Qed.

Lemma skip_ws_stop (c : ascii) (s : list ascii) :
  is_ws c = false -> skip_ws (c :: s) = c :: s.
Proof. intros H. simpl. now rewrite H. Qed.

Lemma expect_prefix (lit s : list ascii) : expect lit (lit ++ s) = Some s.
Proof.
  induction lit as [|l r IH]; simpl; trivial. now rewrite Ascii.eqb_refl.
Qed.

(** Strings *)

Lemma parse_quoted_char (c : ascii) (s acc : list ascii) :
  parse_string_body (quote_char c ++ s) acc = parse_string_body s (c :: acc).
Proof.
  destruct c as [[] [] [] [] [] [] [] []]; reflexivity.
Qed.

Lemma parse_quoted_chars (l s acc : list ascii) :
  parse_string_body (flat_map quote_char l ++ "034"%char :: s) acc =
  Some (string_of_list_ascii (rev acc ++ l), s).
Proof.
  revert acc. induction l as [|c r IH]; intros acc.
  - simpl. now rewrite app_nil_r.
  - simpl flat_map. rewrite <- app_assoc, parse_quoted_char, IH.
    simpl. now rewrite <- app_assoc.
Qed.

Lemma parse_QuoteJSONString (str : string) (s : list ascii) :
  exists body,
    QuoteJSONString str ++ s = "034"%char :: body /\
    parse_string_body body [] = Some (str, s).
Proof.
  unfold QuoteJSONString. eexists. split.
  - simpl. rewrite <- app_assoc. reflexivity.
  - simpl. rewrite parse_quoted_chars. simpl.
    now rewrite string_of_list_ascii_of_string.
Qed.

(** Numbers *)

Lemma number_run_chars (run : list ascii) :
  forall st, number_run st run = true ->
             Forall (fun c => is_number_char c = true) run.
Proof.
  induction run as [|c r IH]; intros st H; constructor.
  - simpl in H. unfold is_number_char.
    destruct st; simpl in H;
      repeat match type of H with
             | context [if ?b then _ else _] => destruct b eqn:?
             end;
      try discriminate H;
      repeat match goal with
             | E : (_ || _)%bool = true |- _ => apply orb_true_iff in E; destruct E
             end;
      repeat match goal with
             | E : Ascii.eqb _ _ = true |- _ => apply Ascii.eqb_eq in E; subst
             end;
      try reflexivity;
      match goal with
      | E : is_digit _ = true |- _ => now rewrite E
      end.
  - simpl in H. destruct (number_step st c) as [st'|]; [|discriminate].
    now apply (IH st').
Qed.

Lemma number_run_first (c : ascii) (r : list ascii) :
  is_json_number (c :: r) = true ->
  (Ascii.eqb c "-" || is_digit c)%bool = true.
Proof.
  unfold is_json_number. simpl.
  destruct (Ascii.eqb c "-"); trivial.
  destruct (Ascii.eqb c "0") eqn:E0.
  - apply Ascii.eqb_eq in E0. subst. reflexivity.
  - destruct (is_digit c); trivial.
Qed.

(** A minus sign or a digit opens nothing but a number. *)
Lemma number_start_dispatch (c : ascii) :
  (Ascii.eqb c "-" || is_digit c)%bool = true ->
  is_ws c = false /\ Ascii.eqb c "n" = false /\ Ascii.eqb c "t" = false /\
  Ascii.eqb c "f" = false /\ Ascii.eqb c "034" = false /\
  Ascii.eqb c "[" = false /\ Ascii.eqb c "{" = false /\
  Ascii.eqb c "]" = false /\ Ascii.eqb c "}" = false.
Proof.
  destruct c as [[] [] [] [] [] [] [] []]; intros H;
    try discriminate H; repeat split.
Qed.

Lemma take_number_run (run rest : list ascii) :
  Forall (fun c => is_number_char c = true) run ->
  no_number_start rest ->
  take_number (run ++ rest) = (run, rest).
Proof.
  intros Hrun Hrest. induction Hrun as [|c r Hc Hr IH].
  - destruct rest as [|c r]; trivial.
    cbn [app take_number]. cbn [no_number_start] in Hrest. now rewrite Hrest.
  - cbn [app take_number]. now rewrite Hc, IH.
Qed.

Lemma parse_number_lexeme (run rest : list ascii) :
  is_json_number run = true ->
  no_number_start rest ->
  parse_number Number_ofString (run ++ rest) =
  Some (JNumber (Number_ofString (string_of_list_ascii run)), rest).
Proof.
  intros Hrun Hrest. unfold parse_number.
  rewrite take_number_run; trivial.
  - now rewrite Hrun.
  - now apply (number_run_chars _ NStart).
Qed.

(** The parser, one call at a time *)

Local Abbreviation parse_v := (parse_value Number_ofString).
Local Abbreviation parse_e := (parse_elements Number_ofString).
Local Abbreviation parse_m := (parse_members Number_ofString).

Lemma parse_value_eq (f : nat) (s : list ascii) :
  parse_v (S f) s =
  match skip_ws s with
  | [] => None
  | c :: rest =>
      if Ascii.eqb c "n" then
        match expect ["u"; "l"; "l"]%char rest with
        | Some rest' => Some (JNull, rest')
        | None => None
        end
      else if Ascii.eqb c "t" then
        match expect ["r"; "u"; "e"]%char rest with
        | Some rest' => Some (JBool true, rest')
        | None => None
        end
      else if Ascii.eqb c "f" then
        match expect ["a"; "l"; "s"; "e"]%char rest with
        | Some rest' => Some (JBool false, rest')
        | None => None
        end
      else if Ascii.eqb c "034" then
        match parse_string_body rest [] with
        | Some (str, rest') => Some (JString str, rest')
        | None => None
        end
      else if Ascii.eqb c "[" then
        match skip_ws rest with
        | c' :: rest' =>
            if Ascii.eqb c' "]" then Some (JArray [], rest')
            else parse_e f rest []
        | [] => None
        end
      else if Ascii.eqb c "{" then
        match skip_ws rest with
        | c' :: rest' =>
            if Ascii.eqb c' "}" then Some (JObject [], rest')
            else parse_m f rest []
        | [] => None
        end
      else if (Ascii.eqb c "-" || is_digit c)%bool
           then parse_number Number_ofString (c :: rest)
      else None
  end.
Proof. reflexivity. Qed.

Lemma parse_elements_eq (f : nat) (s : list ascii) (acc : list Value) :
  parse_e (S f) s acc =
  match parse_v f s with
  | None => None
  | Some (v, rest) =>
      match skip_ws rest with
      | c :: rest' =>
          if Ascii.eqb c "," then parse_e f rest' (acc ++ [v])
          else if Ascii.eqb c "]" then Some (JArray (acc ++ [v]), rest')
          else None
      | [] => None
      end
  end.
Proof. reflexivity. Qed.

Lemma parse_members_eq (f : nat) (s : list ascii)
      (acc : list (string * Value)) :
  parse_m (S f) s acc =
  match skip_ws s with
  | c :: rest =>
      if Ascii.eqb c "034" then
        match parse_string_body rest [] with
        | None => None
        | Some (k, rest1) =>
            match skip_ws rest1 with
            | c1 :: rest2 =>
                if Ascii.eqb c1 ":" then
                  match parse_v f rest2 with
                  | None => None
                  | Some (v, rest3) =>
                      match skip_ws rest3 with
                      | c3 :: rest4 =>
                          if Ascii.eqb c3 ","
                          then parse_m f rest4 (define_property acc k v)
                          else if Ascii.eqb c3 "}"
                          then Some (JObject (define_property acc k v), rest4)
                          else None
                      | [] => None
                      end
                  end
                else None
            | [] => None
            end
        end
      else None
  | [] => None
  end.
Proof. reflexivity. Qed.

Lemma parse_value_skip (f : nat) (ws s : list ascii) :
  blank ws -> parse_v f (ws ++ s) = parse_v f s.
Proof.
  intros H. destruct f; [reflexivity|].
  now rewrite !parse_value_eq, skip_ws_blank.
Qed.

Lemma parse_members_skip (f : nat) (ws s : list ascii)
      (acc : list (string * Value)) :
  blank ws -> parse_m f (ws ++ s) acc = parse_m f s acc.
Proof.
  intros H. destruct f; [reflexivity|].
  now rewrite !parse_members_eq, skip_ws_blank.
Qed.

Lemma define_property_fresh (acc : list (string * Value)) (k : string)
      (v : Value) :
  ~ In k (map fst acc) -> define_property acc k v = acc ++ [(k, v)].
Proof.
  induction acc as [|[k' v'] r IH]; simpl; intros H; trivial.
  destruct (String.eqb k' k) eqn:E.
  - apply String.eqb_eq in E. tauto.
  - f_equal. apply IH. tauto.
Qed.

(** What a serialized value starts with. *)
Lemma serialize_first (indent : list ascii) (v : Value) :
  faithful v ->
  exists c r, serialize indent v = c :: r /\ is_ws c = false /\
              Ascii.eqb c "]" = false.
Proof.
  destruct v as [ |[|]|n|str|[|x xs]|[|kv fields]]; intros Hv;
    try (eexists; eexists; split; [reflexivity|split; reflexivity]).
  simpl in Hv. destruct Hv as [Hfin [Hlex _]]. simpl. rewrite Hfin.
  destruct (list_ascii_of_string (Number_toString n)) as [|c r];
    [discriminate Hlex|].
  apply number_run_first, number_start_dispatch in Hlex.
  exists c, r. tauto.
Qed.

(** Reading back what was written *)

Local Abbreviation nl := ("010"%char).

Local Abbreviation reads_back v :=
  (forall indent rest fuel,
      blank indent -> no_number_start rest ->
      List.length (serialize indent v) <= fuel ->
      parse_v fuel (serialize indent v ++ rest) = Some (v, rest)).

Lemma skip_ws_close (stepback rest : list ascii) (c : ascii) :
  blank stepback -> is_ws c = false ->
  skip_ws ((nl :: stepback ++ [c]) ++ rest) = c :: rest.
Proof.
  intros Hb Hc.
  change ((nl :: stepback ++ [c]) ++ rest)
    with (nl :: ((stepback ++ [c]) ++ rest)).
  rewrite <- app_assoc.
  change (nl :: stepback ++ [c] ++ rest) with ((nl :: stepback) ++ c :: rest).
  rewrite skip_ws_blank by (constructor; [reflexivity|assumption]).
  now apply skip_ws_stop.
Qed.

Lemma parse_value_array (f : nat) (rest : list ascii) :
  parse_v (S f) ("["%char :: rest) =
  match skip_ws rest with
  | c' :: rest' =>
      if Ascii.eqb c' "]" then Some (JArray [], rest')
      else parse_e f rest []
  | [] => None
  end.
Proof. reflexivity. Qed.

Lemma parse_value_object (f : nat) (rest : list ascii) :
  parse_v (S f) ("{"%char :: rest) =
  match skip_ws rest with
  | c' :: rest' =>
      if Ascii.eqb c' "}" then Some (JObject [], rest')
      else parse_m f rest []
  | [] => None
  end.
Proof. reflexivity. Qed.

Lemma join_map_one (A : Type) (f : A -> list ascii) (sep close : list ascii)
      (x : A) :
  join_parts sep close (map f [x]) = f x ++ close.
Proof. reflexivity. Qed.

Lemma join_map_more (A : Type) (f : A -> list ascii) (sep close : list ascii)
      (x y : A) (ys : list A) :
  join_parts sep close (map f (x :: y :: ys)) =
  f x ++ sep ++ join_parts sep close (map f (y :: ys)).
Proof. reflexivity. Qed.

Lemma parse_elements_serialized (ind stepback : list ascii) :
  blank ind -> blank stepback ->
  forall xs : list Value,
    Forall (fun x => reads_back x) xs -> xs <> [] ->
    forall acc rest fuel,
      List.length
        (nl :: ind ++
           join_parts (","%char :: nl :: ind) (nl :: stepback ++ ["]"%char])
             (map (serialize ind) xs)) <= fuel ->
      parse_e fuel
        (nl :: ind ++
           (join_parts (","%char :: nl :: ind) (nl :: stepback ++ ["]"%char])
              (map (serialize ind) xs) ++ rest)) acc
      = Some (JArray (acc ++ xs), rest).
Proof.
  intros Hind Hstep xs Hxs.
  assert (Hnl : blank (nl :: ind)) by (constructor; [reflexivity|assumption]).
  induction Hxs as [|x xs Hx Hxs IH]; intros Hne acc rest fuel Hlen;
    [congruence|].
  destruct fuel as [|f]; [rewrite length_cons in Hlen; lia|].
  rewrite parse_elements_eq.
  change (nl :: ind ++ ?t) with ((nl :: ind) ++ t).
  rewrite parse_value_skip by exact Hnl.
  destruct xs as [|y ys].
  - rewrite join_map_one in *.
    rewrite length_cons, !length_app in Hlen.
    rewrite <- app_assoc.
    rewrite Hx; [|exact Hind|reflexivity|lia].
    rewrite skip_ws_close by (trivial; reflexivity).
    reflexivity.
  - rewrite join_map_more in *.
    rewrite length_cons, !length_app, !length_cons in Hlen.
    rewrite <- !app_assoc.
    rewrite Hx; [|exact Hind|reflexivity|lia].
    change ((","%char :: nl :: ind) ++ ?t) with (","%char :: (nl :: ind ++ t)).
    rewrite skip_ws_stop by reflexivity.
    change (Ascii.eqb "," ",") with true. cbv iota.
    rewrite (IH ltac:(discriminate) (acc ++ [x]) rest f).
    + now rewrite <- app_assoc.
    + rewrite length_cons, length_app. lia.
Qed.

Local Abbreviation member ind :=
  (fun kv : string * Value =>
     match kv with
     | (k, x) => QuoteJSONString k ++ [":"; " "]%char ++ serialize ind x
     end).

Lemma parse_members_serialized (ind stepback : list ascii) :
  blank ind -> blank stepback ->
  forall fields : list (string * Value),
    Forall (fun kv => reads_back (snd kv)) fields -> fields <> [] ->
    forall acc rest fuel,
      NoDup (map fst (acc ++ fields)) ->
      List.length
        (nl :: ind ++
           join_parts (","%char :: nl :: ind) (nl :: stepback ++ ["}"%char])
             (map (member ind) fields)) <= fuel ->
      parse_m fuel
        (nl :: ind ++
           (join_parts (","%char :: nl :: ind) (nl :: stepback ++ ["}"%char])
              (map (member ind) fields) ++ rest)) acc
      = Some (JObject (acc ++ fields), rest).
Proof.
  intros Hind Hstep fields Hfs.
  assert (Hnl : blank (nl :: ind)) by (constructor; [reflexivity|assumption]).
  induction Hfs as [|[k x] fields Hx Hfs IH]; intros Hne acc rest fuel Hnd Hlen;
    [congruence|].
  destruct fuel as [|f]; [rewrite length_cons in Hlen; lia|].
  assert (Hfresh : ~ In k (map fst acc)).
  { rewrite map_app in Hnd. simpl in Hnd. apply NoDup_remove_2 in Hnd.
    intros Hin. apply Hnd. apply in_or_app. now left. }
  simpl snd in Hx.
  rewrite parse_members_eq.
  change (nl :: ind ++ ?t) with ((nl :: ind) ++ t).
  rewrite skip_ws_blank by exact Hnl.
  destruct fields as [|kv' fields'].
  - rewrite join_map_one in *.
    rewrite length_cons, !length_app in Hlen.
    rewrite <- !app_assoc.
    destruct (parse_QuoteJSONString k
                ([":"; " "]%char ++ serialize ind x
                   ++ (nl :: stepback ++ ["}"%char]) ++ rest))
      as [body [Eq Hbody]].
    rewrite Eq. rewrite skip_ws_stop by reflexivity.
    rewrite Ascii.eqb_refl, Hbody.
    change ([":"; " "]%char ++ ?t) with (":"%char :: ([" "%char] ++ t)).
    rewrite skip_ws_stop by reflexivity.
    rewrite Ascii.eqb_refl.
    rewrite parse_value_skip by (repeat constructor).
    rewrite Hx; [|exact Hind|reflexivity|lia].
    rewrite skip_ws_close by (trivial; reflexivity).
    change (Ascii.eqb "}" ",") with false. rewrite Ascii.eqb_refl. cbv iota.
    now rewrite define_property_fresh.
  - rewrite join_map_more in *.
    rewrite length_cons, !length_app, !length_cons in Hlen.
    rewrite <- !app_assoc.
    destruct (parse_QuoteJSONString k
                ([":"; " "]%char ++ serialize ind x
                   ++ (","%char :: nl :: ind)
                   ++ join_parts (","%char :: nl :: ind)
                        (nl :: stepback ++ ["}"%char])
                        (map (member ind) (kv' :: fields')) ++ rest))
      as [body [Eq Hbody]].
    rewrite Eq. rewrite skip_ws_stop by reflexivity.
    rewrite Ascii.eqb_refl, Hbody.
    change ([":"; " "]%char ++ ?t) with (":"%char :: ([" "%char] ++ t)).
    rewrite skip_ws_stop by reflexivity.
    rewrite Ascii.eqb_refl.
    rewrite parse_value_skip by (repeat constructor).
    rewrite Hx; [|exact Hind|reflexivity|lia].
    change ((","%char :: nl :: ind) ++ ?t) with (","%char :: (nl :: ind ++ t)).
    rewrite skip_ws_stop by reflexivity.
    rewrite Ascii.eqb_refl.
    rewrite define_property_fresh by exact Hfresh.
    rewrite (IH ltac:(discriminate) (acc ++ [(k, x)]) rest f).
    + now rewrite <- app_assoc.
    + now rewrite <- app_assoc.
    + rewrite length_cons, length_app. lia.
Qed.

Lemma faithful_array (items : list Value) :
  faithful (JArray items) <-> Forall (fun x => faithful x) items.
Proof.
  induction items as [|x r IH].
  - split; [constructor|reflexivity].
  - split.
    + intros [Hx Hr]. constructor; [exact Hx|]. now apply IH.
    + intros H. inversion H as [|? ? Hx Hr]; subst.
      split; [exact Hx|]. now apply IH.
Qed.

Lemma faithful_object (fields : list (string * Value)) :
  faithful (JObject fields) <->
  NoDup (map fst fields) /\ Forall (fun kv => faithful (snd kv)) fields.
Proof.
  simpl. apply and_iff_compat_l.
  induction fields as [|kv r IH].
  - split; [constructor|reflexivity].
  - split.
    + intros [Hx Hr]. constructor; [exact Hx|]. now apply IH.
    + intros H. inversion H as [|? ? Hx Hr]; subst.
      split; [exact Hx|]. now apply IH.
Qed.

Lemma Forall_modus_ponens (A : Type) (P Q : A -> Prop) (l : list A) :
  Forall (fun x => P x -> Q x) l -> Forall P l -> Forall Q l.
Proof.
  induction 1 as [|x r Hx Hr IH]; intros HP; constructor;
    inversion HP; subst; auto.
Qed.

(** Parsing the text written for a faithful value, whatever follows it
    (as long as that cannot extend a number), gives the value back and
    stops right after it; a fuel of the length of the text is enough. *)
Lemma serialize_reads_back (v : Value) : faithful v -> reads_back v.
Proof.
  induction v as [ |b|n|str|items IH|fields IH] using JSValue_nested_ind;
    intros Hv indent rest fuel Hind Hrest Hlen;
    (destruct fuel as [|f];
     [destruct (serialize_first indent _ Hv) as [c [r [E _]]];
      rewrite E, length_cons in Hlen; lia|]).
  - reflexivity.
  - destruct b; reflexivity.
  - destruct Hv as [Hfin [Hlex Hrt]].
    cbn [SerializeJSONProperty]. rewrite Hfin.
    destruct (list_ascii_of_string (Number_toString n)) as [|c r] eqn:E;
      [discriminate Hlex|].
    pose proof (number_run_first _ _ Hlex) as Hc.
    destruct (number_start_dispatch _ Hc)
      as [Hws [Hn [Ht [Hf [Hq [Ha [Ho _]]]]]]].
    rewrite parse_value_eq. cbn [app]. rewrite skip_ws_stop by exact Hws.
    rewrite Hn, Ht, Hf, Hq, Ha, Ho, Hc.
    change (c :: r ++ rest) with ((c :: r) ++ rest).
    rewrite parse_number_lexeme by assumption.
    now rewrite <- E, string_of_list_ascii_of_string, Hrt.
  - cbn [SerializeJSONProperty].
    destruct (parse_QuoteJSONString str rest) as [body [Eq Hbody]].
    rewrite Eq. rewrite parse_value_eq, skip_ws_stop by reflexivity.
    change (Ascii.eqb "034" "n") with false.
    change (Ascii.eqb "034" "t") with false.
    change (Ascii.eqb "034" "f") with false.
    rewrite Ascii.eqb_refl. cbv iota. now rewrite Hbody.
  - apply faithful_array in Hv.
    pose proof (@Forall_modus_ponens _ _ _ _ IH Hv) as Hitems.
    destruct items as [|x xs]; [reflexivity|].
    change (serialize indent (JArray (x :: xs)))
      with ("["%char :: nl :: (indent ++ gap)
              ++ join_parts (","%char :: nl :: indent ++ gap)
                   (nl :: indent ++ ["]"%char])
                   (map (serialize (indent ++ gap)) (x :: xs))) in *.
    assert (Hind' : blank (indent ++ gap)).
    { apply Forall_app. split; [exact Hind|]. repeat constructor. }
    change (("["%char :: nl :: ?a) ++ ?b) with ("["%char :: (nl :: a ++ b)).
    rewrite parse_value_array.
    rewrite length_cons in Hlen.
    inversion Hv as [|? ? Hx _]; subst.
    destruct (serialize_first (indent ++ gap) x Hx) as [c [r [E [Hws Hc]]]].
    assert (Hskip : exists t,
      skip_ws (nl :: ((indent ++ gap)
                 ++ join_parts (","%char :: nl :: indent ++ gap)
                      (nl :: indent ++ ["]"%char])
                      (map (serialize (indent ++ gap)) (x :: xs))) ++ rest)
      = c :: t).
    { rewrite <- app_assoc.
      change (nl :: (indent ++ gap) ++ ?t) with ((nl :: indent ++ gap) ++ t).
      rewrite skip_ws_blank by (constructor; [reflexivity|exact Hind']).
      destruct xs as [|y ys].
      - rewrite join_map_one, E. cbn [app]. rewrite skip_ws_stop by exact Hws.
        eexists. reflexivity.
      - rewrite join_map_more, E. cbn [app]. rewrite skip_ws_stop by exact Hws.
        eexists. reflexivity. }
    destruct Hskip as [t Hskip].
    rewrite Hskip, Hc.
    rewrite <- app_assoc.
    apply (parse_elements_serialized Hind' Hind Hitems);
      [discriminate|exact (le_S_n _ _ Hlen)].
  - apply faithful_object in Hv. destruct Hv as [Hnd Hv].
    pose proof (@Forall_modus_ponens _ _ _ _ IH Hv) as Hfields.
    destruct fields as [|[k x] fs]; [reflexivity|].
    change (serialize indent (JObject ((k, x) :: fs)))
      with ("{"%char :: nl :: (indent ++ gap)
              ++ join_parts (","%char :: nl :: indent ++ gap)
                   (nl :: indent ++ ["}"%char])
                   (map (member (indent ++ gap)) ((k, x) :: fs))) in *.
    assert (Hind' : blank (indent ++ gap)).
    { apply Forall_app. split; [exact Hind|]. repeat constructor. }
    change (("{"%char :: nl :: ?a) ++ ?b) with ("{"%char :: (nl :: a ++ b)).
    rewrite parse_value_object.
    rewrite length_cons in Hlen.
    assert (Hskip : exists t,
      skip_ws (nl :: ((indent ++ gap)
                 ++ join_parts (","%char :: nl :: indent ++ gap)
                      (nl :: indent ++ ["}"%char])
                      (map (member (indent ++ gap)) ((k, x) :: fs))) ++ rest)
      = "034"%char :: t).
    { rewrite <- app_assoc.
      change (nl :: (indent ++ gap) ++ ?t) with ((nl :: indent ++ gap) ++ t).
      rewrite skip_ws_blank by (constructor; [reflexivity|exact Hind']).
      destruct fs as [|kv' fs'].
      - rewrite join_map_one. unfold QuoteJSONString. cbn [app].
        rewrite skip_ws_stop by reflexivity. eexists. reflexivity.
      - rewrite join_map_more. unfold QuoteJSONString. cbn [app].
        rewrite skip_ws_stop by reflexivity. eexists. reflexivity. }
    destruct Hskip as [t Hskip]. rewrite Hskip.
    change (Ascii.eqb "034" "}") with false. cbv iota.
    rewrite <- app_assoc.
    apply (parse_members_serialized Hind' Hind Hfields);
      [discriminate|exact Hnd|exact (le_S_n _ _ Hlen)].
Qed.

(** Every faithful value survives [JSON.parse(JSON.stringify(v, null, 2))]. *)
Lemma JSON_parse_stringify (v : Value) :
  faithful v ->
  JSON_parse Number_ofString (JSON_stringify Number_toString number_isFinite v)
  = Some v.
Proof.
  intros Hv. unfold JSON_parse, JSON_stringify.
  rewrite list_ascii_of_string_of_list_ascii.
  pose proof (@serialize_reads_back v Hv [] []
                (S (List.length (serialize [] v)))
                (Forall_nil _) I (Nat.le_succ_diag_r _)) as H.
  rewrite app_nil_r in H. now rewrite H.
Qed.

(** Fuel *)

Lemma skip_ws_length (s : list ascii) :
  List.length (skip_ws s) <= List.length s.
Proof.
  induction s as [|c r IH]; simpl; trivial.
  destruct (is_ws c); simpl; lia.
Qed.

Lemma expect_length (lit s r : list ascii) :
  expect lit s = Some r -> List.length r <= List.length s.
Proof.
  revert s. induction lit as [|l lit' IH]; intros [|c s'] H; simpl in H;
    try discriminate; try (injection H as <-; lia).
  destruct (Ascii.eqb c l); [|discriminate].
  apply IH in H. simpl. lia.
Qed.

Lemma parse_string_body_length (s acc : list ascii) (str : string)
      (r : list ascii) :
  parse_string_body s acc = Some (str, r) -> List.length r < List.length s.
Proof.
  revert acc. induction s as [s IH] using (well_founded_induction
    (Wf_nat.well_founded_ltof _ (@List.length ascii))).
  unfold Wf_nat.ltof in IH. intros acc H.
  destruct s as [|c rest]; [discriminate|]. simpl in H.
  destruct (Ascii.eqb c "034"); [injection H as _ <-; simpl; lia|].
  destruct (Ascii.eqb c "\").
  - destruct rest as [|e rest']; [discriminate|].
    repeat match type of H with
           | (if ?b then _ else _) = _ =>
               destruct b;
               [apply IH in H; simpl in *; lia|]
           end.
    destruct (Ascii.eqb e "u"); [|discriminate].
    destruct rest' as [|h1 [|h2 [|h3 [|h4 rest'']]]]; try discriminate.
    destruct (hex_value h1), (hex_value h2), (hex_value h3), (hex_value h4);
      try discriminate.
    match type of H with
    | (if ?b then _ else _) = _ => destruct b; [|discriminate]
    end.
    apply IH in H; simpl in *; lia.
  - destruct (nat_of_ascii c <? 32)%nat; [discriminate|].
    apply IH in H; simpl in *; lia.
Qed.

Lemma take_number_length (s run r : list ascii) :
  take_number s = (run, r) ->
  List.length s = List.length run + List.length r.
Proof.
  revert run r. induction s as [|c s' IH]; intros run r H; simpl in H.
  - injection H as <- <-. reflexivity.
  - destruct (is_number_char c).
    + destruct (take_number s') as [run' r'] eqn:E.
      injection H as <- <-. simpl. now rewrite (IH _ _ eq_refl).
    + injection H as <- <-. reflexivity.
Qed.

Lemma parse_number_length (s : list ascii) (v : Value) (r : list ascii) :
  parse_number Number_ofString s = Some (v, r) ->
  List.length r < List.length s.
Proof.
  unfold parse_number. destruct (take_number s) as [run r'] eqn:E.
  destruct (is_json_number run) eqn:Hrun; [|discriminate].
  intros H. injection H as _ <-.
  apply take_number_length in E.
  destruct run; [discriminate Hrun|]. simpl in E. lia.
Qed.

(** A successful call returns a strictly shorter text. *)
Lemma parse_shortens (f : nat) :
  (forall s v r, parse_v f s = Some (v, r) ->
                 List.length r < List.length s) /\
  (forall s acc v r, parse_e f s acc = Some (v, r) ->
                     List.length r < List.length s) /\
  (forall s acc v r, parse_m f s acc = Some (v, r) ->
                     List.length r < List.length s).
Proof.
  induction f as [|f [IHv [IHe IHm]]];
    [repeat split; intros; discriminate|].
  split; [|split].
  - intros s v r H. rewrite parse_value_eq in H.
    pose proof (skip_ws_length s) as Hs.
    destruct (skip_ws s) as [|c rest]; [discriminate|]. simpl in Hs.
    destruct (Ascii.eqb c "n").
    { destruct (expect _ rest) as [r'|] eqn:E; [|discriminate].
      injection H as _ <-. apply expect_length in E. lia. }
    destruct (Ascii.eqb c "t").
    { destruct (expect _ rest) as [r'|] eqn:E; [|discriminate].
      injection H as _ <-. apply expect_length in E. lia. }
    destruct (Ascii.eqb c "f").
    { destruct (expect _ rest) as [r'|] eqn:E; [|discriminate].
      injection H as _ <-. apply expect_length in E. lia. }
    destruct (Ascii.eqb c "034").
    { destruct (parse_string_body rest []) as [[str r']|] eqn:E; [|discriminate].
      injection H as _ <-. apply parse_string_body_length in E. lia. }
    destruct (Ascii.eqb c "[").
    { pose proof (skip_ws_length rest) as Hr.
      destruct (skip_ws rest) as [|c' rest']; [discriminate|]. simpl in Hr.
      destruct (Ascii.eqb c' "]"); [injection H as _ <-; lia|].
      apply IHe in H. lia. }
    destruct (Ascii.eqb c "{").
    { pose proof (skip_ws_length rest) as Hr.
      destruct (skip_ws rest) as [|c' rest']; [discriminate|]. simpl in Hr.
      destruct (Ascii.eqb c' "}"); [injection H as _ <-; lia|].
      apply IHm in H. lia. }
    destruct (Ascii.eqb c "-" || is_digit c)%bool; [|discriminate].
    apply parse_number_length in H. simpl in H. lia.
  - intros s acc v r H. rewrite parse_elements_eq in H.
    destruct (parse_v f s) as [[v1 r1]|] eqn:E1; [|discriminate].
    apply IHv in E1.
    pose proof (skip_ws_length r1) as Hr.
    destruct (skip_ws r1) as [|c r2]; [discriminate|]. simpl in Hr.
    destruct (Ascii.eqb c ","); [apply IHe in H; lia|].
    destruct (Ascii.eqb c "]"); [|discriminate].
    injection H as _ <-. lia.
  - intros s acc v r H. rewrite parse_members_eq in H.
    pose proof (skip_ws_length s) as Hs.
    destruct (skip_ws s) as [|c rest]; [discriminate|]. simpl in Hs.
    destruct (Ascii.eqb c "034"); [|discriminate].
    destruct (parse_string_body rest []) as [[k rest1]|] eqn:Ek; [|discriminate].
    apply parse_string_body_length in Ek.
    pose proof (skip_ws_length rest1) as H1.
    destruct (skip_ws rest1) as [|c1 rest2]; [discriminate|]. simpl in H1.
    destruct (Ascii.eqb c1 ":"); [|discriminate].
    destruct (parse_v f rest2) as [[v1 rest3]|] eqn:E1; [|discriminate].
    apply IHv in E1.
    pose proof (skip_ws_length rest3) as H3.
    destruct (skip_ws rest3) as [|c3 rest4]; [discriminate|]. simpl in H3.
    destruct (Ascii.eqb c3 ","); [apply IHm in H; lia|].
    destruct (Ascii.eqb c3 "}"); [|discriminate].
    injection H as _ <-. lia.
Qed.

(** A call that succeeds with some fuel succeeds, with the same result,
    with any fuel that is at least the number of characters it read. *)
Lemma parse_fuel_enough (f : nat) :
  (forall s v r, parse_v f s = Some (v, r) ->
     forall k, List.length s - List.length r <= k ->
               parse_v k s = Some (v, r)) /\
  (forall s acc v r, parse_e f s acc = Some (v, r) ->
     forall k, List.length s - List.length r <= k ->
               parse_e k s acc = Some (v, r)) /\
  (forall s acc v r, parse_m f s acc = Some (v, r) ->
     forall k, List.length s - List.length r <= k ->
               parse_m k s acc = Some (v, r)).
Proof.
  induction f as [|f [IHv [IHe IHm]]];
    [repeat split; intros; discriminate|].
  destruct (parse_shortens f) as [Sv [Se Sm]].
  split; [|split].
  - intros s v r H k Hk.
    pose proof (proj1 (parse_shortens (S f)) _ _ _ H) as Hlt.
    destruct k as [|k]; [lia|].
    rewrite parse_value_eq in H |- *.
    pose proof (skip_ws_length s) as Hs.
    destruct (skip_ws s) as [|c rest]; [discriminate|]. simpl in Hs.
    destruct (Ascii.eqb c "n"); [exact H|].
    destruct (Ascii.eqb c "t"); [exact H|].
    destruct (Ascii.eqb c "f"); [exact H|].
    destruct (Ascii.eqb c "034"); [exact H|].
    destruct (Ascii.eqb c "[").
    { destruct (skip_ws rest) as [|c' rest']; [discriminate|].
      destruct (Ascii.eqb c' "]"); [exact H|].
      apply (IHe _ _ _ _ H). lia. }
    destruct (Ascii.eqb c "{").
    { destruct (skip_ws rest) as [|c' rest']; [discriminate|].
      destruct (Ascii.eqb c' "}"); [exact H|].
      apply (IHm _ _ _ _ H). lia. }
    exact H.
  - intros s acc v r H k Hk.
    pose proof (proj1 (proj2 (parse_shortens (S f))) _ _ _ _ H) as Hlt.
    destruct k as [|k]; [lia|].
    rewrite parse_elements_eq in H |- *.
    destruct (parse_v f s) as [[v1 r1]|] eqn:E1; [|discriminate].
    pose proof (Sv _ _ _ E1) as L1.
    pose proof (skip_ws_length r1) as Hr.
    destruct (skip_ws r1) as [|c r2] eqn:Er; [discriminate|]. simpl in Hr.
    assert (Hr' : List.length r < List.length r1).
    { destruct (Ascii.eqb c ",").
      - apply Se in H. lia.
      - destruct (Ascii.eqb c "]"); [|discriminate]. injection H as _ <-. lia. }
    rewrite (IHv _ _ _ E1 k) by lia. rewrite Er.
    destruct (Ascii.eqb c ","); [|exact H].
    apply (IHe _ _ _ _ H). lia.
  - intros s acc v r H k Hk.
    pose proof (proj2 (proj2 (parse_shortens (S f))) _ _ _ _ H) as Hlt.
    destruct k as [|k]; [lia|].
    rewrite parse_members_eq in H |- *.
    pose proof (skip_ws_length s) as Hs.
    destruct (skip_ws s) as [|c rest]; [discriminate|]. simpl in Hs.
    destruct (Ascii.eqb c "034"); [|discriminate].
    destruct (parse_string_body rest []) as [[key rest1]|] eqn:Ek; [|discriminate].
    apply parse_string_body_length in Ek.
    pose proof (skip_ws_length rest1) as H1.
    destruct (skip_ws rest1) as [|c1 rest2]; [discriminate|]. simpl in H1.
    destruct (Ascii.eqb c1 ":"); [|discriminate].
    destruct (parse_v f rest2) as [[v1 rest3]|] eqn:E1; [|discriminate].
    pose proof (Sv _ _ _ E1) as L1.
    pose proof (skip_ws_length rest3) as H3.
    destruct (skip_ws rest3) as [|c3 rest4] eqn:E3; [discriminate|]. simpl in H3.
    assert (Hr' : List.length r < List.length rest3).
    { destruct (Ascii.eqb c3 ",").
      - apply Sm in H. lia.
      - destruct (Ascii.eqb c3 "}"); [|discriminate]. injection H as _ <-. lia. }
    rewrite (IHv _ _ _ E1 k) by lia. rewrite E3.
    destruct (Ascii.eqb c3 ","); [|exact H].
    apply (IHm _ _ _ _ H). lia.
Qed.

(** The fuel [JSON_parse] gives never makes it reject a text: if the text
    is a value followed by white space for some fuel, [JSON_parse]
    returns that value. *)
Lemma JSON_parse_complete (text : string) (f : nat) (v : Value)
      (r : list ascii) :
  parse_v f (list_ascii_of_string text) = Some (v, r) ->
  skip_ws r = [] ->
  JSON_parse Number_ofString text = Some v.
Proof.
  intros H Hr. unfold JSON_parse.
  rewrite (proj1 (parse_fuel_enough f) _ _ _ H) by lia.
  now rewrite Hr.
Qed.

End JsonFacts.

(** ** import and export *)

Section ImportExport.

Variable Number_toString : number -> string.
Variable Number_ofString : string -> number.
Variable number_isFinite : number -> bool.
Variable number_truthy : number -> bool.

Local Abbreviation Value := (JSValue number).
Local Abbreviation faithful :=
  (json_faithful Number_toString Number_ofString number_isFinite).
Local Abbreviation import := (importData Number_ofString number_truthy).
Local Abbreviation export := (exportData Number_toString number_isFinite).

Lemma map_option_map (A B : Type) (g : A -> B) (f : B -> option A)
      (l : list A) :
  (forall x, f (g x) = Some x) -> map_option f (map g l) = Some l.
Proof.
  intros H. induction l as [|x r IH]; simpl; trivial. now rewrite H, IH.
Qed.

Lemma Set_ofJS_toJS (st : WSet number) : Set_ofJS (Set_toJS st) = Some st.
Proof. now destruct st. Qed.

Lemma ExerciseSession_ofJS_toJS (es : ExerciseSession number) :
  ExerciseSession_ofJS (ExerciseSession_toJS es) = Some es.
Proof.
  destruct es as [i d sets]. unfold ExerciseSession_ofJS. simpl.
  now rewrite (map_option_map _ _ _ Set_ofJS_toJS).
Qed.

Lemma Exercise_ofJS_toJS (e : Exercise number) :
  Exercise_ofJS (Exercise_toJS e) = Some e.
Proof.
  destruct e as [i n c sessions]. unfold Exercise_ofJS. simpl.
  now rewrite (map_option_map _ _ _ ExerciseSession_ofJS_toJS).
Qed.

Lemma WorkoutSession_ofJS_toJS (ws : WorkoutSession) :
  @WorkoutSession_ofJS number (WorkoutSession_toJS number ws) = Some ws.
Proof.
  destruct ws as [i st et ids dw]. unfold WorkoutSession_ofJS.
  assert (Hids : map_option (@as_string number) (map JString ids) = Some ids)
    by (apply map_option_map; reflexivity).
  destruct et as [e|], dw as [b|]; simpl; now rewrite Hids.
Qed.

(** Read back at the declared types, the value of a snapshot is the
    snapshot. *)
Lemma WorkoutData_ofJS_toJS (data : Data) :
  WorkoutData_ofJS (WorkoutData_toJS data) = Some data.
Proof.
  destruct data as [exs wss]. unfold WorkoutData_ofJS. simpl.
  rewrite (map_option_map _ _ _ Exercise_ofJS_toJS).
  now rewrite (map_option_map _ _ _ WorkoutSession_ofJS_toJS).
Qed.

Ltac distinct_keys := repeat constructor; simpl; intuition discriminate.

Lemma WorkoutSession_toJS_faithful (ws : WorkoutSession) :
  faithful (WorkoutSession_toJS number ws).
Proof.
  destruct ws as [i st et ids dw].
  apply faithful_object. split.
  - destruct et, dw; distinct_keys.
  - assert (Hids : faithful (JArray (map JString ids))).
    { apply faithful_array, Forall_map, Forall_forall. intros x _. exact I. }
    destruct et, dw; repeat constructor; exact Hids.
Qed.

Lemma WorkoutData_toJS_faithful (data : Data) :
  snapshot_faithful Number_toString Number_ofString number_isFinite data ->
  faithful (WorkoutData_toJS data).
Proof.
  intros Hdata.
  apply faithful_object. split; [distinct_keys|].
  constructor; [|constructor; [|constructor]].
  - apply faithful_array, Forall_map, Forall_forall. intros e He.
    apply faithful_object. split; [distinct_keys|].
    repeat constructor.
    apply faithful_array, Forall_map, Forall_forall. intros es Hes.
    apply faithful_object. split; [distinct_keys|].
    repeat constructor.
    apply faithful_array, Forall_map, Forall_forall. intros st Hst.
    apply faithful_object. split; [distinct_keys|].
    destruct (Hdata e es st He Hes Hst) as [Hr Hw].
    constructor; [exact Hr|constructor; [exact Hw|constructor]].
  - apply faithful_array, Forall_map, Forall_forall. intros ws _.
    apply WorkoutSession_toJS_faithful.
Qed.

(** [importData] returns the parsed value or nothing. *)
Lemma importData_accepts (text : string) (v : Value) :
  import text = Some v <->
  JSON_parse Number_ofString text = Some v /\
  exists l, get_property v "exercises" = Some (JArray l).
Proof.
  unfold importData.
  destruct (JSON_parse Number_ofString text) as [data|]; [|split; [discriminate|intros [H _]; discriminate]].
  destruct (get_property data "exercises") as [[ | | | |l| ]|] eqn:E;
    try (rewrite andb_false_r; split;
         [discriminate|intros [H [l' Hl]]; injection H as <-; congruence]).
  destruct data; try discriminate E. simpl. split.
  - intros H. injection H as <-. split; trivial. exists l. exact E.
  - intros [H _]. exact H.
Qed.

(** C7. For every snapshot whose numbers are carried faithfully by JSON,
    importing the exported text returns the value of the snapshot, which
    read at the declared types is the snapshot itself: same exercises,
    sessions and sets, same workout sessions, in the same order. More
    generally every faithful value with an [exercises] array is imported
    as it was exported. [importData] returns [null] exactly when the
    text does not parse or the parsed value has no array under
    [exercises]; otherwise it returns the parsed value. *)
Theorem import_export_round_trip :
  (forall data : Data,
      snapshot_faithful Number_toString Number_ofString number_isFinite data ->
      exists v,
        import (export (WorkoutData_toJS data)) = Some v /\
        v = WorkoutData_toJS data /\
        WorkoutData_ofJS v = Some data) /\
  (forall v : Value,
      faithful v ->
      (exists l, get_property v "exercises" = Some (JArray l)) ->
      import (export v) = Some v) /\
  (forall text : string,
      import text = None <->
      JSON_parse Number_ofString text = None \/
      exists v, JSON_parse Number_ofString text = Some v /\
                forall l, get_property v "exercises" <> Some (JArray l)) /\
  (forall text v, import text = Some v ->
                  JSON_parse Number_ofString text = Some v).
Proof.
  assert (Hround : forall v : Value,
             faithful v ->
             (exists l, get_property v "exercises" = Some (JArray l)) ->
             import (export v) = Some v).
  { intros v Hv Hex. apply importData_accepts. split; [|exact Hex].
    unfold exportData. now apply JSON_parse_stringify. }
  split; [|split; [exact Hround|split]].
  - intros data Hdata. exists (WorkoutData_toJS data).
    split; [|split; [reflexivity|apply WorkoutData_ofJS_toJS]].
    apply Hround.
    + now apply WorkoutData_toJS_faithful.
    + eexists. reflexivity.
  - intros text. split.
    + intros Hnone.
      destruct (JSON_parse Number_ofString text) as [v|] eqn:Ep; [|now left].
      right. exists v. split; trivial. intros l Hl.
      assert (H : import text = Some v).
      { apply importData_accepts. split; trivial. now exists l. }
      congruence.
    + intros [Hp|[v [Hp Hno]]].
      * unfold importData. now rewrite Hp.
      * destruct (import text) as [v'|] eqn:Ei; trivial.
        apply importData_accepts in Ei. destruct Ei as [Hp' [l Hl]].
        rewrite Hp in Hp'. injection Hp' as <-. exfalso. exact (Hno l Hl).
  - intros text v H. now apply importData_accepts in H.
Qed.

(** ** Derivations on imported values *)

Lemma fold_throwing_map (A B C : Type) (g : C -> B)
      (f : A -> B -> option A) (f' : A -> C -> A) (l : list C) (acc : A) :
  (forall a x, f a (g x) = Some (f' a x)) ->
  fold_throwing f (map g l) acc = Some (fold_left f' l acc).
Proof.
  intros H. revert acc. induction l as [|x r IH]; intros acc; simpl; trivial.
  now rewrite H, IH.
Qed.

(** On the value of a snapshot the statements of [getUniqueWorkoutDates]
    compute what the typed function computes. *)
Lemma getUniqueWorkoutDates_js_toJS (data : Data) :
  getUniqueWorkoutDates_js number_truthy (WorkoutData_toJS data) =
  Some (getUniqueWorkoutDates data).
Proof.
  destruct data as [exs wss].
  unfold getUniqueWorkoutDates_js, getUniqueWorkoutDates. simpl.
  rewrite (fold_throwing_map (@Exercise_toJS number) _
             (fun dates exercise =>
                fold_left (fun dates' session =>
                             set_add dates' (datePart (es_date session)))
                          (ex_sessions exercise) dates)).
  - rewrite (fold_throwing_map (WorkoutSession_toJS number) _
               (fun dates session =>
                  if truthy_bool (isDwarfWorkout session)
                     && truthy_string (endTime session)
                  then set_add dates (datePart (startTime session))
                  else dates)); trivial.
    intros a [i st et ids dw].
    destruct et as [e|], dw as [[|]|]; simpl; trivial;
      destruct (String.eqb e ""); reflexivity.
  - intros a [i n c sessions]. simpl.
    apply (fold_throwing_map (@ExerciseSession_toJS number)).
    intros a' [i' d sets]. reflexivity.
Qed.

(** C10. [importData] accepts the text of an object that has an empty
    [exercises] array and no [workoutSessions]: the value returned is not
    the value of any snapshot of the data model, and the statements of
    [getUniqueWorkoutDates] and of [getActiveWorkoutSession] throw on it,
    although on the value of every snapshot [getUniqueWorkoutDates]
    returns its result. *)
Theorem importData_accepts_value_without_workoutSessions :
  exists (text : string) (v : Value),
    import text = Some v /\
    get_property v "workoutSessions" = None /\
    WorkoutData_ofJS v = None /\
    (forall data : Data, WorkoutData_toJS data <> v) /\
    getUniqueWorkoutDates_js number_truthy v = None /\
    getActiveWorkoutSession_js number_truthy v = None /\
    (forall data : Data,
        getUniqueWorkoutDates_js number_truthy (WorkoutData_toJS data) =
        Some (getUniqueWorkoutDates data)).
Proof.
  exists incomplete_text, (JObject [("exercises", JArray [])]).
  split; [reflexivity|]. split; [reflexivity|]. split; [reflexivity|].
  split; [intros data; discriminate|].
  split; [reflexivity|]. split; [reflexivity|].
  exact getUniqueWorkoutDates_js_toJS.
Qed.

End ImportExport.

End Properties.

(** ** Instances on the sample snapshots *)

Example getUniqueWorkoutDates_sample :
  getUniqueWorkoutDates sample_data = ["2024-01-08"; "2024-01-15"] /\
  getLastWorkoutDate sample_data = Some "2024-01-15".
Proof. split; reflexivity. Qed.

Lemma deleteWorkoutSession_cascade_witness :
  In push_workout (workoutSessions sample_data) /\
  NoDup (map ws_id (workoutSessions sample_data)) /\
  deleteWorkoutSession "w1" sample_data =
    mkWorkoutData
      [mkExercise "A" "Bench press" "Push" [bench_earlier];
       mkExercise "B" "Overhead press" "Push" [];
       row]
      [earlier_workout] /\
  ~ In push_workout (workoutSessions (deleteWorkoutSession "w1" sample_data)) /\
  (forall ws, In ws (workoutSessions (deleteWorkoutSession "w1" sample_data))
              <-> In ws (workoutSessions sample_data) /\ ws <> push_workout).
Proof.
  assert (H1 : In push_workout (workoutSessions sample_data))
    by (simpl; auto).
  assert (H2 : NoDup (map ws_id (workoutSessions sample_data))).
  { simpl. repeat constructor; simpl; intuition discriminate. }
  split; [exact H1|]. split; [exact H2|]. split; [reflexivity|].
  destruct (deleteWorkoutSession_cascade sample_data push_workout H1)
    as [Hgone [_ Hrest]].
  split; [exact Hgone|]. exact (proj1 (Hrest H2)).
Defined.

Lemma deleteSet_count_drops_by_two :
  (nth_error (exercises stale_data) 0 = Some deadlift /\
   In lone_set_session (ex_sessions deadlift) /\
   List.length (es_sets lone_set_session) = 1 /\
   deleteSet "D" "s5" 0 stale_data =
     mkWorkoutData [mkExercise "D" "Deadlift" "Pull" []] [] /\
   forall e',
     nth_error (exercises (deleteSet "D" "s5" 0 stale_data)) 0 = Some e' ->
     List.length (ex_sessions e') + 1 <> List.length (ex_sessions deadlift)) /\
  (nth_error (exercises twin_data) 0 = Some squat /\
   In twin_first (ex_sessions squat) /\
   List.length (es_sets twin_first) = 1 /\
   deleteSet "E" "s7" 0 twin_data =
     mkWorkoutData [mkExercise "E" "Squat" "Legs" []] [] /\
   forall e',
     nth_error (exercises (deleteSet "E" "s7" 0 twin_data)) 0 = Some e' ->
     List.length (ex_sessions e') + 1 <> List.length (ex_sessions squat)).
Proof.
  split.
  - split; [reflexivity|]. split; [simpl; auto|]. split; [reflexivity|].
    split; [reflexivity|].
    intros e' H. vm_compute in H. injection H as <-. simpl. lia.
  - split; [reflexivity|]. split; [simpl; auto|]. split; [reflexivity|].
    split; [reflexivity|].
    intros e' H. vm_compute in H. injection H as <-. simpl. lia.
Qed.

Lemma deleteSet_prunes_empty_sessions_witness :
  (exists e',
      nth_error (exercises (deleteSet "A" "s2" 0 sample_data)) 0 = Some e' /\
      ex_sessions e' = [bench_monday]) /\
  (exists e',
      nth_error (exercises (deleteSet "A" "s1" 1 sample_data)) 0 = Some e' /\
      ex_sessions e' =
        [bench_earlier;
         mkExerciseSession "s1" "2024-01-15T10:00:00.000Z" [mkSet 10%Z 60%Z]]).
Proof.
  split.
  - destruct (@deleteSet_prunes_empty_sessions Z sample_data "A" "s2" 0 0
                bench bench_earlier [] [bench_monday]
                eq_refl eq_refl eq_refl eq_refl (le_n 1))
      as [e' [H1 [_ [_ [_ [_ H2]]]]]].
    exists e'. split; [exact H1|].
    assert (Hothers : forall s : ExerciseSession Z,
               In s ([] ++ [bench_monday]) ->
               es_id s <> "s2" /\ es_sets s <> []).
    { intros s [<-|[]]. split; discriminate. }
    exact (proj1 (proj1 (H2 Hothers) eq_refl)).
  - destruct (@deleteSet_prunes_empty_sessions Z sample_data "A" "s1" 1 0
                bench bench_monday [bench_earlier] []
                eq_refl eq_refl eq_refl eq_refl (le_n 2))
      as [e' [H1 [_ [_ [_ [_ H2]]]]]].
    exists e'. split; [exact H1|].
    assert (Hothers : forall s : ExerciseSession Z,
               In s ([bench_earlier] ++ []) ->
               es_id s <> "s1" /\ es_sets s <> []).
    { intros s [<-|[]]. split; discriminate. }
    exact (proj2 (H2 Hothers) (le_n 2)).
Defined.

Lemma addSetToExercise_same_day_witness :
  exists data1 data2 e2,
    addSetToExercise "B" (mkSet 7%Z 42%Z) (Some (Some 1705314600000%Z))
      now_sample "n1" sample_data = Some data1 /\
    addSetToExercise "B" (mkSet 6%Z 45%Z) (Some (Some 1705315200000%Z))
      now_sample "n2" data1 = Some data2 /\
    nth_error (exercises data2) 1 = Some e2 /\
    ex_sessions e2 =
      [mkExerciseSession "s3" "2024-01-15T10:20:00.000Z"
         [mkSet 8%Z 40%Z; mkSet 7%Z 42%Z; mkSet 6%Z 45%Z]].
Proof.
  destruct (@addSetToExercise_same_day Z sample_data "B"
              (mkSet 7%Z 42%Z) (mkSet 6%Z 45%Z)
              (Some (Some 1705314600000%Z)) (Some (Some 1705315200000%Z))
              now_sample now_sample 1705314600000%Z 1705315200000%Z
              "n1" "n2" 1 press eq_refl eq_refl eq_refl eq_refl eq_refl
              (le_n 1))
    as [data1 [data2 [e2 [sess [H1 [H2 [H3 _]]]]]]].
  exists data1, data2, e2.
  split; [exact H1|]. split; [exact H2|]. split; [exact H3|].
  vm_compute in H1. injection H1 as <-.
  vm_compute in H2. injection H2 as <-.
  vm_compute in H3. injection H3 as <-. reflexivity.
Defined.

Lemma sample_weeks_computed :
  forall j, j < 52 ->
    getWeekKey utc_host (checkDate_at utc_host (TimeClip now_sample) j)
    = Some (sample_week j).
Proof.
  intros j Hj.
  do 52 (destruct j as [|j]; [vm_compute; reflexivity|]).
  lia.
Qed.

Lemma getCurrentStreak_counts_weeks_witness :
  getCurrentStreak utc_host Date_parse_iso now_sample three_week_data
    = Some 3 /\
  getCurrentStreak utc_host Date_parse_iso now_sample gap_week_data = Some 1.
Proof.
  split.
  - destruct (@getCurrentStreak_counts_weeks Z utc_host Date_parse_iso now_sample
                three_week_data
                ["2023-12-11"; "2024-01-01"; "2024-01-08"; "2024-01-15"]
                sample_week eq_refl sample_weeks_computed)
      as [r [Hr [_ [_ [_ [H3 _]]]]]].
    rewrite Hr. f_equal. apply H3.
    + vm_compute. auto.
    + vm_compute. auto.
    + vm_compute. auto.
    + vm_compute. intuition discriminate.
  - destruct (@getCurrentStreak_counts_weeks Z utc_host Date_parse_iso now_sample
                gap_week_data ["2023-12-25"; "2024-01-08"]
                sample_week eq_refl sample_weeks_computed)
      as [r [Hr [_ [_ [_ [_ H1]]]]]].
    rewrite Hr. f_equal. apply H1.
    + vm_compute. intuition discriminate.
    + vm_compute. auto.
    + vm_compute. intuition discriminate.
Defined.

Lemma getMuscleGroupOrder_earlier_session_wins :
  In full_workout [morning_workout; full_workout] /\
  datePart (startTime full_workout) = datePart "2024-01-15" /\
  exerciseIds full_workout = ["A"; "B"; "C"] /\
  In bench [bench; press; row] /\ In press [bench; press; row] /\
  In row [bench; press; row] /\
  getMuscleGroupOrder "B" "Push" "2024-01-15"
    [morning_workout; full_workout] [bench; press; row] = Some 1 /\
  getMuscleGroupOrder "B" "Push" "2024-01-15"
    [morning_workout; full_workout] [bench; press; row] <> Some 2.
Proof.
  repeat split; simpl; auto. discriminate.
Qed.

Lemma getMuscleGroupOrder_rank_in_first_session_witness :
  getMuscleGroupOrder "B" "Push" "2024-01-15"
    [row_workout; full_workout] [bench; press; row] = Some 2 /\
  getMuscleGroupOrder "C" "Pull" "2024-01-15"
    [earlier_workout; full_workout] [bench; press; row] = Some 1.
Proof.
  assert (Hnd : NoDup (map (@ex_id Z) [bench; press; row])).
  { simpl. repeat constructor; simpl; intuition discriminate. }
  assert (HAB : "A" <> "B") by discriminate.
  split.
  - refine (proj1 (proj1 (@getMuscleGroupOrder_rank_in_first_session Z
                            [row_workout; full_workout] [bench; press; row]
                            "2024-01-15")
                     [row_workout] [] full_workout "A" "B" "C" bench press row
                     eq_refl eq_refl eq_refl Hnd _ _ _
                     eq_refl eq_refl eq_refl HAB eq_refl eq_refl eq_refl) _);
      try (simpl; tauto).
    intros w [<-|[]] _. simpl. intuition discriminate.
  - refine (proj2 (proj1 (@getMuscleGroupOrder_rank_in_first_session Z
                            [earlier_workout; full_workout]
                            [bench; press; row] "2024-01-15")
                     [earlier_workout] [] full_workout "A" "B" "C"
                     bench press row
                     eq_refl eq_refl eq_refl Hnd _ _ _
                     eq_refl eq_refl eq_refl HAB eq_refl eq_refl eq_refl) _);
      try (simpl; tauto).
    intros w [<-|[]] H. discriminate H.
Defined.

Lemma cleanOrphanedSessions_keeps_completed_dates_witness :
  cleanOrphanedSessions (mkWorkoutData [bench; press; row] []) =
    mkWorkoutData [bench; press; row] [] /\
  workoutSessions
    (cleanOrphanedSessions (mkWorkoutData [bench; press; row] [earlier_workout]))
    = [earlier_workout] /\
  cleanOrphanedSessions (mkWorkoutData [bench; press; row] [earlier_workout]) =
    mkWorkoutData
      [mkExercise "A" "Bench press" "Push" [bench_earlier];
       mkExercise "B" "Overhead press" "Push" [];
       mkExercise "C" "Barbell row" "Pull" []]
      [earlier_workout].
Proof.
  split; [|split].
  - exact (proj1 (@cleanOrphanedSessions_keeps_completed_dates Z
                    (mkWorkoutData [bench; press; row] [])) eq_refl).
  - refine (proj1 (proj2 (@cleanOrphanedSessions_keeps_completed_dates Z
                    (mkWorkoutData [bench; press; row] [earlier_workout])) _)).
    discriminate.
  - reflexivity.
Defined.

(** ** Purity of the per-exercise queries *)

(** The two "previous session" queries sort the array [filter] returned
    and leave the exercise as it was, whatever the host's date parser. *)
Lemma previous_session_queries_leave_exercise
    (Date_parse : string -> Date) (now : Z) (e : Exercise Z) (count : nat) :
  snd (getExercisePreviousSession Date_parse now e) = e /\
  snd (getExercisePreviousSessions Date_parse now e count) = e.
Proof. split; reflexivity. Qed.

(** C8. [getExerciseLastSession] is not free of side effects: on the
    bench press of the sample snapshot, whose sessions are stored oldest
    first, the call returns the newest session and leaves the exercise
    (and so the snapshot that holds it) with its sessions in the opposite
    order. *)
Theorem getExerciseLastSession_reorders_sessions :
  ex_sessions bench = [bench_earlier; bench_monday] /\
  getExerciseLastSession Date_parse_iso bench =
    (Some bench_monday,
     mkExercise "A" "Bench press" "Push" [bench_monday; bench_earlier]) /\
  snapshot_after_getExerciseLastSession Date_parse_iso sample_data 0 =
    mkWorkoutData
      [mkExercise "A" "Bench press" "Push" [bench_monday; bench_earlier];
       press; row]
      [earlier_workout; push_workout] /\
  snapshot_after_getExerciseLastSession Date_parse_iso sample_data 0
    <> sample_data.
Proof.
  split; [reflexivity|]. split; [vm_compute; reflexivity|].
  split; [vm_compute; reflexivity|].
  vm_compute. discriminate.
Qed.

(** ** Import and export on the sample snapshot *)

Lemma sample_data_faithful :
  snapshot_faithful Z_toString Z_ofString Z_isFinite sample_data.
Proof.
  intros e s st He Hs Hst.
  simpl in He. destruct He as [<-|[<-|[<-|[]]]]; simpl in Hs;
    repeat (destruct Hs as [<-|Hs]; [|]); try contradiction; simpl in Hst;
    repeat (destruct Hst as [<-|Hst]; [|]); try contradiction;
    split; vm_compute; auto.
Qed.

Lemma import_export_round_trip_witness :
  importData Z_ofString Z_truthy
    (exportData Z_toString Z_isFinite (WorkoutData_toJS sample_data))
    = Some (WorkoutData_toJS sample_data) /\
  WorkoutData_ofJS (WorkoutData_toJS sample_data) = Some sample_data /\
  importData Z_ofString Z_truthy "exercises: []" = None.
Proof.
  destruct (@import_export_round_trip Z Z_toString Z_ofString Z_isFinite
              Z_truthy) as [Htyped [_ [Hnone _]]].
  destruct (Htyped sample_data sample_data_faithful) as [v [Hv [-> Hread]]].
  split; [exact Hv|]. split; [exact Hread|].
  apply Hnone. left. reflexivity.
Defined.

(** * Further properties of the mutations, derivations and views *)

Section MoreProperties.

Variable number : Type.

Local Abbreviation Data := (WorkoutData number).

(** ** Lists *)

Lemma filter_filter_same (A : Type) (p : A -> bool) (l : list A) :
  filter p (filter p l) = filter p l.
Proof. apply filter_all. intros y Hy. apply filter_In in Hy. tauto. Qed.

Lemma map_fixed (A : Type) (f : A -> A) (l : list A) :
  (forall x, In x l -> f x = x) -> map f l = l.
Proof.
  induction l as [|a l IH]; simpl; intros H; trivial.
  rewrite H by now left. f_equal. apply IH. intros x Hx. apply H. now right.
Qed.

Lemma includes_app (l1 l2 : list string) (x : string) :
  includes (l1 ++ l2) x = includes l1 x || includes l2 x.
Proof. unfold includes. apply existsb_app. Qed.

Lemma includes_single (x : string) : includes [x] x = true.
Proof. unfold includes. simpl. now rewrite String.eqb_refl. Qed.

(** Looking an id up after the entries with another id were filtered
    out. *)
Lemma find_filter_other (A : Type) (key : A -> string) (x y : string)
      (l : list A) :
  find (fun e => String.eqb (key e) y)
       (filter (fun e => negb (String.eqb (key e) x)) l) =
  if String.eqb y x then None else find (fun e => String.eqb (key e) y) l.
Proof.
  induction l as [|a l IH]; simpl.
  - now destruct (String.eqb y x).
  - destruct (String.eqb (key a) x) eqn:Ex; simpl.
    + rewrite IH. destruct (String.eqb y x) eqn:Eyx; trivial.
      destruct (String.eqb (key a) y) eqn:Ey; trivial.
      apply String.eqb_eq in Ex, Ey. apply String.eqb_neq in Eyx.
      congruence.
    + destruct (String.eqb (key a) y) eqn:Ey.
      * apply String.eqb_eq in Ey. apply String.eqb_neq in Ex.
        destruct (String.eqb y x) eqn:Eyx; trivial.
        apply String.eqb_eq in Eyx. congruence.
      * exact IH.
Qed.

(** ** addExerciseToWorkoutSession *)

(** X1. [addExerciseToWorkoutSession] leaves the exercises and every
    field of every workout session but [exerciseIds] alone; a session
    with the given id that does not list the exercise gets it appended
    at the end, every other session is returned as it is; no id list
    gains a duplicate; and a second call with the same arguments changes
    nothing. *)
Theorem addExerciseToWorkoutSession_appends_once :
  forall (data : Data) (sessionId exerciseId : string),
    let data' := addExerciseToWorkoutSession sessionId exerciseId data in
    exercises data' = exercises data /\
    List.length (workoutSessions data') = List.length (workoutSessions data) /\
    (forall i ws,
        nth_error (workoutSessions data) i = Some ws ->
        exists ws',
          nth_error (workoutSessions data') i = Some ws' /\
          ws_id ws' = ws_id ws /\ startTime ws' = startTime ws /\
          endTime ws' = endTime ws /\
          isDwarfWorkout ws' = isDwarfWorkout ws /\
          (ws_id ws = sessionId -> In exerciseId (exerciseIds ws')) /\
          (ws_id ws = sessionId -> ~ In exerciseId (exerciseIds ws) ->
           exerciseIds ws' = exerciseIds ws ++ [exerciseId]) /\
          (ws_id ws <> sessionId \/ In exerciseId (exerciseIds ws) ->
           ws' = ws) /\
          (NoDup (exerciseIds ws) -> NoDup (exerciseIds ws'))) /\
    addExerciseToWorkoutSession sessionId exerciseId data' = data'.
Proof.
  intros data sessionId exerciseId data'.
  unfold data', addExerciseToWorkoutSession. cbn [exercises workoutSessions].
  set (g := fun session : WorkoutSession =>
              if String.eqb (ws_id session) sessionId
                 && negb (includes (exerciseIds session) exerciseId)
              then with_exerciseIds session (exerciseIds session ++ [exerciseId])
              else session).
  split; [reflexivity|]. split; [apply length_map|]. split.
  - intros i ws Hi. exists (g ws). split.
    { rewrite nth_error_map, Hi. reflexivity. }
    unfold g.
    destruct (String.eqb (ws_id ws) sessionId) eqn:Eid;
      destruct (includes (exerciseIds ws) exerciseId) eqn:Einc;
      cbn [andb negb with_exerciseIds ws_id startTime endTime isDwarfWorkout
           exerciseIds];
      repeat (split; [reflexivity|]).
    + apply includes_In in Einc.
      split; [intros _; exact Einc|]. split; [intros _ H; contradiction|].
      split; [reflexivity|]. trivial.
    + apply includes_not_In in Einc. apply String.eqb_eq in Eid.
      split; [intros _; apply in_or_app; right; now left|].
      split; [reflexivity|].
      split; [intros [H|H]; contradiction|].
      intros Hnd. apply NoDup_app; [exact Hnd|repeat constructor; intros []|].
      intros x Hx [<-|[]]. contradiction.
    + apply includes_In in Einc. apply String.eqb_neq in Eid.
      split; [intros H; contradiction|]. split; [intros H; contradiction|].
      split; [reflexivity|]. trivial.
    + apply String.eqb_neq in Eid.
      split; [intros H; contradiction|]. split; [intros H; contradiction|].
      split; [reflexivity|]. trivial.
  - f_equal. rewrite map_map. apply map_ext. intros ws. unfold g.
    destruct (String.eqb (ws_id ws) sessionId) eqn:Eid;
      destruct (includes (exerciseIds ws) exerciseId) eqn:Einc;
      cbn [andb negb with_exerciseIds ws_id exerciseIds];
      rewrite ?Eid, ?Einc; cbn [andb negb]; trivial.
    rewrite includes_app, includes_single, orb_true_r. reflexivity.
Qed.

(** ** deleteExercise and the rows of the workout detail view *)

Lemma filter_not_null_In (A : Type) (l : list (option A)) (x : A) :
  In x (filter_not_null l) <-> In (Some x) l.
Proof.
  induction l as [|[a|] l IH]; simpl; [tauto| |].
  - rewrite IH. split; intros [H|H]; auto; left; congruence.
  - rewrite IH. split; [auto|]. intros [H|H]; [discriminate|trivial].
Qed.

Lemma filter_not_null_length (A : Type) (l : list (option A)) :
  List.length (filter_not_null l) <= List.length l.
Proof. induction l as [|[a|] l IH]; simpl; lia. Qed.

(** X2. [deleteExercise] removes every exercise with the given id, keeps
    the others, and does not touch the workout sessions: their
    [exerciseIds] may go on naming the deleted exercise. The rows of the
    detail view of any workout, computed on the new snapshot, are the
    former rows without those of the deleted exercise. Deleting again
    changes nothing. *)
Theorem deleteExercise_rows :
  forall (data : Data) (exerciseId : string) (ws : WorkoutSession),
    let data' := deleteExercise exerciseId data in
    workoutSessions data' = workoutSessions data /\
    (forall e, In e (exercises data') <->
               In e (exercises data) /\ ex_id e <> exerciseId) /\
    exercisesWithSessions ws (exercises data') =
      filter (fun row => negb (String.eqb (ex_id (fst row)) exerciseId))
             (exercisesWithSessions ws (exercises data)) /\
    deleteExercise exerciseId data' = data'.
Proof.
  intros data exerciseId ws data'. unfold data', deleteExercise.
  cbn [exercises workoutSessions].
  split; [reflexivity|]. split.
  { intros e. rewrite filter_In, negb_true_iff, String.eqb_neq. tauto. }
  split; [|now rewrite filter_filter_same].
  unfold exercisesWithSessions.
  induction (exerciseIds ws) as [|id ids IH]; [reflexivity|].
  cbn [map]. rewrite (find_filter_other (@ex_id number)).
  destruct (String.eqb id exerciseId) eqn:Eid.
  - cbn [filter_not_null]. rewrite IH.
    destruct (find (fun e => String.eqb (ex_id e) id) (exercises data))
      as [exercise|] eqn:Ef; [|reflexivity].
    destruct (find _ (ex_sessions exercise)) as [session|]; [|reflexivity].
    destruct (Nat.eqb (List.length (es_sets session)) 0); [reflexivity|].
    cbn [filter_not_null filter fst].
    apply find_some in Ef. destruct Ef as [_ Ef].
    apply String.eqb_eq in Ef, Eid. subst id.
    apply String.eqb_eq in Ef. rewrite Ef. reflexivity.
  - destruct (find (fun e => String.eqb (ex_id e) id) (exercises data))
      as [exercise|] eqn:Ef; [|exact IH].
    destruct (find _ (ex_sessions exercise)) as [session|]; [|exact IH].
    destruct (Nat.eqb (List.length (es_sets session)) 0); [exact IH|].
    cbn [filter_not_null filter fst].
    apply find_some in Ef. destruct Ef as [_ Ef].
    apply String.eqb_eq in Ef. rewrite Ef, Eid. cbn [negb].
    now rewrite IH.
Qed.

(** X3. Every row of the workout detail view pairs an exercise of the
    snapshot, whose id the workout lists, with one of its sessions that
    is dated on the start date of the workout and has at least one set;
    ids with no exercise and exercises with nothing logged that day give
    no row, so there are at most as many rows as listed ids. *)
Theorem exercisesWithSessions_rows :
  forall (ws : WorkoutSession) (exs : list (Exercise number)),
    List.length (exercisesWithSessions ws exs)
      <= List.length (exerciseIds ws) /\
    Forall (fun row =>
              In (fst row) exs /\
              In (ex_id (fst row)) (exerciseIds ws) /\
              In (snd row) (ex_sessions (fst row)) /\
              datePart (es_date (snd row)) = datePart (startTime ws) /\
              es_sets (snd row) <> [])
           (exercisesWithSessions ws exs) /\
    map (fun row => fst row) (exercisesWithSessions ws exs) =
      exercisesWithSets ws (mkWorkoutData exs []).
Proof.
  intros ws exs. unfold exercisesWithSessions, exercisesWithSets.
  cbn [exercises].
  split.
  { etransitivity; [apply filter_not_null_length|]. now rewrite length_map. }
  split.
  - apply Forall_forall. intros [e s] Hrow. cbn [fst snd].
    apply filter_not_null_In, in_map_iff in Hrow.
    destruct Hrow as [id [Hrow Hid]].
    destruct (find (fun e => String.eqb (ex_id e) id) exs)
      as [exercise|] eqn:Ef; [|discriminate].
    destruct (find _ (ex_sessions exercise)) as [session|] eqn:Es;
      [|discriminate].
    destruct (Nat.eqb (List.length (es_sets session)) 0) eqn:El;
      [discriminate|].
    injection Hrow as <- <-.
    apply find_some in Ef. destruct Ef as [Hin Ef].
    apply String.eqb_eq in Ef.
    apply find_some in Es. destruct Es as [Hs Es].
    apply String.eqb_eq in Es.
    repeat split; trivial; [now rewrite Ef|].
    intros E. rewrite E in El. discriminate.
  - induction (exerciseIds ws) as [|id ids IH]; [reflexivity|].
    cbn [map filter].
    destruct (find (fun e => String.eqb (ex_id e) id) exs)
      as [exercise|]; [|exact IH].
    destruct (find _ (ex_sessions exercise)) as [session|]; [|exact IH].
    destruct (es_sets session) as [|x r]; [exact IH|].
    cbn [List.length Nat.eqb Nat.ltb Nat.leb filter_not_null map fst].
    now rewrite IH.
Qed.

(** ** The life cycle of a workout session *)

Lemma append_nonempty (a : string) (c : ascii) (r : string) :
  (a ++ String c r)%string <> "".
Proof. destruct a; discriminate. Qed.

Lemma toISOString_nonempty (t : Z) : toISOString t <> "".
Proof.
  unfold toISOString. destruct (civil_from_days (t / msPerDay)) as [[y m] d].
  apply append_nonempty.
Qed.

Lemma toISOString_truthy (t : Z) : truthy_string (Some (toISOString t)) = true.
Proof.
  cbn [truthy_string]. apply negb_true_iff, String.eqb_neq,
    toISOString_nonempty.
Qed.

Lemma find_app (A : Type) (p : A -> bool) (l1 l2 : list A) :
  find p (l1 ++ l2) =
  match find p l1 with Some x => Some x | None => find p l2 end.
Proof.
  induction l1 as [|a l1 IH]; simpl; trivial. now destruct (p a).
Qed.

Lemma find_ext_in (A : Type) (p q : A -> bool) (l : list A) :
  (forall x, In x l -> p x = q x) -> find p l = find q l.
Proof.
  induction l as [|a l IH]; intros H; [reflexivity|]. cbn [find].
  rewrite (H a) by now left. rewrite IH; [reflexivity|].
  intros x Hx. apply H. now right.
Qed.

(** X4. [startWorkoutSession] does not look for a session in progress:
    the session it appends becomes the active one only when there was
    none, otherwise the earlier one stays active. [endWorkoutSession]
    stamps every session that has the id, completed or not, so the active
    session afterwards is the first session in progress with another id.
    Ending the session just started leaves the active session that
    ending that id in the former snapshot leaves; when no session had the
    id, that is the active session there was before the start. *)
Theorem getActiveWorkoutSession_after_start_and_end :
  forall (data : Data) (now1 now2 : Z) (newId sessionId : string),
    let newSession := mkWorkoutSession newId (toISOString now1) None [] None in
    getActiveWorkoutSession (startWorkoutSession now1 newId data) =
      Some (match getActiveWorkoutSession data with
            | Some active => active
            | None => newSession
            end) /\
    getActiveWorkoutSession (endWorkoutSession sessionId now2 data) =
      find (fun s => negb (truthy_string (endTime s))
                     && negb (String.eqb (ws_id s) sessionId))
           (workoutSessions data) /\
    Forall (fun s => ws_id s = sessionId ->
                     endTime s = Some (toISOString now2))
           (workoutSessions (endWorkoutSession sessionId now2 data)) /\
    getActiveWorkoutSession
      (endWorkoutSession newId now2 (startWorkoutSession now1 newId data)) =
      getActiveWorkoutSession (endWorkoutSession newId now2 data) /\
    (Forall (fun s => ws_id s <> newId) (workoutSessions data) ->
     getActiveWorkoutSession
       (endWorkoutSession newId now2 (startWorkoutSession now1 newId data)) =
       getActiveWorkoutSession data).
Proof.
  intros data now1 now2 newId sessionId newSession.
  assert (Hend : forall sid (l : list WorkoutSession),
             find (fun s => negb (truthy_string (endTime s)))
                  (map (fun session =>
                          if String.eqb (ws_id session) sid
                          then with_endTime session (toISOString now2)
                          else session) l) =
             find (fun s => negb (truthy_string (endTime s))
                            && negb (String.eqb (ws_id s) sid)) l).
  { intros sid l. induction l as [|s l IH]; [reflexivity|].
    cbn [map find].
    destruct (String.eqb (ws_id s) sid) eqn:Eid.
    - cbn [with_endTime endTime]. rewrite toISOString_truthy.
      cbn [negb]. rewrite andb_false_r. exact IH.
    - cbn [negb]. rewrite andb_true_r.
      destruct (negb (truthy_string (endTime s))); [reflexivity|exact IH]. }
  unfold getActiveWorkoutSession, startWorkoutSession, endWorkoutSession.
  cbn [workoutSessions exercises].
  split.
  { rewrite find_app. fold newSession.
    destruct (find _ (workoutSessions data)); reflexivity. }
  split; [apply Hend|]. split.
  { apply Forall_forall. intros s Hs Hid. apply in_map_iff in Hs.
    destruct Hs as [s0 [<- _]].
    destruct (String.eqb (ws_id s0) sessionId) eqn:Eid; [reflexivity|].
    apply String.eqb_neq in Eid. contradiction. }
  assert (Hboth : find (fun s => negb (truthy_string (endTime s)))
                    (map (fun session =>
                            if String.eqb (ws_id session) newId
                            then with_endTime session (toISOString now2)
                            else session)
                         (workoutSessions data ++ [newSession])) =
                  find (fun s => negb (truthy_string (endTime s)))
                    (map (fun session =>
                            if String.eqb (ws_id session) newId
                            then with_endTime session (toISOString now2)
                            else session)
                         (workoutSessions data))).
  { rewrite !Hend, find_app.
    destruct (find _ (workoutSessions data)); [reflexivity|].
    cbn [find newSession endTime ws_id truthy_string negb].
    now rewrite String.eqb_refl. }
  split; [exact Hboth|].
  intros Hfresh. etransitivity; [exact Hboth|].
  rewrite Hend. apply find_ext_in.
  intros s Hs. rewrite Forall_forall in Hfresh.
  specialize (Hfresh s Hs). apply String.eqb_neq in Hfresh.
  rewrite Hfresh. cbn [negb]. apply andb_true_r.
Qed.

(** ** deleteWorkoutSession on an id that is not there *)

Lemma filter_app_one (A : Type) (p : A -> bool) (l : list A) (x : A) :
  filter p (l ++ [x]) = filter p l ++ (if p x then [x] else []).
Proof. rewrite filter_app. reflexivity. Qed.

(** X5. After [deleteWorkoutSession] no workout session has the given
    id, whether ids were unique or not, and deleting again changes
    nothing; with no session of that id the snapshot comes back as it
    was. A workout that was started and is deleted before anything was
    added to it leaves the snapshot it was started in. *)
Theorem deleteWorkoutSession_absent_id :
  forall (data : Data) (sessionId : string) (now : Z),
    Forall (fun ws => ws_id ws <> sessionId)
           (workoutSessions (deleteWorkoutSession sessionId data)) /\
    deleteWorkoutSession sessionId (deleteWorkoutSession sessionId data) =
      deleteWorkoutSession sessionId data /\
    (Forall (fun ws => ws_id ws <> sessionId) (workoutSessions data) ->
     deleteWorkoutSession sessionId data = data /\
     deleteWorkoutSession sessionId (startWorkoutSession now sessionId data)
       = data).
Proof.
  intros data sessionId now.
  assert (Hnone : forall d : Data,
             Forall (fun ws => ws_id ws <> sessionId) (workoutSessions d) ->
             deleteWorkoutSession sessionId d = d).
  { intros d Hd. unfold deleteWorkoutSession.
    rewrite find_all_false; [reflexivity|].
    intros y Hy. rewrite Forall_forall in Hd.
    apply String.eqb_neq. now apply Hd. }
  assert (Hgone : Forall (fun ws => ws_id ws <> sessionId)
                    (workoutSessions (deleteWorkoutSession sessionId data))).
  { unfold deleteWorkoutSession.
    destruct (find _ (workoutSessions data)) as [S|] eqn:Ef.
    - cbn [workoutSessions]. apply Forall_forall. intros ws Hws.
      apply filter_In in Hws. destruct Hws as [_ Hws].
      now apply negb_true_iff, String.eqb_neq in Hws.
    - apply Forall_forall. intros ws Hws.
      apply String.eqb_neq. exact (find_none _ _ Ef ws Hws). }
  split; [exact Hgone|]. split; [now apply Hnone|].
  intros Hfresh. split; [now apply Hnone|].
  unfold deleteWorkoutSession, startWorkoutSession.
  cbn [workoutSessions exercises].
  rewrite find_app, find_all_false.
  2:{ intros y Hy. rewrite Forall_forall in Hfresh.
      apply String.eqb_neq. now apply Hfresh. }
  cbn [find ws_id]. rewrite String.eqb_refl.
  cbn [exerciseIds includes existsb negb].
  rewrite filter_app_one. cbn [ws_id]. rewrite String.eqb_refl. cbn [negb].
  rewrite app_nil_r, map_id, filter_all.
  2:{ intros y Hy. rewrite Forall_forall in Hfresh.
      apply negb_true_iff, String.eqb_neq. now apply Hfresh. }
  now destruct data.
Qed.

(** ** removeSessionsFromDate *)

Lemma datePart_idempotent (s : string) : datePart (datePart s) = datePart s.
Proof.
  unfold datePart. induction s as [|c s IH]; [reflexivity|].
  cbn [split_head]. destruct (Ascii.eqb c "T") eqn:E; [reflexivity|].
  cbn [split_head]. rewrite E. now rewrite IH.
Qed.

(** The dates [getUniqueWorkoutDates] returns. *)
Lemma getUniqueWorkoutDates_In (data : Data) (d : string) :
  In d (getUniqueWorkoutDates data) <->
  (exists e s, In e (exercises data) /\ In s (ex_sessions e) /\
               datePart (es_date s) = d) \/
  (exists ws t, In ws (workoutSessions data) /\
                isDwarfWorkout ws = Some true /\
                endTime ws = Some t /\ t <> "" /\
                datePart (startTime ws) = d).
Proof.
  unfold getUniqueWorkoutDates. rewrite fold_sessions_flat.
  set (d1 := fold_left _ (flat_map _ _) []).
  destruct (fold_set_add (fun _ : ExerciseSession number => true)
              (fun s => datePart (es_date s))
              (flat_map (@ex_sessions number) (exercises data)) [])
    as [_ Hi1].
  fold d1 in Hi1.
  destruct (fold_set_add
              (fun ws => truthy_bool (isDwarfWorkout ws)
                         && truthy_string (endTime ws))
              (fun ws => datePart (startTime ws))
              (workoutSessions data) d1) as [_ Hi2].
  rewrite array_sort_In, Hi2, Hi1. split.
  - intros [[[]|[s [Hs [_ Hd]]]]|[ws [Hws [Hk Hd]]]].
    + left. apply in_flat_map in Hs. destruct Hs as [e [He Hs]].
      exists e, s. auto.
    + right. apply andb_true_iff in Hk. destruct Hk as [Hk1 Hk2].
      destruct (isDwarfWorkout ws) as [[|]|] eqn:E1; try discriminate.
      destruct (endTime ws) as [t|] eqn:E2; try discriminate.
      exists ws, t. repeat split; trivial.
      simpl in Hk2. intros ->. discriminate.
  - intros [[e [s [He [Hs Hd]]]]|[ws [t [Hws [H1 [H2 [H3 Hd]]]]]]].
    + left. right. exists s. repeat split; trivial.
      apply in_flat_map. exists e. auto.
    + right. exists ws. repeat split; trivial.
      rewrite H1, H2. simpl. apply String.eqb_neq in H3. now rewrite H3.
Qed.

(** X6. [removeSessionsFromDate] reads only the date part of its
    argument, leaves the workout sessions alone, and returns a snapshot
    in which no exercise has a session on that day; a second removal
    changes nothing. The day leaves the list of workout dates unless a
    completed Dwarf workout started on it, and every other workout date
    stays. *)
Theorem removeSessionsFromDate_clears_the_day :
  forall (data : Data) (dateStr : string),
    let data' := removeSessionsFromDate data dateStr in
    workoutSessions data' = workoutSessions data /\
    map (@ex_id number) (exercises data') = map (@ex_id number) (exercises data) /\
    Forall (fun e =>
              Forall (fun s => datePart (es_date s) <> datePart dateStr)
                     (ex_sessions e))
           (exercises data') /\
    removeSessionsFromDate data (datePart dateStr) = data' /\
    removeSessionsFromDate data' dateStr = data' /\
    deleteSessionsFromDate dateStr data = data' /\
    (forall d,
        In d (getUniqueWorkoutDates data') <->
        In d (getUniqueWorkoutDates data) /\
        (d <> datePart dateStr \/
         exists ws t, In ws (workoutSessions data) /\
                      isDwarfWorkout ws = Some true /\
                      endTime ws = Some t /\ t <> "" /\
                      datePart (startTime ws) = d)).
Proof.
  intros data dateStr data'.
  assert (Hex : forall e',
             In e' (exercises data') <->
             exists e, In e (exercises data) /\
                       e' = with_sessions e
                              (filter (fun session =>
                                         negb (String.eqb
                                                 (datePart (es_date session))
                                                 (datePart dateStr)))
                                      (ex_sessions e))).
  { intros e'. unfold data', removeSessionsFromDate. cbn [exercises].
    rewrite in_map_iff. split; intros [e [H1 H2]]; exists e; auto. }
  split; [reflexivity|]. split.
  { unfold data', removeSessionsFromDate. cbn [exercises].
    rewrite map_map. reflexivity. }
  split.
  { apply Forall_forall. intros e' He'. apply Hex in He'.
    destruct He' as [e [_ ->]]. cbn [with_sessions ex_sessions].
    apply Forall_forall. intros s Hs. apply filter_In in Hs.
    destruct Hs as [_ Hs]. now apply negb_true_iff, String.eqb_neq in Hs. }
  split.
  { unfold data', removeSessionsFromDate. now rewrite datePart_idempotent. }
  split.
  { unfold data', removeSessionsFromDate. cbn [exercises workoutSessions].
    f_equal. rewrite map_map. apply map_ext. intros e.
    unfold with_sessions. cbn [ex_id ex_name ex_category ex_sessions].
    now rewrite filter_filter_same. }
  split; [reflexivity|].
  intros d. rewrite !getUniqueWorkoutDates_In.
  change (workoutSessions data') with (workoutSessions data).
  split.
  - intros [[e' [s [He' [Hs Hd]]]]|Hdwarf].
    + apply Hex in He'. destruct He' as [e [He ->]].
      cbn [with_sessions ex_sessions] in Hs. apply filter_In in Hs.
      destruct Hs as [Hs Hne].
      apply negb_true_iff, String.eqb_neq in Hne.
      split; [left; exists e, s; auto|]. left. now rewrite <- Hd.
    + split; right; exact Hdwarf.
  - intros [[[e [s [He [Hs Hd]]]]|Hdwarf] [Hne|Hdwarf']];
      try (right; assumption).
    left.
    exists (with_sessions e
              (filter (fun session =>
                         negb (String.eqb (datePart (es_date session))
                                          (datePart dateStr)))
                      (ex_sessions e))), s.
    split; [apply Hex; exists e; auto|]. split; [|exact Hd].
    cbn [with_sessions ex_sessions]. apply filter_In. split; [exact Hs|].
    apply negb_true_iff, String.eqb_neq. now rewrite Hd.
Qed.

(** ** cleanOrphanedSessions, once more *)

(** X7. Cleaning a cleaned snapshot changes nothing; and once a snapshot
    with at least one workout session is cleaned, each of its workout
    dates is the start date of a completed workout session. *)
Theorem cleanOrphanedSessions_idempotent :
  forall (data : Data),
    cleanOrphanedSessions (cleanOrphanedSessions data) =
      cleanOrphanedSessions data /\
    (workoutSessions data <> [] ->
     Forall (fun d =>
               exists ws t, In ws (workoutSessions data) /\
                            endTime ws = Some t /\ t <> "" /\
                            datePart (startTime ws) = d)
            (getUniqueWorkoutDates (cleanOrphanedSessions data))).
Proof.
  intros data.
  set (valid := fold_left
                  (fun dates session =>
                     if truthy_string (endTime session)
                     then set_add dates (datePart (startTime session))
                     else dates)
                  (workoutSessions data) []).
  set (f := fun exercise : Exercise number =>
              with_sessions exercise
                (filter (fun session =>
                           includes valid (datePart (es_date session)))
                        (ex_sessions exercise))).
  assert (Hdef : cleanOrphanedSessions data =
                 if Nat.eqb (List.length (workoutSessions data)) 0 then data
                 else mkWorkoutData (map f (exercises data))
                                    (workoutSessions data))
    by reflexivity.
  split.
  - rewrite Hdef.
    destruct (Nat.eqb (List.length (workoutSessions data)) 0) eqn:E.
    + exact Hdef.
    + unfold cleanOrphanedSessions at 1. cbn [workoutSessions exercises].
      rewrite E. fold valid. f_equal. rewrite map_map. apply map_ext.
      intros e. unfold f, with_sessions.
      cbn [ex_id ex_name ex_category ex_sessions].
      now rewrite filter_filter_same.
  - intros Hne. rewrite Hdef.
    destruct (workoutSessions data) as [|w r] eqn:Ew; [congruence|].
    cbn [List.length Nat.eqb]. apply Forall_forall. intros d Hd.
    destruct (fold_set_add (fun ws => truthy_string (endTime ws))
                (fun ws => datePart (startTime ws))
                (workoutSessions data) []) as [_ Hvalid].
    fold valid in Hvalid. rewrite Ew in Hvalid.
    apply getUniqueWorkoutDates_In in Hd.
    cbn [exercises workoutSessions] in Hd.
    destruct Hd as [[e' [s [He' [Hs Hd]]]]|[ws [t [Hws [_ [Ht [Hnt Hd]]]]]]].
    + apply in_map_iff in He'. destruct He' as [e [<- He]].
      unfold f in Hs. cbn [with_sessions ex_sessions] in Hs.
      apply filter_In in Hs. destruct Hs as [_ Hs].
      apply includes_In, Hvalid in Hs.
      destruct Hs as [[]|[ws [Hws [Hk Hkey]]]].
      destruct (endTime ws) as [t|] eqn:Et; [|discriminate].
      exists ws, t. repeat split; trivial; [|congruence].
      intros ->. discriminate.
    + exists ws, t. auto.
Qed.

(** ** deleteSet at its edges *)

Lemma filter_index_all (A : Type) (p : nat -> bool) (l : list A) (j : nat) :
  (forall i, j <= i < j + List.length l -> p i = true) ->
  filter_index p j l = l.
Proof.
  revert j. induction l as [|x l IH]; intros j H; [reflexivity|].
  cbn [filter_index]. rewrite H by (cbn [List.length]; lia).
  f_equal. apply IH. intros i Hi. apply H. cbn [List.length]. lia.
Qed.

Lemma with_sets_same (s : ExerciseSession number) : with_sets s (es_sets s) = s.
Proof. now destruct s. Qed.

Lemma with_sessions_same (e : Exercise number) :
  with_sessions e (ex_sessions e) = e.
Proof. now destruct e. Qed.

Lemma nonempty_length (A : Type) (l : list A) :
  Nat.ltb 0 (List.length l) = true <-> l <> [].
Proof. destruct l; cbn; split; congruence. Qed.

(** X8. Whatever its arguments, [deleteSet] leaves the workout sessions
    and the ids of the exercises alone, returns every exercise with
    another id as it was, and returns the exercises with the given id
    without any session that has no set: it removes the session it
    empties, and also sessions that were empty before. *)
Theorem deleteSet_leaves_no_empty_session :
  forall (data : Data) (exerciseId sessionId : string) (setIndex : Z),
    let data' := deleteSet exerciseId sessionId setIndex data in
    workoutSessions data' = workoutSessions data /\
    map (@ex_id number) (exercises data') = map (@ex_id number) (exercises data) /\
    Forall (fun e' =>
              if String.eqb (ex_id e') exerciseId
              then Forall (fun s => es_sets s <> []) (ex_sessions e')
              else In e' (exercises data))
           (exercises data').
Proof.
  intros data exerciseId sessionId setIndex data'.
  unfold data', deleteSet. cbn [workoutSessions exercises].
  split; [reflexivity|]. split.
  { rewrite map_map. apply map_ext. intros e.
    now destruct (String.eqb (ex_id e) exerciseId). }
  apply Forall_forall. intros e' He'. apply in_map_iff in He'.
  destruct He' as [e [<- He]].
  destruct (String.eqb (ex_id e) exerciseId) eqn:Eid; cbn [negb].
  - cbn [with_sessions ex_id ex_sessions]. rewrite Eid.
    apply Forall_forall. intros s Hs. apply filter_In in Hs.
    destruct Hs as [_ Hs]. now apply nonempty_length.
  - rewrite Eid. exact He.
Qed.

(** X9. [deleteSet] returns the snapshot unchanged when there is nothing
    to delete (no exercise with the id, no session with the id in it, or
    an index that is negative or not below the number of sets of the
    session), provided the exercise has no empty session. *)
Theorem deleteSet_unresolved_is_noop :
  forall (data : Data) (exerciseId sessionId : string) (setIndex : Z),
    (forall e s,
        In e (exercises data) -> ex_id e = exerciseId ->
        In s (ex_sessions e) ->
        es_sets s <> [] /\
        (es_id s = sessionId ->
         (setIndex < 0 \/ Z.of_nat (List.length (es_sets s)) <= setIndex)%Z)) ->
    deleteSet exerciseId sessionId setIndex data = data.
Proof.
  intros data exerciseId sessionId setIndex H.
  unfold deleteSet.
  rewrite map_fixed; [now destruct data|].
  intros e He.
  destruct (String.eqb (ex_id e) exerciseId) eqn:Eid; cbn [negb]; trivial.
  apply String.eqb_eq in Eid.
  rewrite (@map_fixed _ (deleteSet_session sessionId setIndex)).
  - rewrite filter_all; [apply with_sessions_same|].
    intros s Hs. apply nonempty_length. now apply (H e s He Eid Hs).
  - intros s Hs. unfold deleteSet_session.
    destruct (String.eqb (es_id s) sessionId) eqn:Es; cbn [negb]; trivial.
    apply String.eqb_eq in Es.
    destruct (H e s He Eid Hs) as [_ Hk]. specialize (Hk Es).
    rewrite filter_index_all; [apply with_sets_same|].
    intros i Hi. apply negb_true_iff, Z.eqb_neq. lia.
Qed.

(** ** addSetToExercise and the shape of the data *)

Lemma map_array_set_same (A B : Type) (f : A -> B) (l : list A) (i : nat)
      (x y : A) :
  nth_error l i = Some y -> f x = f y ->
  map f (array_set l i x) = map f l.
Proof.
  revert i. induction l as [|a l IH]; intros [|i] Hi Hf;
    try discriminate; cbn [array_set map].
  - injection Hi as ->. now rewrite Hf.
  - f_equal. now apply IH.
Qed.

Lemma Forall_array_set (A : Type) (P : A -> Prop) (l : list A) (i : nat)
      (x : A) :
  Forall P l -> P x -> Forall P (array_set l i x).
Proof.
  revert i. induction l as [|a l IH]; intros i Hl Hx; [constructor|].
  inversion Hl; subst. destruct i; cbn [array_set]; constructor; auto.
Qed.

Lemma app_not_nil (A : Type) (l : list A) (x : A) : l ++ [x] <> [].
Proof. destruct l; discriminate. Qed.

(** X10. When [addSetToExercise] returns, the workout sessions and the
    ids of the exercises are as before, and two shapes of the data are
    kept: if no exercise had two sessions on one day, none has
    afterwards; if no session was empty, none is afterwards. With no
    exercise of the given id the snapshot comes back unchanged; the set
    is dropped without an error. *)
Theorem addSetToExercise_keeps_the_shape :
  forall (data data' : Data) (exerciseId : string) (set : WSet number)
         (date : option Date) (now : Z) (newId : string),
    addSetToExercise exerciseId set date now newId data = Some data' ->
    workoutSessions data' = workoutSessions data /\
    map (@ex_id number) (exercises data') = map (@ex_id number) (exercises data) /\
    (Forall (fun e => NoDup (map (fun s => datePart (es_date s))
                                 (ex_sessions e)))
            (exercises data) ->
     Forall (fun e => NoDup (map (fun s => datePart (es_date s))
                                 (ex_sessions e)))
            (exercises data')) /\
    (Forall (fun e => Forall (fun s => es_sets s <> []) (ex_sessions e))
            (exercises data) ->
     Forall (fun e => Forall (fun s => es_sets s <> []) (ex_sessions e))
            (exercises data')) /\
    (Forall (fun e => ex_id e <> exerciseId) (exercises data) ->
     data' = data).
Proof.
  intros data data' exerciseId set date now newId Hadd.
  unfold addSetToExercise in Hadd.
  destruct (match date with Some d => d | None => TimeClip now end)
    as [t|]; [|discriminate].
  injection Hadd as <-.
  unfold addSetToExercise_update. cbn [workoutSessions exercises].
  set (h := fun exercise : Exercise number => _).
  assert (Hshape : forall (P : Exercise number -> Prop) e,
             P e ->
             (forall i existing,
                 nth_error (ex_sessions e) i = Some existing ->
                 P (with_sessions e
                      (array_set (ex_sessions e) i
                         (with_sets existing (es_sets existing ++ [set]))))) ->
             (findIndex (fun s => String.eqb (datePart (es_date s))
                                             (datePart (toISOString t)))
                        (ex_sessions e) = None ->
              P (with_sessions e
                   (ex_sessions e
                      ++ [mkExerciseSession newId (toISOString t) [set]]))) ->
             P (h e)).
  { intros P e He Hset Happ. unfold h.
    destruct (String.eqb (ex_id e) exerciseId); cbn [negb]; trivial.
    destruct (findIndex _ (ex_sessions e)) as [i|] eqn:Ei; [|now apply Happ].
    destruct (nth_error (ex_sessions e) i) as [existing|] eqn:En; trivial.
    now apply Hset. }
  split; [reflexivity|]. split.
  { rewrite map_map. apply map_ext. intros e.
    apply (Hshape (fun e' => ex_id e' = ex_id e)); reflexivity. }
  split; [|split].
  - intros Hall. apply Forall_forall. intros e' He'.
    apply in_map_iff in He'. destruct He' as [e [<- He]].
    rewrite Forall_forall in Hall. specialize (Hall e He).
    apply (Hshape (fun e' => NoDup (map (fun s => datePart (es_date s))
                                        (ex_sessions e')))); trivial.
    + intros i existing Hi. cbn [with_sessions ex_sessions].
      rewrite (@map_array_set_same _ _ (fun s => datePart (es_date s))
                 _ _ _ _ Hi); [exact Hall|reflexivity].
    + intros Hnone. cbn [with_sessions ex_sessions]. rewrite map_app.
      apply NoDup_app; [exact Hall|repeat constructor; intros []|].
      intros d Hd [<-|[]]. cbn [es_date] in Hd.
      apply in_map_iff in Hd. destruct Hd as [s [Hs Hin]].
      pose proof (findIndex_none_inv _ _ Hnone s Hin) as Hf.
      cbv beta in Hf. rewrite Hs, String.eqb_refl in Hf. discriminate.
  - intros Hall. apply Forall_forall. intros e' He'.
    apply in_map_iff in He'. destruct He' as [e [<- He]].
    rewrite Forall_forall in Hall. specialize (Hall e He).
    apply (Hshape (fun e' => Forall (fun s => es_sets s <> [])
                                    (ex_sessions e'))); trivial.
    + intros i existing Hi. cbn [with_sessions ex_sessions].
      apply Forall_array_set; trivial. cbn [with_sets es_sets].
      apply app_not_nil.
    + intros _. cbn [with_sessions ex_sessions]. apply Forall_app.
      split; trivial. repeat constructor. cbn [es_sets]. discriminate.
  - intros Hnone. rewrite map_fixed; [now destruct data|].
    intros e He. rewrite Forall_forall in Hnone. unfold h.
    specialize (Hnone e He). apply String.eqb_neq in Hnone.
    now rewrite Hnone.
Qed.

(** ** Undoing addSetToExercise with deleteSet *)

Lemma find_split (A : Type) (p : A -> bool) (l : list A) (x : A) :
  find p l = Some x ->
  exists l1 l2, l = l1 ++ x :: l2 /\
                (forall y, In y l1 -> p y = false) /\ p x = true.
Proof.
  induction l as [|a l IH]; [discriminate|]. cbn [find].
  destruct (p a) eqn:Ea.
  - intros [= ->]. exists [], l. repeat split; trivial. intros y [].
  - intros H. destruct (IH H) as [l1 [l2 [-> [H1 H2]]]].
    exists (a :: l1), l2. repeat split; trivial.
    intros y [<-|Hy]; auto.
Qed.

Lemma unique_by_key (A : Type) (key : A -> string) (l : list A) (a b : A) :
  NoDup (map key l) -> In a l -> In b l -> key a = key b -> a = b.
Proof.
  induction l as [|c l IH]; [intros _ []|].
  cbn [map]. intros Hnd Ha Hb Hk.
  inversion Hnd as [|? ? Hnot Hnd']; subst.
  destruct Ha as [<-|Ha], Hb as [<-|Hb]; trivial.
  - exfalso. apply Hnot. rewrite Hk. now apply in_map.
  - exfalso. apply Hnot. rewrite <- Hk. now apply in_map.
  - now apply IH.
Qed.

Lemma nth_error_middle (A : Type) (l1 l2 : list A) (x : A) :
  nth_error (l1 ++ x :: l2) (List.length l1) = Some x.
Proof. induction l1 as [|a l1 IH]; [reflexivity|exact IH]. Qed.

Lemma filter_index_drop_last (A : Type) (l : list A) (j : nat) (x : A) :
  filter_index
    (fun i => negb (Z.eqb (Z.of_nat i) (Z.of_nat (j + List.length l))))
    j (l ++ [x]) = l.
Proof.
  revert j. induction l as [|a l IH]; intros j;
    cbn [app filter_index List.length].
  - now rewrite Nat.add_0_r, Z.eqb_refl.
  - replace (Z.of_nat j =? Z.of_nat (j + S (List.length l)))%Z with false
      by (symmetry; apply Z.eqb_neq; lia).
    cbn [negb]. f_equal.
    replace (j + S (List.length l)) with (S j + List.length l) by lia.
    apply IH.
Qed.

(** X11. Deleting the set that [addSetToExercise] has just added gives
    the snapshot back: the set is the last one of the session of that
    day, or the only one of the session the call created, which
    [deleteSet] then removes again. It takes exercise ids that are
    unique, and an exercise without empty sessions whose session ids are
    unique and differ from the new one. *)
Theorem deleteSet_undoes_addSetToExercise :
  forall (data : Data) (exerciseId : string) (set : WSet number)
         (date : option Date) (now t : Z) (newId : string)
         (e : Exercise number),
    NoDup (map (@ex_id number) (exercises data)) ->
    In e (exercises data) -> ex_id e = exerciseId ->
    Forall (fun s => es_sets s <> []) (ex_sessions e) ->
    NoDup (newId :: map (@es_id number) (ex_sessions e)) ->
    match date with Some d => d | None => TimeClip now end = Some t ->
    exists data1,
      addSetToExercise exerciseId set date now newId data = Some data1 /\
      match find (fun s => String.eqb (datePart (es_date s))
                                      (datePart (toISOString t)))
                 (ex_sessions e) with
      | Some existing =>
          deleteSet exerciseId (es_id existing)
            (Z.of_nat (List.length (es_sets existing))) data1 = data
      | None => deleteSet exerciseId newId 0 data1 = data
      end.
Proof.
  intros data exerciseId set date now t newId e Hids He Hid Hfull Hsids Ht.
  unfold addSetToExercise. rewrite Ht. eexists. split; [reflexivity|].
  rewrite Forall_forall in Hfull.
  inversion Hsids as [|? ? Hfresh Hsids']; subst.
  destruct (find _ (ex_sessions e)) as [existing|] eqn:Ef.
  - destruct (@find_split _ _ _ _ Ef) as [l1 [l2 [Hsplit [Hbefore Hon]]]].
    unfold addSetToExercise_update, deleteSet.
    cbn [exercises workoutSessions].
    rewrite map_map, map_fixed; [now destruct data|].
    intros e' He'.
    destruct (String.eqb (ex_id e') (ex_id e)) eqn:Eid; cbn [negb].
    2:{ rewrite Eid. reflexivity. }
    apply String.eqb_eq in Eid.
    assert (e' = e) by (apply (@unique_by_key _ (@ex_id number) _ _ _ Hids); trivial).
    subst e'. clear Eid He'.
    rewrite Hsplit, (@findIndex_first _ _ _ _ _ Hbefore Hon), nth_error_middle,
      array_set_middle.
    cbn [with_sessions ex_id ex_sessions]. rewrite String.eqb_refl.
    cbn [negb].
    rewrite Hsplit in Hsids', Hfull. rewrite map_app in Hsids'.
    cbn [map] in Hsids'.
    assert (Hl1 : forall s, In s l1 -> es_id s <> es_id existing).
    { intros s Hs E. apply NoDup_remove_2 in Hsids'. apply Hsids'.
      apply in_or_app. left. rewrite <- E. now apply in_map. }
    assert (Hl2 : forall s, In s l2 -> es_id s <> es_id existing).
    { intros s Hs E. apply NoDup_remove_2 in Hsids'. apply Hsids'.
      apply in_or_app. right. rewrite <- E. now apply in_map. }
    assert (Hkeep : forall l : list (ExerciseSession number),
               (forall s, In s l -> es_id s <> es_id existing) ->
               map (deleteSet_session (es_id existing)
                      (Z.of_nat (List.length (es_sets existing)))) l = l).
    { intros l Hl. apply map_fixed. intros s Hs. unfold deleteSet_session.
      specialize (Hl s Hs). apply String.eqb_neq in Hl. now rewrite Hl. }
    rewrite map_app. cbn [map]. rewrite (Hkeep l1 Hl1), (Hkeep l2 Hl2).
    unfold deleteSet_session at 1. cbn [with_sets es_id es_date es_sets].
    rewrite String.eqb_refl. cbn [negb].
    pose proof (filter_index_drop_last (es_sets existing) 0 set) as Hdrop.
    cbn [Nat.add] in Hdrop. rewrite Hdrop.
    change (with_sets (with_sets existing (es_sets existing ++ [set]))
              (es_sets existing)) with (with_sets existing (es_sets existing)).
    rewrite with_sets_same, filter_all.
    + rewrite <- Hsplit.
      transitivity (with_sessions e (ex_sessions e));
        [reflexivity|apply with_sessions_same].
    + intros s Hs. apply nonempty_length. now apply Hfull.
  - unfold addSetToExercise_update, deleteSet.
    cbn [exercises workoutSessions].
    rewrite map_map, map_fixed; [now destruct data|].
    intros e' He'.
    destruct (String.eqb (ex_id e') (ex_id e)) eqn:Eid; cbn [negb].
    2:{ rewrite Eid. reflexivity. }
    apply String.eqb_eq in Eid.
    assert (e' = e) by (apply (@unique_by_key _ (@ex_id number) _ _ _ Hids); trivial).
    subst e'. clear Eid He'.
    rewrite (@findIndex_none _ _ _ (find_none _ _ Ef)).
    cbn [with_sessions ex_id ex_sessions]. rewrite String.eqb_refl.
    cbn [negb].
    rewrite map_app, filter_app, deleteSet_keeps_others.
    + cbn [map]. unfold deleteSet_session. cbn [es_id].
      rewrite String.eqb_refl.
      cbn [negb with_sets es_sets filter_index Z.of_nat Z.eqb filter
           List.length Nat.ltb Nat.leb].
      rewrite app_nil_r.
      transitivity (with_sessions e (ex_sessions e));
        [reflexivity|apply with_sessions_same].
    + intros s Hs. split; [|now apply Hfull].
      intros E. apply Hfresh. rewrite <- E. now apply in_map.
Qed.

(** ** getCategories and getExercisesByCategory *)

Lemma getCategories_In (data : Data) (c : string) :
  In c (getCategories data) <->
  exists e, In e (exercises data) /\ ex_category e = c.
Proof.
  destruct (fold_set_add (fun _ : Exercise number => true)
              (@ex_category number) (exercises data) []) as [_ Hi].
  cbv zeta beta iota in Hi.
  unfold getCategories. rewrite array_sort_In, Hi. split.
  - intros [[]|[e [He [_ Hc]]]]. exists e. auto.
  - intros [e [He Hc]]. right. exists e. auto.
Qed.

(** X12. [getCategories] lists, in strictly ascending order and so
    without repetition, exactly the categories that some exercise has;
    these are the categories for which [getExercisesByCategory] returns
    a non-empty list, and every exercise is in the list of its own
    category and of no other. *)
Theorem getCategories_are_the_groups :
  forall (data : Data),
    let cats := getCategories data in
    StronglySorted str_lt cats /\
    NoDup cats /\
    (forall c, In c cats <->
               exists e, In e (exercises data) /\ ex_category e = c) /\
    (forall c, In c cats <-> getExercisesByCategory data c <> []) /\
    (forall e c, In e (getExercisesByCategory data c) <->
                 In e (exercises data) /\ ex_category e = c).
Proof.
  intros data cats.
  destruct (fold_set_add (fun _ : Exercise number => true)
              (@ex_category number) (exercises data) []) as [Hn _].
  cbv zeta beta iota in Hn.
  assert (Hnd : NoDup cats).
  { apply array_sort_NoDup, Hn. constructor. }
  assert (Hin : forall c, In c cats <->
                          exists e, In e (exercises data) /\ ex_category e = c)
    by (intros c; apply getCategories_In).
  assert (Hby : forall e c, In e (getExercisesByCategory data c) <->
                            In e (exercises data) /\ ex_category e = c).
  { intros e c. unfold getExercisesByCategory.
    now rewrite filter_In, String.eqb_eq. }
  split; [apply sorted_strict; [apply array_sort_sorted|exact Hnd]|].
  split; [exact Hnd|]. split; [exact Hin|]. split; [|exact Hby].
  intros c. rewrite Hin. split.
  - intros [e He] E. apply Hby in He. rewrite E in He. destruct He.
  - intros Hne. destruct (getExercisesByCategory data c) as [|e r] eqn:E;
      [congruence|].
    exists e. apply Hby. rewrite E. now left.
Qed.

(** ** getExerciseMaxWeight *)

Lemma fold_sets_flat (gt : number -> number -> bool)
      (sessions : list (ExerciseSession number)) (init : number) :
  fold_left (fun max session =>
               fold_left (fun max' set =>
                            if gt (weight set) max' then weight set else max')
                         (es_sets session) max)
            sessions init =
  fold_left (fun max' set => if gt (weight set) max' then weight set else max')
            (flat_map (@es_sets number) sessions) init.
Proof.
  revert init. induction sessions as [|s rest IH]; intros init; cbn; trivial.
  now rewrite fold_left_app, IH.
Qed.

(** X13. For a comparison that behaves as [>] does on numbers that are
    not [NaN], [getExerciseMaxWeight] returns [0] or the weight of one
    of the sets of the exercise, and no set of the exercise is heavier
    than what it returns; the result is never below [0], so an exercise
    with no set, or with negative weights only, gets [0]. *)
Theorem getExerciseMaxWeight_is_greatest :
  forall (zero : number) (gt : number -> number -> bool) (e : Exercise number),
    (forall a, gt a a = false) ->
    (forall a b c, gt a b = false -> gt c b = true -> gt a c = false) ->
    let m := getExerciseMaxWeight zero gt e in
    (m = zero \/
     exists s set, In s (ex_sessions e) /\ In set (es_sets s) /\
                   weight set = m) /\
    gt zero m = false /\
    (forall s set, In s (ex_sessions e) -> In set (es_sets s) ->
                   gt (weight set) m = false).
Proof.
  intros zero gt e Hirr Htr m.
  assert (Hfold : forall (sets : list (WSet number)) init,
             let r := fold_left
                        (fun max' set =>
                           if gt (weight set) max' then weight set else max')
                        sets init in
             (r = init \/ exists set, In set sets /\ weight set = r) /\
             (forall a, gt a init = false -> gt a r = false) /\
             (forall set, In set sets -> gt (weight set) r = false)).
  { induction sets as [|x sets IH]; intros init; cbn [fold_left].
    - split; [now left|]. split; [trivial|]. intros set [].
    - set (init' := if gt (weight x) init then weight x else init).
      destruct (IH init') as [Hr [Hmono Hmax]].
      assert (Hstep : forall a, gt a init = false -> gt a init' = false).
      { intros a Ha. unfold init'.
        destruct (gt (weight x) init) eqn:Ex; [|exact Ha].
        exact (Htr a init (weight x) Ha Ex). }
      assert (Hx : gt (weight x) init' = false).
      { unfold init'. destruct (gt (weight x) init) eqn:Ex; [apply Hirr|].
        exact Ex. }
      split; [|split].
      + destruct Hr as [Hr|[set [Hin Hw]]].
        * unfold init' in Hr. destruct (gt (weight x) init).
          -- right. exists x. split; [now left|now symmetry].
          -- now left.
        * right. exists set. split; [now right|exact Hw].
      + intros a Ha. apply Hmono, Hstep, Ha.
      + intros set [<-|Hin]; [apply Hmono, Hx|now apply Hmax]. }
  unfold m, getExerciseMaxWeight. rewrite fold_sets_flat.
  destruct (Hfold (flat_map (@es_sets number) (ex_sessions e)) zero)
    as [Hr [Hmono Hmax]].
  split; [|split].
  - destruct Hr as [Hr|[set [Hin Hw]]]; [now left|]. right.
    apply in_flat_map in Hin. destruct Hin as [s [Hs Hin]].
    exists s, set. auto.
  - apply Hmono, Hirr.
  - intros s set Hs Hin. apply Hmax. apply in_flat_map. exists s. auto.
Qed.

(** ** getMuscleGroupOrder: the range of the rank *)

Lemma findIndex_bound (A : Type) (p : A -> bool) (l : list A) (i : nat) :
  findIndex p l = Some i -> i < List.length l.
Proof.
  revert i. induction l as [|a l IH]; intros i; [discriminate|].
  cbn [findIndex List.length]. destruct (p a); [intros [= <-]; lia|].
  destruct (findIndex p l) as [j|]; [|discriminate].
  intros [= <-]. specialize (IH j eq_refl). lia.
Qed.

Lemma filter_length_le (A : Type) (p : A -> bool) (l : list A) :
  List.length (filter p l) <= List.length l.
Proof. induction l as [|a l IH]; cbn; [lia|]. destruct (p a); cbn; lia. Qed.

(** X14. A rank [getMuscleGroupOrder] returns is at least 1, and at
    most the number of exercises, or the number of ids listed by a
    workout session of that day that lists the exercise. *)
Theorem getMuscleGroupOrder_rank_range :
  forall (exerciseId category sessionDate : string)
         (wss : list WorkoutSession) (allExercises : list (Exercise number))
         (rank : nat),
    getMuscleGroupOrder exerciseId category sessionDate wss allExercises
      = Some rank ->
    1 <= rank /\
    (rank <= List.length allExercises \/
     exists ws, In ws wss /\ In exerciseId (exerciseIds ws) /\
                datePart (startTime ws) = datePart sessionDate /\
                rank <= List.length (exerciseIds ws)).
Proof.
  intros exerciseId category sessionDate wss allExercises rank.
  unfold getMuscleGroupOrder.
  set (fallback := match findIndex _ (filter _ allExercises) with
                   | Some index => Some (index + 1)
                   | None => None
                   end).
  assert (Hfb : fallback = Some rank ->
                1 <= rank /\ rank <= List.length allExercises).
  { unfold fallback.
    destruct (findIndex _ (filter _ allExercises)) as [i|] eqn:Ei;
      [|discriminate].
    intros [= <-]. apply findIndex_bound in Ei.
    pose proof (filter_length_le
                  (fun ex : Exercise number =>
                     String.eqb (ex_category ex) category
                     && existsb (fun s =>
                                   String.eqb (datePart (es_date s))
                                              (datePart sessionDate)
                                   && Nat.ltb 0 (List.length (es_sets s)))
                                (ex_sessions ex))
                  allExercises).
    lia. }
  destruct (find _ wss) as [ws|] eqn:Ef.
  - destruct (findIndex (String.eqb exerciseId) _) as [i|] eqn:Ei.
    + intros [= <-]. apply findIndex_bound in Ei.
      pose proof (filter_length_le
                    (fun id =>
                       match find (fun e : Exercise number =>
                                     String.eqb (ex_id e) id)
                                  allExercises with
                       | Some ex => String.eqb (ex_category ex) category
                       | None => false
                       end)
                    (exerciseIds ws)).
      split; [lia|]. right. exists ws.
      apply find_some in Ef. destruct Ef as [Hin Hp].
      apply andb_true_iff in Hp. destruct Hp as [Hd Hinc].
      apply String.eqb_eq in Hd. apply includes_In in Hinc.
      repeat split; trivial. lia.
    + intros H. destruct (Hfb H). split; [lia|]. now left.
  - intros H. destruct (Hfb H). split; [lia|]. now left.
Qed.

(** ** The newest-first sort and the queries that use it *)

Section History.

Variable Date_parse : string -> Date.

Local Abbreviation sorted := (sort_newest_first Date_parse).
Local Abbreviation insert := (sort_insert_by Date_parse).
Local Abbreviation first := (comes_first Date_parse).

(** [a] is dated no earlier than [b], both dates being valid. *)
Local Abbreviation newer :=
  (fun a b : ExerciseSession number =>
     exists ta tb, Date_parse (es_date a) = Some ta /\
                   Date_parse (es_date b) = Some tb /\ (tb <= ta)%Z).

Local Abbreviation dated :=
  (fun s : ExerciseSession number => Date_parse (es_date s) <> None).

Lemma comes_first_total (a b : ExerciseSession number) :
  first a b = false -> first b a = true.
Proof.
  unfold comes_first, compare_newest_first.
  destruct (Date_parse (es_date b)) as [tb|], (Date_parse (es_date a)) as [ta|];
    try discriminate.
  intros H. apply Z.leb_gt in H. apply Z.leb_le. lia.
Qed.

Lemma comes_first_newer (a b : ExerciseSession number) :
  dated a -> dated b -> (first a b = true <-> newer a b).
Proof.
  unfold comes_first, compare_newest_first. intros Ha Hb.
  destruct (Date_parse (es_date b)) as [tb|], (Date_parse (es_date a)) as [ta|];
    try congruence.
  rewrite Z.leb_le. split.
  - intros H. exists ta, tb. repeat split. lia.
  - intros [ta' [tb' [[= <-] [[= <-] H]]]]. lia.
Qed.

Lemma newer_trans (a b c : ExerciseSession number) :
  newer a b -> newer b c -> newer a c.
Proof.
  intros [ta [tb [Ha [Hb Hab]]]] [tb' [tc [Hb' [Hc Hbc]]]].
  rewrite Hb in Hb'. injection Hb' as <-.
  exists ta, tc. repeat split; trivial. lia.
Qed.

Lemma sort_insert_by_perm (x : ExerciseSession number)
      (l : list (ExerciseSession number)) :
  Permutation (insert x l) (x :: l).
Proof.
  induction l as [|y l IH]; cbn [sort_insert_by]; [reflexivity|].
  destruct (first x y); [reflexivity|].
  rewrite IH. apply perm_swap.
Qed.

Lemma sort_newest_first_perm (l : list (ExerciseSession number)) :
  Permutation (sorted l) l.
Proof.
  induction l as [|x l IH]; [reflexivity|].
  change (sorted (x :: l)) with (insert x (sorted l)).
  rewrite sort_insert_by_perm. now constructor.
Qed.

Lemma sort_insert_by_sorted (x : ExerciseSession number)
      (l : list (ExerciseSession number)) :
  Sorted (fun a b => first a b = true) l ->
  Sorted (fun a b => first a b = true) (insert x l).
Proof.
  induction l as [|y l IH]; intros Hl; cbn [sort_insert_by].
  - repeat constructor.
  - destruct (first x y) eqn:E.
    + constructor; [exact Hl|]. now constructor.
    + inversion Hl as [|? ? Hl' Hhd]; subst.
      constructor; [now apply IH|].
      destruct l as [|z l']; cbn [sort_insert_by].
      * constructor. now apply comes_first_total.
      * destruct (first x z).
        -- constructor. now apply comes_first_total.
        -- constructor. now inversion Hhd.
Qed.

Lemma sort_newest_first_sorted (l : list (ExerciseSession number)) :
  Sorted (fun a b => first a b = true) (sorted l).
Proof.
  induction l as [|x l IH]; [constructor|].
  change (sorted (x :: l)) with (insert x (sorted l)).
  now apply sort_insert_by_sorted.
Qed.

Lemma sort_of_sorted (l : list (ExerciseSession number)) :
  Sorted (fun a b => first a b = true) l -> sorted l = l.
Proof.
  induction l as [|x l IH]; intros Hl; [reflexivity|].
  inversion Hl as [|? ? Hl' Hhd]; subst.
  change (sorted (x :: l)) with (insert x (sorted l)).
  rewrite (IH Hl').
  destruct l as [|y l']; [reflexivity|].
  cbn [sort_insert_by]. inversion Hhd as [|? ? Hxy]; subst. now rewrite Hxy.
Qed.

Lemma sorted_dated_strongly (l : list (ExerciseSession number)) :
  Forall dated l ->
  Sorted (fun a b => first a b = true) l -> StronglySorted newer l.
Proof.
  induction l as [|x l IH]; intros Hd Hl; [constructor|].
  inversion Hd as [|? ? Hx Hd']; subst.
  inversion Hl as [|? ? Hl' Hhd]; subst.
  specialize (IH Hd' Hl').
  constructor; [exact IH|].
  destruct l as [|y l']; [constructor|].
  inversion Hhd as [|? ? Hxy]; subst.
  inversion Hd' as [|? ? Hy _]; subst.
  apply (comes_first_newer Hx Hy) in Hxy.
  constructor; [exact Hxy|].
  inversion IH as [|? ? _ Hall]; subst.
  eapply Forall_impl; [|exact Hall].
  intros z Hz. exact (newer_trans Hxy Hz).
Qed.

Lemma sort_newest_first_strongly (l : list (ExerciseSession number)) :
  Forall dated l -> StronglySorted newer (sorted l).
Proof.
  intros Hd. apply sorted_dated_strongly; [|apply sort_newest_first_sorted].
  apply Forall_forall. intros s Hs. rewrite Forall_forall in Hd.
  apply Hd. eapply Permutation_in; [apply sort_newest_first_perm|exact Hs].
Qed.

(** X15. [getExerciseLastSession] only reorders the sessions of the
    exercise it is given: afterwards the exercise has the same sessions,
    each as often as before, and the same other fields. What it returns
    is the first session in the new order, [null] exactly for an exercise
    without sessions. When every date is one the host can parse (the
    comparison is then an ordering, and the sort, being stable, has one
    possible outcome), the new order is newest first, so the session
    returned is dated no earlier than any other, and a second call finds
    the sessions in order, returns the same session and changes nothing
    more. *)
Theorem getExerciseLastSession_sorts_once :
  forall (e : Exercise number),
    let r := getExerciseLastSession Date_parse e in
    ex_id (snd r) = ex_id e /\ ex_name (snd r) = ex_name e /\
    ex_category (snd r) = ex_category e /\
    Permutation (ex_sessions (snd r)) (ex_sessions e) /\
    fst r = nth_error (ex_sessions (snd r)) 0 /\
    (fst r = None <-> ex_sessions e = []) /\
    (Forall dated (ex_sessions e) ->
     StronglySorted newer (ex_sessions (snd r)) /\
     getExerciseLastSession Date_parse (snd r) = r).
Proof.
  intros e r. unfold r, getExerciseLastSession.
  destruct (ex_sessions e) as [|x l] eqn:E.
  - cbn [List.length Nat.eqb fst snd]. rewrite E.
    cbn [List.length Nat.eqb nth_error].
    repeat split; trivial; try discriminate. constructor.
  - cbn [List.length Nat.eqb fst snd with_sessions ex_id ex_name ex_category
         ex_sessions].
    pose proof (sort_newest_first_perm (x :: l)) as Hperm.
    pose proof (sort_newest_first_sorted (x :: l)) as Hsorted.
    destruct (sorted (x :: l)) as [|y l'] eqn:Es.
    { apply Permutation_nil in Hperm. discriminate. }
    cbn [List.length Nat.eqb nth_error].
    split; [reflexivity|]. split; [reflexivity|]. split; [reflexivity|].
    split; [exact Hperm|]. split; [reflexivity|].
    split; [split; discriminate|]. intros Hd. split.
    + rewrite <- Es. now apply sort_newest_first_strongly.
    + rewrite (sort_of_sorted Hsorted). reflexivity.
Qed.

Lemma StronglySorted_app_inv (A : Type) (R : A -> A -> Prop) (l1 l2 : list A) :
  StronglySorted R (l1 ++ l2) ->
  StronglySorted R l1 /\ forall x y, In x l1 -> In y l2 -> R x y.
Proof.
  induction l1 as [|a l1 IH]; cbn [app]; intros H.
  - split; [constructor|]. intros x y [].
  - inversion H as [|? ? Hs Hall]; subst. destruct (IH Hs) as [H1 H2].
    split.
    + constructor; [exact H1|]. apply Forall_forall. intros x Hx.
      rewrite Forall_forall in Hall. apply Hall. apply in_or_app. now left.
    + intros x y [<-|Hx] Hy; [|now apply H2].
      rewrite Forall_forall in Hall. apply Hall. apply in_or_app. now right.
Qed.

(** X16. The sessions [getExercisePreviousSessions] returns are at most
    [count] sessions of the exercise, none of them dated on the UTC day
    of the current time; [getExercisePreviousSession] returns the first
    of them. When every date is one the host can parse they are in
    newest-first order and are the most recent ones: a session of
    another day that is left out is dated no later than any returned. *)
Theorem getExercisePreviousSessions_most_recent :
  forall (now : Z) (e : Exercise number) (count : nat),
    let today := date_string (now / msPerDay) in
    let r := fst (getExercisePreviousSessions Date_parse now e count) in
    List.length r <= count /\
    Forall (fun s => In s (ex_sessions e) /\ datePart (es_date s) <> today) r /\
    fst (getExercisePreviousSession Date_parse now e) =
      nth_error
        (fst (getExercisePreviousSessions Date_parse now e (S count))) 0 /\
    (Forall dated (ex_sessions e) ->
     StronglySorted newer r /\
     forall s, In s (ex_sessions e) -> datePart (es_date s) <> today ->
               In s r \/ Forall (fun x => newer x s) r).
Proof.
  intros now e count today r.
  unfold r, getExercisePreviousSessions, getExercisePreviousSession.
  cbn [fst]. rewrite datePart_toISOString. fold today.
  set (others := filter (fun s => negb (String.eqb (datePart (es_date s)) today))
                        (ex_sessions e)).
  assert (Hothers : forall s, In s others <->
                              In s (ex_sessions e) /\
                              datePart (es_date s) <> today).
  { intros s. unfold others.
    now rewrite filter_In, negb_true_iff, String.eqb_neq. }
  split; [apply firstn_le_length|]. split.
  { apply Forall_forall. intros s Hs. apply Hothers.
    eapply Permutation_in; [apply sort_newest_first_perm|].
    rewrite <- (firstn_skipn count (sorted others)).
    apply in_or_app. now left. }
  split.
  { destruct (sorted others); reflexivity. }
  intros Hd.
  assert (Hd' : Forall dated others).
  { apply Forall_forall. intros s Hs. apply Hothers in Hs.
    rewrite Forall_forall in Hd. now apply Hd. }
  pose proof (sort_newest_first_strongly Hd') as Hss.
  rewrite <- (firstn_skipn count (sorted others)) in Hss.
  apply StronglySorted_app_inv in Hss. destruct Hss as [Hfirst Hcross].
  split; [exact Hfirst|].
  intros s Hs Hday.
  assert (Hin : In s (sorted others)).
  { eapply Permutation_in;
      [apply Permutation_sym, sort_newest_first_perm|].
    apply Hothers. auto. }
  rewrite <- (firstn_skipn count (sorted others)) in Hin.
  apply in_app_or in Hin. destruct Hin as [Hin|Hin]; [now left|].
  right. apply Forall_forall. intros x Hx. now apply Hcross.
Qed.

End History.

(** ** Logging a set and the workout dates *)

Lemma findIndex_some (A : Type) (p : A -> bool) (l : list A) (i : nat) :
  findIndex p l = Some i -> exists x, nth_error l i = Some x /\ p x = true.
Proof.
  revert i. induction l as [|a l IH]; intros i; [discriminate|].
  cbn [findIndex]. destruct (p a) eqn:Ea.
  - intros [= <-]. exists a. auto.
  - destruct (findIndex p l) as [j|]; [|discriminate].
    intros [= <-]. exact (IH j eq_refl).
Qed.

Lemma getUniqueWorkoutDates_NoDup (data : Data) :
  NoDup (getUniqueWorkoutDates data).
Proof.
  unfold getUniqueWorkoutDates. rewrite fold_sessions_flat.
  apply array_sort_NoDup.
  apply (fold_set_add
           (fun ws => truthy_bool (isDwarfWorkout ws)
                      && truthy_string (endTime ws))
           (fun ws => datePart (startTime ws))).
  apply (fold_set_add (fun _ : ExerciseSession number => true)
           (fun s => datePart (es_date s))).
  constructor.
Qed.

(** X17. A set logged for an exercise of the snapshot makes the UTC
    calendar day of the given instant a workout date, in whatever time
    zone the user is; every former workout date stays and no other date
    appears, so the number of workouts grows by one at most. For an id
    that no exercise has, the workout dates do not change. *)
Theorem addSetToExercise_makes_a_workout_date :
  forall (data : Data) (exerciseId : string) (set : WSet number)
         (date : option Date) (now t : Z) (newId : string),
    match date with Some d => d | None => TimeClip now end = Some t ->
    exists data',
      addSetToExercise exerciseId set date now newId data = Some data' /\
      (forall d,
          In d (getUniqueWorkoutDates data') <->
          In d (getUniqueWorkoutDates data) \/
          (d = date_string (t / msPerDay) /\
           exists e, In e (exercises data) /\ ex_id e = exerciseId)) /\
      getTotalWorkouts data <= getTotalWorkouts data' /\
      getTotalWorkouts data' <= S (getTotalWorkouts data).
Proof.
  intros data exerciseId set date now t newId Ht.
  unfold addSetToExercise. rewrite Ht. eexists. split; [reflexivity|].
  set (data' := addSetToExercise_update _ _ _ _ _).
  set (D := date_string (t / msPerDay)).
  set (day := fun s : ExerciseSession number => datePart (es_date s)).
  assert (Hdays : forall e, In e (exercises data) ->
            exists e', In e' (exercises data') /\
              forall d, In d (map day (ex_sessions e')) <->
                        In d (map day (ex_sessions e)) \/
                        (d = D /\ ex_id e = exerciseId)).
  { intros e He. eexists. split.
    { unfold data', addSetToExercise_update. cbn [exercises].
      apply in_map. exact He. }
    cbv beta. rewrite datePart_toISOString. fold D.
    destruct (String.eqb (ex_id e) exerciseId) eqn:Eid; cbn [negb].
    2:{ apply String.eqb_neq in Eid. intros d. tauto. }
    apply String.eqb_eq in Eid.
    destruct (findIndex _ (ex_sessions e)) as [i|] eqn:Ei.
    - destruct (findIndex_some _ _ Ei) as [x [Hx Hp]]. rewrite Hx.
      cbn [with_sessions ex_sessions].
      rewrite (@map_array_set_same _ _ day _ _ _ _ Hx) by reflexivity.
      apply String.eqb_eq in Hp. intros d. split; [auto|].
      intros [H|[-> _]]; [exact H|].
      apply in_map_iff. exists x. split; [exact Hp|].
      eapply nth_error_In, Hx.
    - cbn [with_sessions ex_sessions]. intros d.
      rewrite map_app, in_app_iff. cbn [map In day es_date].
      unfold day at 2. cbn [es_date]. rewrite datePart_toISOString. fold D.
      intuition. }
  assert (Hback : forall e', In e' (exercises data') ->
            exists e, In e (exercises data) /\
              forall d, In d (map day (ex_sessions e')) ->
                        In d (map day (ex_sessions e)) \/
                        (d = D /\ ex_id e = exerciseId)).
  { intros e' He'. unfold data', addSetToExercise_update in He'.
    cbn [exercises] in He'. apply in_map_iff in He'.
    destruct He' as [e [<- He]]. exists e. split; [exact He|].
    cbv beta. rewrite datePart_toISOString. fold D.
    destruct (String.eqb (ex_id e) exerciseId) eqn:Eid; cbn [negb];
      [|intros d; tauto].
    apply String.eqb_eq in Eid.
    destruct (findIndex _ (ex_sessions e)) as [i|] eqn:Ei.
    - destruct (findIndex_some _ _ Ei) as [x [Hx Hp]]. rewrite Hx.
      cbn [with_sessions ex_sessions].
      rewrite (@map_array_set_same _ _ day _ _ _ _ Hx) by reflexivity.
      intros d. tauto.
    - cbn [with_sessions ex_sessions]. intros d.
      rewrite map_app, in_app_iff. cbn [map In day es_date].
      unfold day at 2. cbn [es_date]. rewrite datePart_toISOString. fold D.
      intuition. }
  assert (Hdates : forall d,
             In d (getUniqueWorkoutDates data') <->
             In d (getUniqueWorkoutDates data) \/
             (d = D /\ exists e, In e (exercises data) /\
                                 ex_id e = exerciseId)).
  { intros d. rewrite !getUniqueWorkoutDates_In.
    change (workoutSessions data') with (workoutSessions data). split.
    - intros [[e' [s [He' [Hs Hd]]]]|Hdwarf]; [|left; right; exact Hdwarf].
      destruct (Hback e' He') as [e [He Hsub]].
      destruct (Hsub d) as [Hin|[-> Hid]].
      { apply in_map_iff. exists s. auto. }
      + apply in_map_iff in Hin. destruct Hin as [s0 [Hs0 Hin]].
        left. left. exists e, s0. auto.
      + right. split; [reflexivity|]. exists e. auto.
    - intros [[[e [s [He [Hs Hd]]]]|Hdwarf]|[-> [e [He Hid]]]].
      + destruct (Hdays e He) as [e' [He' Hiff]]. left.
        assert (Hin : In d (map day (ex_sessions e'))).
        { apply Hiff. left. apply in_map_iff. exists s. auto. }
        apply in_map_iff in Hin. destruct Hin as [s' [Hs' Hin]].
        exists e', s'. auto.
      + right. exact Hdwarf.
      + destruct (Hdays e He) as [e' [He' Hiff]]. left.
        assert (Hin : In D (map day (ex_sessions e'))).
        { apply Hiff. right. auto. }
        apply in_map_iff in Hin. destruct Hin as [s' [Hs' Hin]].
        exists e', s'. auto. }
  split; [exact Hdates|].
  unfold getTotalWorkouts. split.
  - apply NoDup_incl_length; [apply getUniqueWorkoutDates_NoDup|].
    intros d Hd. apply Hdates. now left.
  - change (S (List.length (getUniqueWorkoutDates data)))
      with (List.length (D :: getUniqueWorkoutDates data)).
    apply NoDup_incl_length; [apply getUniqueWorkoutDates_NoDup|].
    intros d Hd. apply Hdates in Hd. destruct Hd as [Hd|[-> _]];
      [now right|now left].
Qed.

(** ** ordinal *)

Lemma below_100_cases (P : Z -> bool) (v : Z) :
  forallb (fun k => P (Z.of_nat k)) (seq 0 100) = true ->
  (0 <= v < 100)%Z -> P v = true.
Proof.
  intros Hall Hv. rewrite forallb_forall in Hall.
  rewrite <- (Z2Nat.id v) by lia. apply Hall. apply in_seq. lia.
Qed.

(** X18. For an integer [n] that a number holds exactly (below [2^53]
    in absolute value), [ordinal n] is [n] in decimal followed by the
    English ordinal suffix: "st", "nd" and "rd" after a last digit 1, 2
    and 3, except in 11, 12 and 13 and the numbers that end in them, and
    "th" otherwise; a negative integer always gets "th". *)
Theorem ordinal_suffix :
  forall n : Z,
    safe_integer n ->
    ordinal n =
    (Z_toString n ++
       (if (n <? 0)%Z then "th"
        else if ((11 <=? n mod 100) && (n mod 100 <=? 13))%Z then "th"
        else if (n mod 10 =? 1)%Z then "st"
        else if (n mod 10 =? 2)%Z then "nd"
        else if (n mod 10 =? 3)%Z then "rd"
        else "th"))%string.
Proof.
  intros n _. unfold ordinal. cbv zeta. f_equal.
  set (suffix := fun v : Z =>
                   or_else (array_at ["th"; "st"; "nd"; "rd"]
                                     (Z.rem (v - 20) 10))
                           (or_else (array_at ["th"; "st"; "nd"; "rd"] v)
                                    (hd "" ["th"; "st"; "nd"; "rd"]))).
  change (or_else _ _) with (suffix (Z.rem n 100)).
  destruct (n <? 0)%Z eqn:Hneg.
  - apply Z.ltb_lt in Hneg.
    replace (Z.rem n 100) with (- ((- n) mod 100))%Z.
    2:{ rewrite <- Z.rem_mod_nonneg by lia. rewrite Z.rem_opp_l by lia. lia. }
    assert (Hv : (0 <= (- n) mod 100 < 100)%Z) by (apply Z.mod_pos_bound; lia).
    apply String.eqb_eq.
    apply (below_100_cases (fun v => String.eqb (suffix (- v)%Z) "th"));
      [vm_compute; reflexivity|exact Hv].
  - apply Z.ltb_ge in Hneg.
    rewrite Z.rem_mod_nonneg by lia.
    rewrite <- (Z.mod_mod_divide n 100 10) by (exists 10%Z; lia).
    assert (Hv : (0 <= n mod 100 < 100)%Z) by (apply Z.mod_pos_bound; lia).
    apply String.eqb_eq.
    apply (below_100_cases
             (fun v => String.eqb (suffix v)
                         (if ((11 <=? v) && (v <=? 13))%Z then "th"
                          else if (v mod 10 =? 1)%Z then "st"
                          else if (v mod 10 =? 2)%Z then "nd"
                          else if (v mod 10 =? 3)%Z then "rd"
                          else "th")));
      [vm_compute; reflexivity|exact Hv].
Qed.

(** ** saveData and loadData *)

Section Persistence.

Variable Number_toString : number -> string.
Variable Number_ofString : string -> number.
Variable number_isFinite : number -> bool.

Local Abbreviation Value := (JSValue number).
Local Abbreviation compact :=
  (SerializeJSONProperty_compact Number_toString number_isFinite).
Local Abbreviation stringify :=
  (JSON_stringify_compact Number_toString number_isFinite).
Local Abbreviation faithful :=
  (json_faithful Number_toString Number_ofString number_isFinite).
Local Abbreviation parse_v := (parse_value Number_ofString).
Local Abbreviation parse_e := (parse_elements Number_ofString).
Local Abbreviation parse_m := (parse_members Number_ofString).
Local Abbreviation save :=
  (saveData Number_toString number_isFinite).
Local Abbreviation load :=
  (loadData Number_toString Number_ofString number_isFinite).

Lemma compact_first (v : Value) :
  faithful v ->
  exists c r, compact v = c :: r /\ is_ws c = false /\
              Ascii.eqb c "]" = false.
Proof.
  destruct v as [ |[|]|n|str|[|x xs]|[|kv fields]]; intros Hv;
    try (eexists; eexists; split; [reflexivity|split; reflexivity]).
  simpl in Hv. destruct Hv as [Hfin [Hlex _]]. simpl. rewrite Hfin.
  destruct (list_ascii_of_string (Number_toString n)) as [|c r];
    [discriminate Hlex|].
  apply number_run_first, number_start_dispatch in Hlex.
  exists c, r. tauto.
Qed.

Local Abbreviation reads_back v :=
  (forall rest fuel,
      no_number_start rest ->
      List.length (compact v) <= fuel ->
      parse_v fuel (compact v ++ rest) = Some (v, rest)).

Lemma parse_elements_compact :
  forall xs : list Value,
    Forall (fun x => reads_back x) xs -> xs <> [] ->
    forall acc rest fuel,
      List.length (join_parts [","%char] ["]"%char] (map compact xs)) <= fuel ->
      parse_e fuel
        (join_parts [","%char] ["]"%char] (map compact xs) ++ rest) acc
      = Some (JArray (acc ++ xs), rest).
Proof.
  intros xs Hxs.
  induction Hxs as [|x xs Hx Hxs IH]; intros Hne acc rest fuel Hlen;
    [congruence|].
  destruct xs as [|y ys].
  - rewrite join_map_one in *. rewrite length_app in Hlen.
    cbn [List.length] in Hlen.
    destruct fuel as [|f]; [lia|].
    rewrite parse_elements_eq, <- app_assoc.
    rewrite Hx; [|reflexivity|lia].
    cbn [app]. rewrite skip_ws_stop by reflexivity.
    reflexivity.
  - rewrite join_map_more in *. rewrite !length_app in Hlen.
    cbn [List.length] in Hlen.
    destruct fuel as [|f]; [lia|].
    rewrite parse_elements_eq, <- !app_assoc.
    rewrite Hx; [|reflexivity|lia].
    cbn [app]. rewrite skip_ws_stop by reflexivity.
    change (Ascii.eqb "," ",") with true. cbv iota.
    rewrite (IH ltac:(discriminate) (acc ++ [x]) rest f) by lia.
    now rewrite <- app_assoc.
Qed.

Local Abbreviation member :=
  (fun kv : string * Value =>
     match kv with
     | (k, x) => QuoteJSONString k ++ [":"%char] ++ compact x
     end).

Lemma parse_members_compact :
  forall fields : list (string * Value),
    Forall (fun kv => reads_back (snd kv)) fields -> fields <> [] ->
    forall acc rest fuel,
      NoDup (map fst (acc ++ fields)) ->
      List.length (join_parts [","%char] ["}"%char] (map member fields))
        <= fuel ->
      parse_m fuel
        (join_parts [","%char] ["}"%char] (map member fields) ++ rest) acc
      = Some (JObject (acc ++ fields), rest).
Proof.
  intros fields Hfs.
  induction Hfs as [|[k x] fields Hx Hfs IH]; intros Hne acc rest fuel Hnd Hlen;
    [congruence|].
  assert (Hfresh : ~ In k (map fst acc)).
  { rewrite map_app in Hnd. simpl in Hnd. apply NoDup_remove_2 in Hnd.
    intros Hin. apply Hnd. apply in_or_app. now left. }
  simpl snd in Hx.
  destruct fields as [|kv' fields'].
  - rewrite join_map_one in *. rewrite !length_app in Hlen.
    cbn [List.length] in Hlen.
    destruct fuel as [|f]; [lia|].
    rewrite parse_members_eq, <- !app_assoc.
    destruct (parse_QuoteJSONString k
                ([":"%char] ++ compact x ++ ["}"%char] ++ rest))
      as [body [Eq Hbody]].
    rewrite Eq. rewrite skip_ws_stop by reflexivity.
    rewrite Ascii.eqb_refl, Hbody.
    cbn [app]. rewrite skip_ws_stop by reflexivity.
    rewrite Ascii.eqb_refl.
    rewrite Hx; [|reflexivity|lia].
    cbn [app]. rewrite skip_ws_stop by reflexivity.
    change (Ascii.eqb "}" ",") with false. rewrite Ascii.eqb_refl. cbv iota.
    now rewrite (@define_property_fresh number Number_toString
                   Number_ofString number_isFinite).
  - rewrite join_map_more in *. rewrite !length_app in Hlen.
    cbn [List.length] in Hlen.
    destruct fuel as [|f]; [lia|].
    rewrite parse_members_eq, <- !app_assoc.
    destruct (parse_QuoteJSONString k
                ([":"%char] ++ compact x ++ [","%char]
                   ++ join_parts [","%char] ["}"%char]
                        (map member (kv' :: fields')) ++ rest))
      as [body [Eq Hbody]].
    rewrite Eq. rewrite skip_ws_stop by reflexivity.
    rewrite Ascii.eqb_refl, Hbody.
    cbn [app]. rewrite skip_ws_stop by reflexivity.
    rewrite Ascii.eqb_refl.
    rewrite Hx; [|reflexivity|lia].
    cbn [app]. rewrite skip_ws_stop by reflexivity.
    rewrite Ascii.eqb_refl.
    rewrite (@define_property_fresh number Number_toString
               Number_ofString number_isFinite) by exact Hfresh.
    replace (acc ++ (k, x) :: kv' :: fields')
      with ((acc ++ [(k, x)]) ++ kv' :: fields')
      by now rewrite <- app_assoc.
    apply IH; [discriminate|now rewrite <- app_assoc|lia].
Qed.

(** Parsing the text written without a gap for a faithful value gives
    the value back and stops right after it. *)
Lemma compact_reads_back (v : Value) : faithful v -> reads_back v.
Proof.
  induction v as [ |b|n|str|items IH|fields IH] using JSValue_nested_ind;
    intros Hv rest fuel Hrest Hlen;
    (destruct fuel as [|f];
     [destruct (compact_first _ Hv) as [c [r [E _]]];
      rewrite E, length_cons in Hlen; lia|]).
  - reflexivity.
  - destruct b; reflexivity.
  - destruct Hv as [Hfin [Hlex Hrt]].
    cbn [SerializeJSONProperty_compact]. rewrite Hfin.
    destruct (list_ascii_of_string (Number_toString n)) as [|c r] eqn:E;
      [discriminate Hlex|].
    pose proof (number_run_first _ _ Hlex) as Hc.
    destruct (number_start_dispatch _ Hc)
      as [Hws [Hn [Ht [Hf [Hq [Ha [Ho _]]]]]]].
    rewrite parse_value_eq. cbn [app]. rewrite skip_ws_stop by exact Hws.
    rewrite Hn, Ht, Hf, Hq, Ha, Ho, Hc.
    change (c :: r ++ rest) with ((c :: r) ++ rest).
    rewrite parse_number_lexeme by assumption.
    now rewrite <- E, string_of_list_ascii_of_string, Hrt.
  - cbn [SerializeJSONProperty_compact].
    destruct (parse_QuoteJSONString str rest) as [body [Eq Hbody]].
    rewrite Eq. rewrite parse_value_eq, skip_ws_stop by reflexivity.
    change (Ascii.eqb "034" "n") with false.
    change (Ascii.eqb "034" "t") with false.
    change (Ascii.eqb "034" "f") with false.
    rewrite Ascii.eqb_refl. cbv iota. now rewrite Hbody.
  - apply faithful_array in Hv.
    pose proof (@Forall_modus_ponens _ _ _ _ IH Hv) as Hitems.
    destruct items as [|x xs]; [reflexivity|].
    change (compact (JArray (x :: xs)))
      with ("["%char :: join_parts [","%char] ["]"%char]
                          (map compact (x :: xs))) in *.
    change (("["%char :: ?a) ++ ?b) with ("["%char :: (a ++ b)).
    rewrite parse_value_array.
    rewrite length_cons in Hlen.
    inversion Hv as [|? ? Hx _]; subst.
    destruct (compact_first _ Hx) as [c [r [E [Hws Hc]]]].
    assert (Hskip : exists t,
      skip_ws (join_parts [","%char] ["]"%char] (map compact (x :: xs))
                 ++ rest) = c :: t).
    { destruct xs as [|y ys].
      - rewrite join_map_one, E. cbn [app]. rewrite skip_ws_stop by exact Hws.
        eexists. reflexivity.
      - rewrite join_map_more, E. cbn [app]. rewrite skip_ws_stop by exact Hws.
        eexists. reflexivity. }
    destruct Hskip as [t Hskip].
    rewrite Hskip, Hc.
    apply (parse_elements_compact Hitems);
      [discriminate|exact (le_S_n _ _ Hlen)].
  - apply faithful_object in Hv. destruct Hv as [Hnd Hv].
    pose proof (@Forall_modus_ponens _ _ _ _ IH Hv) as Hfields.
    destruct fields as [|[k x] fs]; [reflexivity|].
    change (compact (JObject ((k, x) :: fs)))
      with ("{"%char :: join_parts [","%char] ["}"%char]
                          (map member ((k, x) :: fs))) in *.
    change (("{"%char :: ?a) ++ ?b) with ("{"%char :: (a ++ b)).
    rewrite parse_value_object.
    rewrite length_cons in Hlen.
    assert (Hskip : exists t,
      skip_ws (join_parts [","%char] ["}"%char] (map member ((k, x) :: fs))
                 ++ rest) = "034"%char :: t).
    { destruct fs as [|kv' fs'].
      - rewrite join_map_one. unfold QuoteJSONString. cbn [app].
        rewrite skip_ws_stop by reflexivity. eexists. reflexivity.
      - rewrite join_map_more. unfold QuoteJSONString. cbn [app].
        rewrite skip_ws_stop by reflexivity. eexists. reflexivity. }
    destruct Hskip as [t Hskip]. rewrite Hskip.
    change (Ascii.eqb "034" "}") with false. cbv iota.
    apply (parse_members_compact Hfields);
      [discriminate|exact Hnd|exact (le_S_n _ _ Hlen)].
Qed.

Lemma JSON_parse_stringify_compact (v : Value) :
  faithful v -> JSON_parse Number_ofString (stringify v) = Some v.
Proof.
  intros Hv. unfold JSON_parse, JSON_stringify_compact.
  rewrite list_ascii_of_string_of_list_ascii.
  pose proof (@compact_reads_back v Hv []
                (S (List.length (compact v)))
                I (Nat.le_succ_diag_r _)) as H.
  rewrite app_nil_r in H. now rewrite H.
Qed.

Lemma stringify_compact_nonempty (v : Value) :
  faithful v -> stringify v <> "".
Proof.
  intros Hv. unfold JSON_stringify_compact.
  destruct (compact_first _ Hv) as [c [r [E _]]]. rewrite E. discriminate.
Qed.


End Persistence.

(** ** The derivations on values that read as a snapshot *)

Section WellShaped.

Variable number_truthy : number -> bool.

Local Abbreviation Value := (JSValue number).

Ltac read_fields H :=
  repeat match type of H with
         | match ?t with _ => _ end = Some _ =>
             let E := fresh "E" in destruct t eqn:E; try discriminate H
         end.

Lemma js_get_object (v y : Value) (k0 : string) :
  get_property v k0 = Some y ->
  forall k, js_get v k = Some (get_property v k).
Proof. destruct v; try discriminate. reflexivity. Qed.

Lemma fold_throwing_read (A B C : Type) (read : B -> option C)
      (f : A -> B -> option A) (f' : A -> C -> A) (l : list B) :
  (forall a x y, In x l -> read x = Some y -> f a x = Some (f' a y)) ->
  forall l' acc,
    map_option read l = Some l' ->
    fold_throwing f l acc = Some (fold_left f' l' acc).
Proof.
  induction l as [|x l IH]; intros Hstep l' acc Hl; cbn [map_option] in Hl.
  - injection Hl as <-. reflexivity.
  - destruct (read x) as [y|] eqn:Ex; [|discriminate].
    destruct (map_option read l) as [ys|] eqn:El; [|discriminate].
    injection Hl as <-. cbn [fold_throwing fold_left].
    rewrite (Hstep acc x y (or_introl eq_refl) Ex).
    apply IH; trivial. intros a x' y' Hin. apply Hstep. now right.
Qed.

Lemma session_date_read (x : Value) (s : ExerciseSession number) :
  ExerciseSession_ofJS x = Some s ->
  js_get x "date" = Some (Some (JString (es_date s))).
Proof.
  intros H. unfold ExerciseSession_ofJS in H.
  destruct (get_property x "id") as [i|] eqn:Ei; [|discriminate].
  rewrite (js_get_object _ _ Ei). read_fields H.
  injection H as <-. reflexivity.
Qed.

Lemma exercise_sessions_read (x : Value) (e : Exercise number) :
  Exercise_ofJS x = Some e ->
  exists l, js_get x "sessions" = Some (Some (JArray l)) /\
            map_option (@ExerciseSession_ofJS number) l = Some (ex_sessions e).
Proof.
  intros H. unfold Exercise_ofJS in H.
  destruct (get_property x "id") as [i|] eqn:Ei; [|discriminate].
  rewrite (js_get_object _ _ Ei). read_fields H.
  injection H as <-. eexists. split; [reflexivity|eassumption].
Qed.

Lemma workout_session_read (x : Value) (ws : WorkoutSession) :
  WorkoutSession_ofJS x = Some ws ->
  js_get x "startTime" = Some (Some (JString (startTime ws))) /\
  (exists et, js_get x "endTime" = Some et /\
              js_truthy_opt number_truthy et = truthy_string (endTime ws)) /\
  (exists dw, js_get x "isDwarfWorkout" = Some dw /\
              js_truthy_opt number_truthy dw
                = truthy_bool (isDwarfWorkout ws)).
Proof.
  intros H. unfold WorkoutSession_ofJS in H.
  destruct (get_property x "id") as [i|] eqn:Ei; [|discriminate].
  rewrite !(js_get_object _ _ Ei). read_fields H;
    injection H as <-; cbn [startTime endTime isDwarfWorkout];
    (split; [reflexivity|]); split; eexists; split; reflexivity.
Qed.

(** X20. On every value that reads as a snapshot of the data model,
    whatever the order of its fields and whatever else it holds,
    [getUniqueWorkoutDates] and [getActiveWorkoutSession] run without an
    error and return what they return on that snapshot. *)
Theorem derivations_on_well_shaped_values :
  forall (v : Value) (data : Data),
    WorkoutData_ofJS v = Some data ->
    getUniqueWorkoutDates_js number_truthy v
      = Some (getUniqueWorkoutDates data) /\
    match getActiveWorkoutSession data with
    | Some ws =>
        exists x, getActiveWorkoutSession_js number_truthy v = Some (Some x) /\
                  WorkoutSession_ofJS x = Some ws
    | None => getActiveWorkoutSession_js number_truthy v = Some None
    end.
Proof.
  intros v data H. unfold WorkoutData_ofJS in H.
  destruct (get_property v "exercises") as [[ |b|n|s|exs|fs]|] eqn:Eexs;
    try discriminate.
  pose proof (js_get_object _ _ Eexs) as Hget.
  destruct (get_property v "workoutSessions") as [[ |b|n|s|wss|fs]|] eqn:E;
    try discriminate.
  destruct (map_option (@Exercise_ofJS number) exs) as [es|] eqn:Ees;
    [|discriminate].
  destruct (map_option (@WorkoutSession_ofJS number) wss) as [wl|] eqn:E1;
    [|discriminate].
  injection H as <-.
  split.
  - unfold getUniqueWorkoutDates_js, getUniqueWorkoutDates.
    rewrite !Hget, Eexs, E. cbn [js_iterate exercises workoutSessions].
    rewrite (@fold_throwing_read _ _ _ (@Exercise_ofJS number) _
               (fun dates exercise =>
                  fold_left (fun dates' session =>
                               set_add dates' (datePart (es_date session)))
                            (ex_sessions exercise) dates)
               exs) with (l' := es); trivial.
    + rewrite (@fold_throwing_read _ _ _ (@WorkoutSession_ofJS number) _
                 (fun dates session =>
                    if truthy_bool (isDwarfWorkout session)
                       && truthy_string (endTime session)
                    then set_add dates (datePart (startTime session))
                    else dates)
                 wss) with (l' := wl); trivial.
      intros a x ws _ Hx.
      destruct (workout_session_read _ Hx)
        as [Hst [[et [Het Htr]] [dw [Hdw Hdtr]]]].
      rewrite Hdw, Hdtr, Het, Htr, Hst. cbn [js_split_head].
      destruct (truthy_bool (isDwarfWorkout ws)); [|reflexivity].
      destruct (truthy_string (endTime ws)); reflexivity.
    + intros a x e _ Hx.
      destruct (exercise_sessions_read _ Hx) as [l [Hs Hl]].
      rewrite Hs. cbn [js_iterate].
      apply fold_throwing_read with (read := @ExerciseSession_ofJS number);
        trivial.
      intros a' y s _ Hy. rewrite (session_date_read _ Hy).
      reflexivity.
  - assert (Hfind : match find (fun s => negb (truthy_string (endTime s))) wl
                    with
                    | Some ws =>
                        exists x, find_active_js number_truthy wss
                                  = Some (Some x) /\
                                  WorkoutSession_ofJS x = Some ws
                    | None => find_active_js number_truthy wss = Some None
                    end).
    { clear E. revert wl E1.
      induction wss as [|x wss IH]; intros wl Hwl; cbn [map_option] in Hwl.
      + injection Hwl as <-. reflexivity.
      + destruct (WorkoutSession_ofJS x) as [ws|] eqn:Ex; [|discriminate].
        destruct (map_option _ wss) as [wl'|] eqn:El; [|discriminate].
        injection Hwl as <-. cbn [find find_active_js].
        destruct (workout_session_read _ Ex) as [_ [[et [Het Htr]] _]].
        rewrite Het, Htr.
        destruct (negb (truthy_string (endTime ws))).
        * exists x. auto.
        * now apply IH. }
    unfold getActiveWorkoutSession_js, getActiveWorkoutSession.
    rewrite Hget, E. cbn [workoutSessions].
    destruct (find _ wl) as [ws|].
    + destruct Hfind as [x [Hx Hws]]. rewrite Hx.
      exists x. split; [|exact Hws].
      unfold WorkoutSession_ofJS in Hws.
      destruct x; try discriminate Hws. reflexivity.
    + now rewrite Hfind.
Qed.

End WellShaped.

(** ** addExercise *)

(** X21. [addExercise] puts the new exercise, with no session, after the
    others: it becomes the last exercise of its category, the category
    is listed from then on, and the workout sessions and workout dates
    are as before. Deleting the new exercise gives the snapshot back when
    no exercise had its id. *)
Theorem addExercise_joins_its_category :
  forall (data : Data) (name category newId : string),
    let data' := addExercise name category newId data in
    workoutSessions data' = workoutSessions data /\
    getExercisesByCategory data' category =
      getExercisesByCategory data category
        ++ [mkExercise newId name category []] /\
    (forall c, In c (getCategories data') <->
               In c (getCategories data) \/ c = category) /\
    getUniqueWorkoutDates data' = getUniqueWorkoutDates data /\
    (Forall (fun e => ex_id e <> newId) (exercises data) ->
     deleteExercise newId data' = data).
Proof.
  intros data name category newId data'.
  unfold data', addExercise.
  split; [reflexivity|]. split.
  { unfold getExercisesByCategory. cbn [exercises].
    rewrite filter_app. cbn [filter ex_category].
    now rewrite String.eqb_refl. }
  split.
  { intros c. rewrite !getCategories_In. cbn [exercises]. split.
    - intros [e [He Hc]]. apply in_app_or in He.
      destruct He as [He|[<-|[]]]; [left; exists e; auto|].
      right. now symmetry.
    - intros [[e [He Hc]]| ->].
      + exists e. split; [apply in_or_app; now left|exact Hc].
      + eexists. split; [apply in_or_app; right; now left|reflexivity]. }
  split.
  { unfold getUniqueWorkoutDates. cbn [exercises workoutSessions].
    now rewrite fold_left_app. }
  intros Hfresh. unfold deleteExercise. cbn [exercises workoutSessions].
  rewrite filter_app. cbn [filter ex_id]. rewrite String.eqb_refl.
  cbn [negb]. rewrite app_nil_r, filter_all; [now destruct data|].
  intros e He. rewrite Forall_forall in Hfresh.
  apply negb_true_iff, String.eqb_neq. now apply Hfresh.
Qed.

(** ** Local time within a day of UTC *)

Lemma TimeClip_in_range (t : Z) :
  (Z.abs t <= maxTimeValue)%Z -> TimeClip t = Some t.
Proof. intros H. unfold TimeClip. apply Z.leb_le in H. now rewrite H. Qed.

Lemma Day_bounds (t : Z) :
  (t - msPerDay < Day t * msPerDay <= t)%Z.
Proof.
  unfold Day, msPerDay.
  pose proof (Z.mul_div_le t 86400000 ltac:(lia)).
  pose proof (Z.mul_succ_div_gt t 86400000 ltac:(lia)).
  lia.
Qed.

Lemma Day_shift (t k : Z) : Day (t + k * msPerDay) = (Day t + k)%Z.
Proof. unfold Day. apply Z.div_add. unfold msPerDay. lia. Qed.

Lemma Day_of_midnight (k : Z) : Day (k * msPerDay) = k.
Proof. unfold Day. apply Z.div_mul. unfold msPerDay. lia. Qed.

Section Host.

Variable localTZA : Z -> bool -> Z.
Variable Date_parse : string -> Date.

Local Abbreviation local := (LocalTime localTZA).
Local Abbreviation utc := (UTC localTZA).

Lemma weeksWithWorkouts_from_invalid (dates acc : list string) (d : string) :
  In d dates -> Date_parse d = None ->
  weeksWithWorkouts_from localTZA Date_parse dates acc = None.
Proof.
  revert acc. induction dates as [|x dates IH]; intros acc Hin Hd;
    [destruct Hin|].
  cbn [weeksWithWorkouts_from]. destruct Hin as [->|Hin].
  - rewrite Hd. reflexivity.
  - destruct (getWeekKey localTZA (Date_parse x)); [now apply IH|reflexivity].
Qed.

(** The offset of every time zone, with or without daylight saving, is
    less than a day. *)
Hypothesis offset_within_a_day :
  forall t isUTC, (Z.abs (localTZA t isUTC) <= msPerDay)%Z.

Lemma setHours0_in_range (t : Z) :
  (Z.abs t + 3 * msPerDay <= maxTimeValue)%Z ->
  exists u, setHours0 localTZA (Some t) = Some u /\
            u = utc (Day (local t) * msPerDay) /\
            (Z.abs u <= Z.abs t + 3 * msPerDay)%Z.
Proof.
  intros Ht. cbn [setHours0].
  set (m := (Day (local t) * msPerDay)%Z).
  assert (Hu : (Z.abs (utc m) <= Z.abs t + 3 * msPerDay)%Z).
  { pose proof (Day_bounds (local t)) as Hm. fold m in Hm.
    pose proof (offset_within_a_day t true).
    pose proof (offset_within_a_day m false).
    unfold UTC, LocalTime in *. lia. }
  exists (utc m). split; [apply TimeClip_in_range; lia|]. split; trivial.
Qed.

Lemma addDays_in_range (t k : Z) :
  (Z.abs t + (Z.abs k + 2) * msPerDay <= maxTimeValue)%Z ->
  exists u, addDays localTZA (Some t) k = Some u /\
            u = utc (local t + k * msPerDay) /\
            (Z.abs u <= Z.abs t + (Z.abs k + 2) * msPerDay)%Z.
Proof.
  intros Ht. cbn [addDays].
  set (a := (local t + k * msPerDay)%Z).
  assert (Hu : (Z.abs (utc a) <= Z.abs t + (Z.abs k + 2) * msPerDay)%Z).
  { pose proof (offset_within_a_day t true).
    pose proof (offset_within_a_day a false).
    assert (Hms : (0 < msPerDay)%Z) by (unfold msPerDay; lia).
    unfold a, UTC, LocalTime in *. nia. }
  exists (utc a). split; [apply TimeClip_in_range; lia|]. split; trivial.
Qed.

Lemma week_day_range (t : Z) :
  exists day, getDay localTZA (Some t) = Some day /\ (0 <= day < 7)%Z /\
              day = ((Day (local t) + 4) mod 7)%Z.
Proof.
  eexists. split; [reflexivity|]. split; [|reflexivity].
  apply Z.mod_pos_bound. lia.
Qed.

Lemma getWeekStart_in_range (t : Z) :
  (Z.abs t + 11 * msPerDay <= maxTimeValue)%Z ->
  exists w, getWeekStart localTZA (Some t) = Some w.
Proof.
  intros Ht. unfold getWeekStart.
  assert (Hms : (0 < msPerDay)%Z) by (unfold msPerDay; lia).
  destruct (setHours0_in_range t) as [u [-> [_ Hu]]]; [lia|].
  destruct (week_day_range u) as [day [-> [Hday _]]].
  cbv zeta.
  destruct (addDays_in_range u (if (day =? 0)%Z then -6 else 1 - day)%Z)
    as [w [-> _]]; [|eexists; reflexivity].
  destruct (day =? 0)%Z; nia.
Qed.

Lemma getWeekKey_in_range (t : Z) :
  (Z.abs t + 11 * msPerDay <= maxTimeValue)%Z ->
  exists k, getWeekKey localTZA (Some t) = Some k.
Proof.
  intros Ht. unfold getWeekKey.
  destruct (getWeekStart_in_range t Ht) as [w ->]. eexists. reflexivity.
Qed.

Lemma weeksWithWorkouts_from_in_range (dates acc : list string) :
  Forall (fun d => exists t, Date_parse d = Some t /\
                             (Z.abs t + 11 * msPerDay <= maxTimeValue)%Z)
         dates ->
  exists weeks, weeksWithWorkouts_from localTZA Date_parse dates acc
                = Some weeks.
Proof.
  intros H. revert acc.
  induction H as [|d dates [t [Hp Ht]] _ IH]; intros acc;
    cbn [weeksWithWorkouts_from].
  - eexists. reflexivity.
  - rewrite Hp. destruct (getWeekKey_in_range t Ht) as [k ->]. apply IH.
Qed.

Lemma streak_loop_in_range (weeks : list string) (n i : nat) (t : Z)
      (streak : nat) :
  (Z.abs t + 9 * msPerDay * Z.of_nat n + 2 * msPerDay <= maxTimeValue)%Z ->
  exists r, streak_loop localTZA weeks n i (Some t) streak = Some r /\
            streak <= r <= streak + n.
Proof.
  revert i t streak. induction n as [|n IH]; intros i t streak Ht;
    cbn [streak_loop].
  - exists streak. split; [reflexivity|lia].
  - assert (Hms : (0 < msPerDay)%Z) by (unfold msPerDay; lia).
    destruct (getWeekKey_in_range t ltac:(nia)) as [k ->].
    destruct (addDays_in_range t (-7)) as [t' [-> [_ Ht']]];
      [change (Z.abs (-7)) with 7%Z; nia|].
    change (Z.abs (-7)) with 7%Z in Ht'.
    assert (Hnext : (Z.abs t' + 9 * msPerDay * Z.of_nat n + 2 * msPerDay
                     <= maxTimeValue)%Z) by nia.
    destruct (includes weeks k).
    + destruct (IH (S i) t' (S streak) Hnext) as [r [-> Hr]].
      exists r. split; [reflexivity|lia].
    + destruct (Nat.eqb i 0).
      * destruct (IH (S i) t' streak Hnext) as [r [-> Hr]].
        exists r. split; [reflexivity|lia].
      * exists streak. split; [reflexivity|lia].
Qed.

End Host.

(** ** getCurrentStreak: when it returns and when it throws *)

(** X22. With no workout date [getCurrentStreak] returns 0, and it
    throws as soon as one workout date is a text the host cannot parse.
    On a host whose offset from UTC is always within a day, which is
    every time zone, daylight saving or not, it returns a number of
    weeks, 52 at most, when the current time is at least 470 days, and
    the time of every workout date at least 11 days, from the ends of the
    range of [Date]. *)
Theorem getCurrentStreak_returns_or_throws :
  forall (localTZA : Z -> bool -> Z) (Date_parse : string -> Date)
         (now : Z) (data : Data),
    (getUniqueWorkoutDates data = [] ->
     getCurrentStreak localTZA Date_parse now data = Some 0) /\
    ((forall t isUTC, (Z.abs (localTZA t isUTC) <= msPerDay)%Z) ->
     (Z.abs now + 470 * msPerDay <= maxTimeValue)%Z ->
     Forall (fun d => exists t, Date_parse d = Some t /\
                                (Z.abs t + 11 * msPerDay <= maxTimeValue)%Z)
            (getUniqueWorkoutDates data) ->
     exists streak,
       getCurrentStreak localTZA Date_parse now data = Some streak /\
       streak <= 52) /\
    (forall d, In d (getUniqueWorkoutDates data) -> Date_parse d = None ->
               getCurrentStreak localTZA Date_parse now data = None).
Proof.
  intros localTZA Date_parse now data. unfold getCurrentStreak.
  assert (Hday : (0 < msPerDay)%Z) by (unfold msPerDay; lia).
  split; [intros ->; reflexivity|]. split.
  - intros Hoff Hnow Hdates.
    destruct (Nat.eqb (List.length (getUniqueWorkoutDates data)) 0);
      [exists 0; split; [reflexivity|lia]|].
    destruct (@weeksWithWorkouts_from_in_range localTZA Date_parse Hoff _ []
                Hdates)
      as [weeks ->].
    rewrite TimeClip_in_range by lia.
    destruct (@streak_loop_in_range localTZA Hoff weeks 52 0 now 0) as [r [Hr Hle]].
    { change (Z.of_nat 52) with 52%Z. lia. }
    exists r. split; [exact Hr|lia].
  - intros d Hin Hd.
    destruct (getUniqueWorkoutDates data) as [|x l] eqn:E; [destruct Hin|].
    cbn [List.length Nat.eqb].
    now rewrite (@weeksWithWorkouts_from_invalid localTZA Date_parse _ [] d Hin Hd).
Qed.

(** ** getWorkoutsThisWeek *)

(** X23. [getWorkoutsThisWeek] counts the workout dates that parse to a
    time not before the start of its week, so never more than
    [getTotalWorkouts], and with no bound on the other side: a date
    after the week is counted too. Take a host whose offset from UTC is
    always within a day and on which a local time taken to UTC and back
    stays on its calendar day, and a current time at least 11 days from
    the ends of the range of [Date]. Then that start falls on the Sunday
    on or before today, at the time [setHours(0, 0, 0, 0)] gives, whereas
    [getWeekStart], which the streak uses, falls on a Monday: the
    calendar day after that Sunday, or the one six days before it when
    today is Sunday. *)
Theorem getWorkoutsThisWeek_counts_from_sunday :
  forall (localTZA : Z -> bool -> Z) (Date_parse : string -> Date)
         (now : Z) (data : Data),
    getWorkoutsThisWeek localTZA Date_parse now data <= getTotalWorkouts data /\
    ((forall t isUTC, (Z.abs (localTZA t isUTC) <= msPerDay)%Z) ->
     (forall x, Day (LocalTime localTZA (UTC localTZA x)) = Day x) ->
     (Z.abs now + 11 * msPerDay <= maxTimeValue)%Z ->
     exists start monday,
       startOfWeek localTZA now = Some start /\
       getWeekStart localTZA (Some now) = Some monday /\
       getDay localTZA (Some start) = Some 0%Z /\
       getDay localTZA (Some monday) = Some 1%Z /\
       setHours0 localTZA (Some start) = Some start /\
       (Day (LocalTime localTZA start) <= Day (LocalTime localTZA now)
        < Day (LocalTime localTZA start) + 7)%Z /\
       Day (LocalTime localTZA monday) =
         (if (Day (LocalTime localTZA start) =? Day (LocalTime localTZA now))%Z
          then Day (LocalTime localTZA start) - 6
          else Day (LocalTime localTZA start) + 1)%Z /\
       getWorkoutsThisWeek localTZA Date_parse now data =
         List.length
           (filter (fun d => match Date_parse d with
                             | Some t => (start <=? t)%Z
                             | None => false
                             end)
                   (getUniqueWorkoutDates data))).
Proof.
  intros localTZA Date_parse now data. split.
  { unfold getWorkoutsThisWeek, getTotalWorkouts. apply filter_length_le. }
  intros Hoff Hback Hnow.
  assert (Hms : (0 < msPerDay)%Z) by (unfold msPerDay; lia).
  set (D := Day (LocalTime localTZA now)).
  set (dow := ((D + 4) mod 7)%Z).
  assert (Hdow : (0 <= dow < 7)%Z) by (apply Z.mod_pos_bound; lia).
  assert (Hweek : forall k : Z, ((D - dow + 4 + k) mod 7 = k mod 7)%Z).
  { intros k. replace (D - dow + 4 + k)%Z with (k + ((D + 4) / 7) * 7)%Z.
    - apply Z.mod_add. lia.
    - unfold dow. pose proof (Z.div_mod (D + 4) 7 ltac:(lia)). lia. }
  (* the start of the week of getWorkoutsThisWeek *)
  destruct (@addDays_in_range localTZA Hoff now (- dow)) as [u1 [Hu1 [Eu1 Bu1]]];
    [nia|].
  assert (Du1 : Day (LocalTime localTZA u1) = (D - dow)%Z).
  { rewrite Eu1, Hback, Day_shift. fold D. lia. }
  destruct (@setHours0_in_range localTZA Hoff u1) as [start [Hstart [Estart _]]];
    [nia|].
  rewrite Du1 in Estart.
  assert (Dstart : Day (LocalTime localTZA start) = (D - dow)%Z).
  { rewrite Estart, Hback. apply Day_of_midnight. }
  assert (Hsow : startOfWeek localTZA now = Some start).
  { unfold startOfWeek. rewrite TimeClip_in_range by lia.
    cbn [getDay]. fold D. fold dow. cbv zeta. rewrite Hu1. exact Hstart. }
  (* the start of the week of the streak *)
  destruct (@setHours0_in_range localTZA Hoff now) as [u [Hu [Eu Bu]]]; [lia|].
  fold D in Eu.
  assert (Du : Day (LocalTime localTZA u) = D).
  { rewrite Eu, Hback. apply Day_of_midnight. }
  set (diff := (if (dow =? 0)%Z then -6 else 1 - dow)%Z).
  assert (Hdiff : (Z.abs diff <= 6)%Z) by (unfold diff; destruct (dow =? 0)%Z; lia).
  destruct (@addDays_in_range localTZA Hoff u diff) as [monday [Hmonday [Emonday _]]];
    [nia|].
  assert (Dmonday : Day (LocalTime localTZA monday) = (D + diff)%Z).
  { rewrite Emonday, Hback, Day_shift, Du. reflexivity. }
  assert (Hgws : getWeekStart localTZA (Some now) = Some monday).
  { unfold getWeekStart. rewrite Hu. cbn [getDay]. rewrite Du. fold dow.
    cbv zeta. fold diff. exact Hmonday. }
  exists start, monday.
  split; [exact Hsow|]. split; [exact Hgws|]. split.
  { cbn [getDay]. rewrite Dstart. f_equal.
    replace (D - dow + 4)%Z with (D - dow + 4 + 0)%Z by lia.
    now rewrite Hweek. }
  split.
  { cbn [getDay]. rewrite Dmonday. f_equal. unfold diff.
    destruct (dow =? 0)%Z eqn:E0.
    - apply Z.eqb_eq in E0.
      replace (D + -6 + 4)%Z with (D - dow + 4 + (-6))%Z by lia.
      now rewrite Hweek.
    - replace (D + (1 - dow) + 4)%Z with (D - dow + 4 + 1)%Z by lia.
      now rewrite Hweek. }
  split.
  { cbn [setHours0] in Hstart |- *. rewrite Dstart.
    rewrite Du1 in Hstart. exact Hstart. }
  rewrite Dstart. fold D. split; [lia|]. split.
  { rewrite Dmonday. unfold diff.
    destruct (dow =? 0)%Z eqn:E0.
    - apply Z.eqb_eq in E0.
      replace (D - dow =? D)%Z with true by (symmetry; apply Z.eqb_eq; lia).
      lia.
    - apply Z.eqb_neq in E0.
      replace (D - dow =? D)%Z with false by (symmetry; apply Z.eqb_neq; lia).
      lia. }
  unfold getWorkoutsThisWeek. rewrite Hsow. f_equal.
Qed.


End MoreProperties.

(** ** Instances of the further properties on the sample snapshots *)
Lemma addExerciseToWorkoutSession_appends_once_witness :
  exists ws',
    nth_error (workoutSessions
                 (addExerciseToWorkoutSession "w0" "B" sample_data)) 0
      = Some ws' /\
    exerciseIds ws' = ["A"; "B"] /\
    addExerciseToWorkoutSession "w0" "B"
      (addExerciseToWorkoutSession "w0" "B" sample_data)
    = addExerciseToWorkoutSession "w0" "B" sample_data.
Proof.
  destruct (@addExerciseToWorkoutSession_appends_once Z sample_data "w0" "B")
    as [_ [_ [Hnth Hagain]]].
  destruct (Hnth 0 earlier_workout eq_refl)
    as [ws' [Hws' [_ [_ [_ [_ [_ [Happ _]]]]]]]].
  exists ws'. split; [exact Hws'|]. split; [|exact Hagain].
  apply Happ; [reflexivity|]. simpl. intuition discriminate.
Defined.

Lemma getActiveWorkoutSession_after_start_and_end_witness :
  Forall (fun s => ws_id s <> "w9") (workoutSessions sample_data) /\
  getActiveWorkoutSession (startWorkoutSession now_sample "w9" sample_data)
    = Some (mkWorkoutSession "w9" (toISOString now_sample) None [] None) /\
  getActiveWorkoutSession
    (endWorkoutSession "w9" now_sample
       (startWorkoutSession now_sample "w9" sample_data))
    = getActiveWorkoutSession sample_data.
Proof.
  assert (Hfresh : Forall (fun s => ws_id s <> "w9")
                          (workoutSessions sample_data))
    by (repeat constructor; discriminate).
  destruct (@getActiveWorkoutSession_after_start_and_end Z sample_data
              now_sample now_sample "w9" "w9") as [Hstart [_ [_ [_ Hend]]]].
  split; [exact Hfresh|]. split; [exact Hstart|]. exact (Hend Hfresh).
Defined.

Lemma deleteWorkoutSession_absent_id_witness :
  deleteWorkoutSession "w9" sample_data = sample_data /\
  deleteWorkoutSession "w9" (startWorkoutSession now_sample "w9" sample_data)
    = sample_data.
Proof.
  destruct (@deleteWorkoutSession_absent_id Z sample_data "w9" now_sample)
    as [_ [_ Hfresh]].
  apply Hfresh. repeat constructor; discriminate.
Defined.

Lemma cleanOrphanedSessions_idempotent_witness :
  workoutSessions sample_data <> [] /\
  Forall (fun d =>
            exists ws t, In ws (workoutSessions sample_data) /\
                         endTime ws = Some t /\ t <> "" /\
                         datePart (startTime ws) = d)
         (getUniqueWorkoutDates (cleanOrphanedSessions sample_data)).
Proof.
  assert (H : workoutSessions sample_data <> []) by discriminate.
  split; [exact H|].
  exact (proj2 (@cleanOrphanedSessions_idempotent Z sample_data) H).
Defined.

Lemma deleteSet_unresolved_is_noop_witness :
  deleteSet "A" "s1" 2 sample_data = sample_data /\
  deleteSet "A" "s1" (-1) sample_data = sample_data /\
  deleteSet "A" "s9" 0 sample_data = sample_data.
Proof.
  split; [|split]; apply (@deleteSet_unresolved_is_noop Z sample_data);
    intros e s He Hid Hs; simpl in He;
    destruct He as [<-|[<-|[<-|[]]]]; try discriminate Hid;
    simpl in Hs; destruct Hs as [<-|[<-|[]]];
    (split; [discriminate|]); intros Hsid; try discriminate Hsid;
    simpl; lia.
Defined.

Lemma addSetToExercise_keeps_the_shape_witness :
  let data' :=
    addSetToExercise_update "A" (mkSet 5%Z 100%Z) (toISOString now_sample)
      "n1" sample_data in
  addSetToExercise "A" (mkSet 5%Z 100%Z) None now_sample "n1" sample_data
    = Some data' /\
  Forall (fun e => NoDup (map (fun s => datePart (es_date s)) (ex_sessions e)))
         (exercises data') /\
  Forall (fun e => Forall (fun s => es_sets s <> []) (ex_sessions e))
         (exercises data').
Proof.
  intros data'.
  assert (Hadd : addSetToExercise "A" (mkSet 5%Z 100%Z) None now_sample "n1"
                   sample_data = Some data') by reflexivity.
  destruct (@addSetToExercise_keeps_the_shape Z sample_data data' "A"
              (mkSet 5%Z 100%Z) None now_sample "n1" Hadd)
    as [_ [_ [Hdays [Hfull _]]]].
  split; [exact Hadd|]. split.
  - apply Hdays. repeat constructor; simpl; intuition discriminate.
  - apply Hfull. repeat constructor; discriminate.
Defined.

Lemma deleteSet_undoes_addSetToExercise_witness :
  exists data1,
    addSetToExercise "A" (mkSet 6%Z 65%Z) (Some (Some 1705312800000%Z))
      now_sample "n1" sample_data = Some data1 /\
    deleteSet "A" "s1" 2 data1 = sample_data.
Proof.
  destruct (@deleteSet_undoes_addSetToExercise Z sample_data "A"
              (mkSet 6%Z 65%Z) (Some (Some 1705312800000%Z)) now_sample
              1705312800000%Z "n1" bench) as [data1 [Hadd Hundo]].
  - repeat constructor; simpl; intuition discriminate.
  - simpl. auto.
  - reflexivity.
  - repeat constructor; discriminate.
  - repeat constructor; simpl; intuition discriminate.
  - reflexivity.
  - exists data1. split; [exact Hadd|exact Hundo].
Defined.

Lemma getExerciseMaxWeight_is_greatest_witness :
  getExerciseMaxWeight 0%Z Z.gtb bench = 70%Z /\
  forall s set, In s (ex_sessions bench) -> In set (es_sets s) ->
                Z.gtb (weight set) 70 = false.
Proof.
  split; [reflexivity|].
  apply (@getExerciseMaxWeight_is_greatest Z 0%Z Z.gtb bench).
  - intros a. rewrite Z.gtb_ltb. apply Z.ltb_irrefl.
  - intros a b c. rewrite !Z.gtb_ltb, !Z.ltb_ge, Z.ltb_lt. lia.
Defined.

Lemma getMuscleGroupOrder_rank_range_witness :
  getMuscleGroupOrder "B" "Push" "2024-01-15T10:20:00.000Z"
    (workoutSessions sample_data) (exercises sample_data) = Some 2 /\
  1 <= 2 /\
  (2 <= List.length (exercises sample_data) \/
   exists ws, In ws (workoutSessions sample_data) /\
              In "B" (exerciseIds ws) /\
              datePart (startTime ws) = datePart "2024-01-15T10:20:00.000Z" /\
              2 <= List.length (exerciseIds ws)).
Proof.
  split; [reflexivity|].
  exact (@getMuscleGroupOrder_rank_range Z "B" "Push"
           "2024-01-15T10:20:00.000Z" (workoutSessions sample_data)
           (exercises sample_data) 2 eq_refl).
Defined.

Lemma getExerciseLastSession_sorts_once_witness :
  Forall (fun s : ExerciseSession Z => Date_parse_iso (es_date s) <> None)
         (ex_sessions bench) /\
  fst (getExerciseLastSession Date_parse_iso bench) = Some bench_monday /\
  StronglySorted
    (fun a b : ExerciseSession Z =>
       exists ta tb, Date_parse_iso (es_date a) = Some ta /\
                     Date_parse_iso (es_date b) = Some tb /\ (tb <= ta)%Z)
    (ex_sessions (snd (getExerciseLastSession Date_parse_iso bench))).
Proof.
  assert (Hdated : Forall (fun s : ExerciseSession Z =>
                             Date_parse_iso (es_date s) <> None)
                          (ex_sessions bench)).
  { repeat constructor; vm_compute; discriminate. }
  split; [exact Hdated|]. split; [vm_compute; reflexivity|].
  destruct (@getExerciseLastSession_sorts_once Z Date_parse_iso bench)
    as [_ [_ [_ [_ [_ [_ Hsorted]]]]]].
  exact (proj1 (Hsorted Hdated)).
Defined.

Lemma getExercisePreviousSessions_most_recent_witness :
  fst (getExercisePreviousSessions Date_parse_iso 1705312800000 bench 1)
    = [bench_earlier] /\
  StronglySorted
    (fun a b : ExerciseSession Z =>
       exists ta tb, Date_parse_iso (es_date a) = Some ta /\
                     Date_parse_iso (es_date b) = Some tb /\ (tb <= ta)%Z)
    (fst (getExercisePreviousSessions Date_parse_iso 1705312800000 bench 1)).
Proof.
  split; [vm_compute; reflexivity|].
  destruct (@getExercisePreviousSessions_most_recent Z Date_parse_iso
              1705312800000%Z bench 1) as [_ [_ [_ Hsorted]]].
  apply Hsorted. repeat constructor; vm_compute; discriminate.
Defined.

Lemma addSetToExercise_makes_a_workout_date_witness :
  exists data',
    addSetToExercise "A" (mkSet 5%Z 100%Z) None now_sample "n1" sample_data
      = Some data' /\
    In "2024-01-17" (getUniqueWorkoutDates data') /\
    getTotalWorkouts data' <= S (getTotalWorkouts sample_data).
Proof.
  destruct (@addSetToExercise_makes_a_workout_date Z sample_data "A"
              (mkSet 5%Z 100%Z) None now_sample now_sample "n1" eq_refl)
    as [data' [Hadd [Hdates [_ Htotal]]]].
  exists data'. split; [exact Hadd|]. split; [|exact Htotal].
  apply Hdates. right. split; [vm_compute; reflexivity|].
  exists bench. split; [simpl; auto|reflexivity].
Defined.

Lemma ordinal_suffix_witness :
  safe_integer 23 /\ ordinal 23 = "23rd" /\
  safe_integer 112 /\ ordinal 112 = "112th".
Proof.
  assert (H23 : safe_integer 23) by reflexivity.
  assert (H112 : safe_integer 112) by reflexivity.
  split; [exact H23|]. split; [exact (@ordinal_suffix 23%Z H23)|].
  split; [exact H112|]. exact (@ordinal_suffix 112%Z H112).
Defined.


Lemma derivations_on_well_shaped_values_witness :
  let v :=
    JObject
      [("workoutSessions",
        JArray (map (WorkoutSession_toJS Z) (workoutSessions sample_data)));
       ("version", JNumber 2%Z);
       ("exercises", JArray (map (@Exercise_toJS Z) (exercises sample_data)))]
  in
  WorkoutData_ofJS v = Some sample_data /\
  getUniqueWorkoutDates_js Z_truthy v
    = Some (getUniqueWorkoutDates sample_data) /\
  getActiveWorkoutSession_js Z_truthy v = Some None.
Proof.
  intros v.
  assert (Hread : WorkoutData_ofJS v = Some sample_data)
    by (vm_compute; reflexivity).
  split; [exact Hread|].
  exact (@derivations_on_well_shaped_values Z Z_truthy v sample_data Hread).
Defined.

Lemma addExercise_joins_its_category_witness :
  Forall (fun e : Exercise Z => ex_id e <> "F") (exercises sample_data) /\
  deleteExercise "F" (addExercise "Face pull" "Pull" "F" sample_data)
    = sample_data.
Proof.
  assert (Hfresh : Forall (fun e : Exercise Z => ex_id e <> "F")
                          (exercises sample_data))
    by (repeat constructor; discriminate).
  split; [exact Hfresh|].
  destruct (@addExercise_joins_its_category Z sample_data "Face pull" "Pull"
              "F") as [_ [_ [_ [_ Hundo]]]].
  exact (Hundo Hfresh).
Defined.

Lemma getCurrentStreak_returns_or_throws_witness :
  (exists streak,
      getCurrentStreak utc_host Date_parse_iso now_sample three_week_data
        = Some streak /\ streak <= 52) /\
  getCurrentStreak utc_host Date_parse_iso now_sample undated_data = None.
Proof.
  destruct (@getCurrentStreak_returns_or_throws Z utc_host Date_parse_iso
              now_sample three_week_data) as [_ [Hreturns _]].
  destruct (@getCurrentStreak_returns_or_throws Z utc_host Date_parse_iso
              now_sample undated_data) as [_ [_ Hthrows]].
  split.
  - apply Hreturns.
    + intros t isUTC. vm_compute. discriminate.
    + vm_compute. discriminate.
    + set (dates := getUniqueWorkoutDates three_week_data).
      vm_compute in dates. subst dates.
      repeat constructor;
        (eexists; split; [vm_compute; reflexivity|vm_compute; discriminate]).
  - apply (Hthrows "yesterday"); [vm_compute; auto|reflexivity].
Defined.

Lemma getWorkoutsThisWeek_counts_from_sunday_witness :
  exists start monday,
    startOfWeek utc_host now_sample = Some start /\
    getWeekStart utc_host (Some now_sample) = Some monday /\
    getDay utc_host (Some start) = Some 0%Z /\
    getDay utc_host (Some monday) = Some 1%Z /\
    toISOString start = "2024-01-14T00:00:00.000Z" /\
    toISOString monday = "2024-01-15T00:00:00.000Z" /\
    getWorkoutsThisWeek utc_host Date_parse_iso now_sample sample_data = 1.
Proof.
  destruct (@getWorkoutsThisWeek_counts_from_sunday Z utc_host Date_parse_iso
              now_sample sample_data) as [_ Hweek].
  destruct Hweek as [start [monday [Hstart [Hmonday [Hsun [Hmon _]]]]]].
  - intros t isUTC. vm_compute. discriminate.
  - intros x. unfold LocalTime, UTC, utc_host. f_equal. lia.
  - vm_compute. discriminate.
  - exists start, monday.
    split; [exact Hstart|]. split; [exact Hmonday|].
    split; [exact Hsun|]. split; [exact Hmon|].
    vm_compute in Hstart. injection Hstart as <-.
    vm_compute in Hmonday. injection Hmonday as <-.
    split; [vm_compute; reflexivity|]. split; vm_compute; reflexivity.
Defined.
